(** * astra-ai: the Gmail field extractor of [main.py]

    A shallow embedding of [decode_base64url] and [extract_email_fields]
    together with the parts of the Python runtime they rely on
    ([dict.get], truthiness, [str.lower], [base64.urlsafe_b64decode],
    [bytes.decode("utf-8", errors="ignore")]), and the properties of the
    extractor stated in the specification. *)

From Stdlib Require Import String Ascii Bool Arith ZArith Lia List.
From Stdlib Require Import Floats.SpecFloat.
Import ListNotations.

Local Open Scope Z_scope.
Set Warnings "-register-all".

(** ** Python values *)

(** A Python [str] is a sequence of code points; [len] counts code points. *)
Definition pystr := list Z.

(** A string literal of the source: one code point per character. *)
Definition lit (s : string) : pystr :=
  map (fun a => Z.of_N (N_of_ascii a)) (list_ascii_of_string s).

(** A byte string ([bytes]): values in [0, 256). *)
Definition pybytes := list Z.

Definition is_byte (b : Z) : Prop := 0 <= b < 256.

(** The values [json.loads] builds: [None], [bool], [int], [float], [str],
    [list] and [dict].  A [dict] keeps its items in insertion order. *)
Inductive json : Type :=
| JNull
| JBool (b : bool)
| JInt (n : Z)
| JFloat (f : spec_float)
| JStr (s : pystr)
| JArr (items : list json)
| JObj (fields : list (pystr * json)).

(** The exceptions the extractor can meet. *)
Inductive exn : Type :=
| AttributeError
| TypeError
| KeyError
| ValueError
| BinasciiError
| RecursionError.

(** A computation either returns or raises. *)
Inductive result (A : Type) : Type :=
| Ok (a : A)
| Raise (e : exn).
Arguments Ok {A} a.
Arguments Raise {A} e.

Definition bind {A B : Type} (m : result A) (k : A -> result B) : result B :=
  match m with
  | Ok a => k a
  | Raise e => Raise e
  end.

Notation "x <- m ;; k" := (bind m (fun x => k))
  (at level 61, m at next level, right associativity).
Notation "' p <- m ;; k" := (bind m (fun p => k))
  (at level 61, p pattern, m at next level, right associativity).

Definition returns {A : Type} (m : result A) : Prop := exists a, m = Ok a.

(** ** The Python operations the source uses *)

Fixpoint str_eqb (s t : pystr) : bool :=
  match s, t with
  | [], [] => true
  | c :: s', d :: t' => (c =? d) && str_eqb s' t'
  | _, _ => false
  end.

(** Truth value of an object, as tested by [if] and [not]. *)
Definition py_truthy (v : json) : bool :=
  match v with
  | JNull => false
  | JBool b => b
  | JInt n => negb (n =? 0)
  | JFloat (S754_zero _) => false
  | JFloat _ => true
  | JStr [] => false
  | JStr _ => true
  | JArr [] => false
  | JArr _ => true
  | JObj [] => false
  | JObj _ => true
  end.

(** Lookup of a key among the items of a dict. *)
Fixpoint dict_lookup (k : pystr) (fields : list (pystr * json)) : option json :=
  match fields with
  | [] => None
  | (k', v) :: rest => if str_eqb k k' then Some v else dict_lookup k rest
  end.

(** [obj.get(key, default)]: only a dict has the method. *)
Definition py_get (obj : json) (key : pystr) (default : json) : result json :=
  match obj with
  | JObj fields =>
      match dict_lookup key fields with
      | Some v => Ok v
      | None => Ok default
      end
  | _ => Raise AttributeError
  end.

(** [obj.get(key)] is [obj.get(key, None)]. *)
Definition py_get_none (obj : json) (key : pystr) : result json :=
  py_get obj key JNull.

(** [obj[key]] with a string key. *)
Definition py_getitem (obj : json) (key : pystr) : result json :=
  match obj with
  | JObj fields =>
      match dict_lookup key fields with
      | Some v => Ok v
      | None => Raise KeyError
      end
  | _ => Raise TypeError
  end.

(** The items a [for] loop draws from an object: the elements of a list, the
    keys of a dict, the characters of a string; nothing else is iterable. *)
Definition py_iter (v : json) : result (list json) :=
  match v with
  | JArr items => Ok items
  | JObj fields => Ok (map (fun kv => JStr (fst kv)) fields)
  | JStr s => Ok (map (fun c => JStr [c]) s)
  | _ => Raise TypeError
  end.

(** [len(v)]. *)
Definition py_len (v : json) : result Z :=
  match v with
  | JStr s => Ok (Z.of_nat (List.length s))
  | JArr items => Ok (Z.of_nat (List.length items))
  | JObj fields => Ok (Z.of_nat (List.length fields))
  | _ => Raise TypeError
  end.

(** [s * n] for a string [s]. *)
Definition str_repeat (s : pystr) (n : Z) : pystr :=
  concat (repeat s (Z.to_nat n)).

(** [v += s] for a string [s]: concatenation on a string, [extend] on a list. *)
Definition py_iadd_str (v : json) (s : pystr) : result json :=
  match v with
  | JStr t => Ok (JStr (t ++ s))
  | JArr items => Ok (JArr (items ++ map (fun c => JStr [c]) s))
  | _ => Raise TypeError
  end.

(** [v == s] for a string literal [s]: only an equal string compares equal. *)
Definition py_eq_str (v : json) (s : pystr) : bool :=
  match v with
  | JStr t => str_eqb t s
  | _ => false
  end.

(** [str.lower] on one code point.  ASCII and Latin-1 capitals move down by
    32; U+0130 and the Kelvin sign U+212A are the only code points beyond
    ASCII whose lower case contains an ASCII letter.  Code points above
    U+00FF other than these are left as they are: none of them lower-cases to
    ASCII letters, so comparisons with ["subject"] and ["from"] do not
    depend on them. *)
Definition lower_cp (c : Z) : list Z :=
  if (65 <=? c) && (c <=? 90) then [c + 32]
  else if (192 <=? c) && (c <=? 222) && negb (c =? 215) then [c + 32]
  else if c =? 304 then [105; 775]
  else if c =? 8490 then [107]
  else [c].

Definition str_lower (s : pystr) : pystr := flat_map lower_cp s.

(** [v.lower()]: only a string has the method. *)
Definition py_lower (v : json) : result pystr :=
  match v with
  | JStr s => Ok (str_lower s)
  | _ => Raise AttributeError
  end.

(** ** [base64.urlsafe_b64decode]

    The standard library's decoder, as CPython 3.11 runs it for a [str]
    argument: the text is encoded to ASCII, the URL-safe characters are
    translated to the standard alphabet, and [binascii.a2b_base64] decodes the
    result in its lenient mode. *)

(** [s.encode('ascii')]; the library turns a failure into [ValueError]. *)
Fixpoint ascii_encode (s : pystr) : result pybytes :=
  match s with
  | [] => Ok []
  | c :: s' =>
      if (0 <=? c) && (c <? 128)
      then (bs <- ascii_encode s' ;; Ok (c :: bs))
      else Raise ValueError
  end.

(** [bytes.maketrans(b'-_', b'+/')] applied to one byte. *)
Definition urlsafe_translate (c : Z) : Z :=
  if c =? 45 then 43 else if c =? 95 then 47 else c.

Definition BASE64_PAD : Z := 61.

(** [table_a2b_base64]: the 6-bit value of an alphabet character; 255 (the
    byte [-1]) for every other byte. *)
Definition table_a2b_base64 (c : Z) : Z :=
  if (65 <=? c) && (c <=? 90) then c - 65
  else if (97 <=? c) && (c <=? 122) then c - 71
  else if (48 <=? c) && (c <=? 57) then c + 4
  else if c =? 43 then 62
  else if c =? 47 then 63
  else 255.

(** The loop of [binascii.a2b_base64] with [strict_mode] off.  [quad_pos] is
    the position in the current group of four, [leftchar] the bits carried
    over, [pads] the number of [=] seen since the last data character, and
    [bin_data] the bytes written so far.  A complete pad sequence ends the
    decoding; a group left open at the end of the input is an error. *)
Fixpoint a2b_loop (ascii_data : pybytes) (quad_pos leftchar pads : Z)
    (bin_data : pybytes) : result pybytes :=
  match ascii_data with
  | [] => if quad_pos =? 0 then Ok bin_data else Raise BinasciiError
  | this_ch :: rest =>
      if this_ch =? BASE64_PAD then
        if 2 <=? quad_pos then
          if 4 <=? quad_pos + (pads + 1) then Ok bin_data
          else a2b_loop rest quad_pos leftchar (pads + 1) bin_data
        else a2b_loop rest quad_pos leftchar pads bin_data
      else
        let v := table_a2b_base64 this_ch in
        if 64 <=? v then a2b_loop rest quad_pos leftchar pads bin_data
        else if quad_pos =? 0 then
          a2b_loop rest 1 v 0 bin_data
        else if quad_pos =? 1 then
          a2b_loop rest 2 (Z.land v 15) 0
            (bin_data ++ [Z.land (Z.lor (Z.shiftl leftchar 2) (Z.shiftr v 4)) 255])
        else if quad_pos =? 2 then
          a2b_loop rest 3 (Z.land v 3) 0
            (bin_data ++ [Z.land (Z.lor (Z.shiftl leftchar 4) (Z.shiftr v 2)) 255])
        else
          a2b_loop rest 0 0 0
            (bin_data ++ [Z.land (Z.lor (Z.shiftl leftchar 6) v) 255])
  end.

Definition a2b_base64 (data : pybytes) : result pybytes :=
  a2b_loop data 0 0 0 [].

(** [base64.urlsafe_b64decode(s)]: a [str] is decoded as described above; a
    list or a dict is not bytes-like. *)
Definition urlsafe_b64decode (s : json) : result pybytes :=
  match s with
  | JStr t =>
      bs <- ascii_encode t ;;
      a2b_base64 (map urlsafe_translate bs)
  | _ => Raise TypeError
  end.

(** ** [bytes.decode("utf-8", errors="ignore")]

    CPython's UTF-8 decoder with the [ignore] handler: an invalid start byte
    is dropped; when a continuation byte is wrong, the bytes before it are
    dropped and decoding resumes at it; a sequence cut off by the end of the
    input is dropped. Overlong forms, surrogates and values above U+10FFFF are
    rejected at the second byte. *)

Definition is_continuation_byte (ch : Z) : bool := (128 <=? ch) && (ch <? 192).

Fixpoint utf8_decode_ignore (s : pybytes) : pystr :=
  match s with
  | [] => []
  | ch :: s1 =>
      if ch <? 128 then ch :: utf8_decode_ignore s1
      else if ch <? 224 then
        if ch <? 194 then utf8_decode_ignore s1
        else
          match s1 with
          | [] => []
          | ch2 :: s2 =>
              if negb (is_continuation_byte ch2) then utf8_decode_ignore s1
              else (ch * 64 + ch2 - (192 * 64 + 128)) :: utf8_decode_ignore s2
          end
      else if ch <? 240 then
        match s1 with
        | [] => []
        | ch2 :: s2 =>
            if negb (is_continuation_byte ch2)
               || (if ch2 <? 160 then ch =? 224 else ch =? 237)
            then utf8_decode_ignore s1
            else
              match s2 with
              | [] => []
              | ch3 :: s3 =>
                  if negb (is_continuation_byte ch3) then utf8_decode_ignore s2
                  else (ch * 4096 + ch2 * 64 + ch3
                        - (224 * 4096 + 128 * 64 + 128)) :: utf8_decode_ignore s3
              end
        end
      else if ch <? 245 then
        match s1 with
        | [] => []
        | ch2 :: s2 =>
            if negb (is_continuation_byte ch2)
               || (if ch2 <? 144 then ch =? 240 else ch =? 244)
            then utf8_decode_ignore s1
            else
              match s2 with
              | [] => []
              | ch3 :: s3 =>
                  if negb (is_continuation_byte ch3) then utf8_decode_ignore s2
                  else
                    match s3 with
                    | [] => []
                    | ch4 :: s4 =>
                        if negb (is_continuation_byte ch4)
                        then utf8_decode_ignore s3
                        else (ch * 262144 + ch2 * 4096 + ch3 * 64 + ch4
                              - (240 * 262144 + 128 * 4096 + 128 * 64 + 128))
                             :: utf8_decode_ignore s4
                    end
              end
        end
      else utf8_decode_ignore s1
  end.

(** ** [decode_base64url] *)

Definition decode_base64url (data : json) : result pystr :=
  if negb (py_truthy data) then Ok []
  else
    n <- py_len data ;;
    let missing_padding := n mod 4 in
    data' <- (if negb (missing_padding =? 0)
              then py_iadd_str data (str_repeat (lit "=") (4 - missing_padding))
              else Ok data) ;;
    raw <- urlsafe_b64decode data' ;;
    Ok (utf8_decode_ignore raw).

(** ** [extract_email_fields] *)

(** [mime in ("text/plain", "text/html")]. *)
Definition mime_is_text (mime : json) : bool :=
  py_eq_str mime (lit "text/plain") || py_eq_str mime (lit "text/html").

Section WalkParts.

(** The call [walk_parts(part["parts"])] made from inside the loop. *)
Variable recurse : json -> result pystr.

(** The body of [walk_parts]: the loop [for part in parts]. *)
Fixpoint walk_siblings (parts : list json) : result pystr :=
  match parts with
  | [] => Ok []
  | part :: rest =>
      mime <- py_get part (lit "mimeType") (JStr []) ;;
      body <- py_get part (lit "body") (JObj []) ;;
      data <- py_get_none body (lit "data") ;;
      if mime_is_text mime && py_truthy data then decode_base64url data
      else
        nested <- py_get_none part (lit "parts") ;;
        if py_truthy nested then
          sub <- py_getitem part (lit "parts") ;;
          res <- recurse sub ;;
          if py_truthy (JStr res) then Ok res else walk_siblings rest
        else walk_siblings rest
  end.

End WalkParts.

(** [walk_parts] with a bound on the depth of its recursion: [fuel] is the
    number of nested calls still allowed, as the interpreter's recursion limit
    is; a call beyond it raises [RecursionError]. *)
Fixpoint walk_parts_fuel (fuel : nat) (parts : json) : result pystr :=
  items <- py_iter parts ;;
  walk_siblings
    (match fuel with
     | O => fun _ => Raise RecursionError
     | S fuel' => walk_parts_fuel fuel'
     end) items.

(** Nesting depth of a value: 0 for a scalar, one more than its deepest
    member for a list or a dict. *)
Fixpoint json_depth (v : json) : nat :=
  match v with
  | JArr items =>
      S (fold_right (fun x d => Nat.max (json_depth x) d) O items)
  | JObj fields =>
      S (fold_right (fun kv d => Nat.max (json_depth (snd kv)) d) O fields)
  | _ => O
  end.

(** [walk_parts] on a stack without limit: the budget is as large as the
    argument is deep, so that no call is refused.  The interpreter does have
    a limit: what the code does under it is [walk_parts_fuel].  Under any
    budget [walk_parts_fuel] gives the result of [walk_parts] or raises
    [RecursionError], and it gives the result of [walk_parts] whenever the
    budget covers the nesting of the argument. *)
Definition walk_parts (parts : json) : result pystr :=
  walk_parts_fuel (json_depth parts) parts.

(** The header loop: [sender] and [subject] are overwritten on each match. *)
Fixpoint extract_headers (headers : list json) (sender subject : json)
  : result (json * json) :=
  match headers with
  | [] => Ok (sender, subject)
  | h :: rest =>
      nm <- py_get h (lit "name") (JStr []) ;;
      name <- py_lower nm ;;
      if str_eqb name (lit "subject") then
        v <- py_get h (lit "value") (JStr []) ;;
        extract_headers rest sender v
      else if str_eqb name (lit "from") then
        v <- py_get h (lit "value") (JStr []) ;;
        extract_headers rest v subject
      else extract_headers rest sender subject
  end.

(** The result is the tuple [(sender, subject, body)].  The walk is the one
    on a stack without limit; [extract_email_fields_fuel] below is the same
    code under the interpreter's limit. *)
Definition extract_email_fields (message : json)
  : result (json * json * pystr) :=
  payload <- py_get message (lit "payload") (JObj []) ;;
  headers <- py_get payload (lit "headers") (JArr []) ;;
  hs <- py_iter headers ;;
  '(sender, subject) <- extract_headers hs (JStr []) (JStr []) ;;
  inline <- py_get payload (lit "body") (JObj []) ;;
  data <- py_get_none inline (lit "data") ;;
  if py_truthy data then
    b <- py_getitem payload (lit "body") ;;
    d <- py_getitem b (lit "data") ;;
    body <- decode_base64url d ;;
    Ok (sender, subject, body)
  else
    parts <- py_get payload (lit "parts") (JArr []) ;;
    body <- walk_parts parts ;;
    Ok (sender, subject, body).

(** [extract_email_fields] under the interpreter's recursion limit: [fuel]
    is the number of nested calls of [walk_parts] that the stack still
    allows when the walk begins.  The code is the same; only the walk can
    run out of stack. *)
Definition extract_email_fields_fuel (fuel : nat) (message : json)
  : result (json * json * pystr) :=
  payload <- py_get message (lit "payload") (JObj []) ;;
  headers <- py_get payload (lit "headers") (JArr []) ;;
  hs <- py_iter headers ;;
  '(sender, subject) <- extract_headers hs (JStr []) (JStr []) ;;
  inline <- py_get payload (lit "body") (JObj []) ;;
  data <- py_get_none inline (lit "data") ;;
  if py_truthy data then
    b <- py_getitem payload (lit "body") ;;
    d <- py_getitem b (lit "data") ;;
    body <- decode_base64url d ;;
    Ok (sender, subject, body)
  else
    parts <- py_get payload (lit "parts") (JArr []) ;;
    body <- walk_parts_fuel fuel parts ;;
    Ok (sender, subject, body).

(** ** The script around the call (lines 68 to 75)

    The response is parsed, the fields are extracted and printed, all in one
    [try] block that two handlers follow.  A handler is chosen by the class
    of the exception raised, so the classes are modelled with their bases. *)

Module PyClass.

Inductive t : Type :=
| BaseException
| Exception
| KeyboardInterrupt
| SystemExit
| AttributeError
| TypeError
| LookupError
| KeyError
| ValueError
| UnicodeError
| UnicodeDecodeError
| JSONDecodeError
| BinasciiError
| RuntimeError
| RecursionError.

(** The base of each class, as the interpreter and its library declare it:
    [json.JSONDecodeError] and [binascii.Error] derive from [ValueError]. *)
Definition base (c : t) : option t :=
  match c with
  | BaseException => None
  | Exception | KeyboardInterrupt | SystemExit => Some BaseException
  | AttributeError | TypeError | LookupError | ValueError | RuntimeError =>
      Some Exception
  | KeyError => Some LookupError
  | UnicodeError | JSONDecodeError | BinasciiError => Some ValueError
  | UnicodeDecodeError => Some UnicodeError
  | RecursionError => Some RuntimeError
  end.

Definition index (c : t) : nat :=
  match c with
  | BaseException => 0
  | Exception => 1
  | KeyboardInterrupt => 2
  | SystemExit => 3
  | AttributeError => 4
  | TypeError => 5
  | LookupError => 6
  | KeyError => 7
  | ValueError => 8
  | UnicodeError => 9
  | UnicodeDecodeError => 10
  | JSONDecodeError => 11
  | BinasciiError => 12
  | RuntimeError => 13
  | RecursionError => 14
  end.

Definition eqb (c d : t) : bool := Nat.eqb (index c) (index d).

(** [d] is [c] or is reached from [c] in at most [n] steps to the base. *)
Fixpoint subclass_within (n : nat) (c d : t) : bool :=
  eqb c d ||
  match n, base c with
  | S n', Some b => subclass_within n' b d
  | _, _ => false
  end.

(** [issubclass(c, d)]; no class here has more than four classes above
    it. *)
Definition issubclass (c d : t) : bool := subclass_within 4 c d.

End PyClass.

(** The class of each exception that the functions above raise. *)
Definition class_of (e : exn) : PyClass.t :=
  match e with
  | AttributeError => PyClass.AttributeError
  | TypeError => PyClass.TypeError
  | KeyError => PyClass.KeyError
  | ValueError => PyClass.ValueError
  | BinasciiError => PyClass.BinasciiError
  | RecursionError => PyClass.RecursionError
  end.

(** What [json.loads(data.decode("utf-8"))] makes of the response: the
    parsed value, or an exception of some class. *)
Inductive loaded : Type :=
| Loaded (message_json : json)
| LoadRaises (c : PyClass.t).

(** How the script ends: with one of its three [print] calls, or with an
    exception that no handler took.  Writing to the standard output is not
    modelled. *)
Inductive outcome : Type :=
| PrintedFields (dataGot : json * json * pystr)
| PrintedJSONFailure
| PrintedError (c : PyClass.t)
| Uncaught (c : PyClass.t).

(** The [try] block, lines 69 to 71, with [fuel] nested calls left to the
    extractor: the fields, or the class of the exception raised. *)
Definition try_block (fuel : nat) (response : loaded)
  : PyClass.t + (json * json * pystr) :=
  match response with
  | LoadRaises c => inl c
  | Loaded message_json =>
      match extract_email_fields_fuel fuel message_json with
      | Ok dataGot => inr dataGot
      | Raise e => inl (class_of e)
      end
  end.

(** The handlers, lines 72 to 75, tried in the order of the source. *)
Definition handlers (c : PyClass.t) : outcome :=
  if PyClass.issubclass c PyClass.JSONDecodeError then PrintedJSONFailure
  else if PyClass.issubclass c PyClass.Exception then PrintedError c
  else Uncaught c.

Definition script (fuel : nat) (response : loaded) : outcome :=
  match try_block fuel response with
  | inr dataGot => PrintedFields dataGot
  | inl c => handlers c
  end.

(** * Notions used in the statements *)

(** The nested call available to the loop under a budget of [fuel]. *)
Definition fuel_call (fuel : nat) : json -> result pystr :=
  match fuel with
  | O => fun _ => Raise RecursionError
  | S fuel' => walk_parts_fuel fuel'
  end.

(** A computation that does not overflow the stack. *)
Definition overflow_free {A : Type} (m : result A) : Prop :=
  m <> Raise RecursionError.

(** What the loop reads from one part: its MIME type, the data of its body
    and its nested parts. *)
Definition part_view (part : json) : result (json * json * json) :=
  mime <- py_get part (lit "mimeType") (JStr []) ;;
  body <- py_get part (lit "body") (JObj []) ;;
  data <- py_get_none body (lit "data") ;;
  nested <- py_get_none part (lit "parts") ;;
  Ok (mime, data, nested).

(** [mime in ("text/plain", "text/html") and data]. *)
Definition is_text_part (mime data : json) : bool :=
  mime_is_text mime && py_truthy data.

(** A list of parts without a text part, at any level. *)
Inductive no_text : list json -> Prop :=
| no_text_nil : no_text []
| no_text_leaf (part : json) (rest : list json) (mime data nested : json) :
    part_view part = Ok (mime, data, nested) ->
    is_text_part mime data = false ->
    py_truthy nested = false ->
    no_text rest ->
    no_text (part :: rest)
| no_text_node (part : json) (rest : list json) (mime data : json)
    (items : list json) :
    part_view part = Ok (mime, data, JArr items) ->
    is_text_part mime data = false ->
    no_text items ->
    no_text rest ->
    no_text (part :: rest).

(** [first_text parts data]: [data] is the data of the first text part of
    [parts] in pre-order, a part coming before its nested parts and these
    before its later siblings. *)
Inductive first_text : list json -> json -> Prop :=
| first_text_here (part : json) (rest : list json) (mime data nested : json) :
    part_view part = Ok (mime, data, nested) ->
    is_text_part mime data = true ->
    first_text (part :: rest) data
| first_text_nested (part : json) (rest : list json) (mime d : json)
    (items : list json) (data : json) :
    part_view part = Ok (mime, d, JArr items) ->
    is_text_part mime d = false ->
    first_text items data ->
    first_text (part :: rest) data
| first_text_later (part : json) (rest : list json) (data : json) :
    no_text [part] ->
    first_text rest data ->
    first_text (part :: rest) data.

(** [data] followed by [(4 - len(data) % 4) % 4] characters [=]. *)
Definition padded (data : pystr) : pystr :=
  data ++ repeat 61 (Z.to_nat ((4 - Z.of_nat (List.length data) mod 4) mod 4)).

(** The characters of the base64url alphabet: letters, digits, [-] and [_]. *)
Definition b64url_alphabet (c : Z) : bool :=
  ((65 <=? c) && (c <=? 90)) || ((97 <=? c) && (c <=? 122))
  || ((48 <=? c) && (c <=? 57)) || (c =? 45) || (c =? 95).

(** The characters that the base64 decoder reads as data: the base64url
    alphabet, and [+] and [/] of the standard alphabet as well. *)
Definition data_char (c : Z) : bool :=
  b64url_alphabet c || (c =? 43) || (c =? 47).

Definition data_chars (data : pystr) : Z :=
  Z.of_nat (List.length (filter data_char data)).

(** The number of [=] that [decode_base64url] appends to [data]. *)
Definition missing_pads (data : pystr) : Z :=
  (4 - Z.of_nat (List.length data) mod 4) mod 4.

(** [m] data characters followed by [k] pad characters, and no pad
    character before, end on a complete group: the last group is full, or
    it holds two characters and two pads follow, or three and one pad. *)
Definition complete_groups (m k : Z) : bool :=
  (m mod 4 =? 0) || ((m mod 4 =? 2) && (2 <=? k)) || ((m mod 4 =? 3) && (1 <=? k)).

(** Unicode scalar values: the code points UTF-8 can encode. *)
Definition is_scalar (c : Z) : Prop :=
  0 <= c < 55296 \/ 57344 <= c < 1114112.

(** Modelled from the spec: the encoder of the mail provider is not part of
    the repository.  Text is encoded in UTF-8, the bytes in base64 with the
    URL-safe alphabet (RFC 4648, section 5), and the padding is left out.
    [utf8_encode_cp] gives the UTF-8 bytes of one code point. *)
Definition utf8_encode_cp (c : Z) : pybytes :=
  if c <? 128 then [c]
  else if c <? 2048 then [192 + c / 64; 128 + c mod 64]
  else if c <? 65536 then
    [224 + c / 4096; 128 + (c / 64) mod 64; 128 + c mod 64]
  else
    [240 + c / 262144; 128 + (c / 4096) mod 64; 128 + (c / 64) mod 64;
     128 + c mod 64].

(** Modelled from the spec: the UTF-8 bytes of a text. *)
Definition utf8_encode (s : pystr) : pybytes := flat_map utf8_encode_cp s.

(** Modelled from the spec: the character that stands for the 6-bit value
    [v] in the URL-safe alphabet. *)
Definition b64url_char (v : Z) : Z :=
  if v <? 26 then 65 + v
  else if v <? 52 then 97 + (v - 26)
  else if v <? 62 then 48 + (v - 52)
  else if v =? 62 then 45
  else 95.

(** Modelled from the spec: base64url without padding, three bytes to four
    characters, a last group of one or two bytes to two or three. *)
Fixpoint b64url_encode (bs : pybytes) : pystr :=
  match bs with
  | [] => []
  | [b0] => [b64url_char (b0 / 4); b64url_char (b0 mod 4 * 16)]
  | [b0; b1] =>
      [b64url_char (b0 / 4); b64url_char (b0 mod 4 * 16 + b1 / 16);
       b64url_char (b1 mod 16 * 4)]
  | b0 :: b1 :: b2 :: rest =>
      b64url_char (b0 / 4) :: b64url_char (b0 mod 4 * 16 + b1 / 16)
      :: b64url_char (b1 mod 16 * 4 + b2 / 64) :: b64url_char (b2 mod 64)
      :: b64url_encode rest
  end.

(** Modelled from the spec: the padding-stripped base64url encoding of a
    text. *)
Definition provider_encode (s : pystr) : pystr := b64url_encode (utf8_encode s).

(** [l1] is [l2] with some elements left out. *)
Inductive subseq {A : Type} : list A -> list A -> Prop :=
| subseq_nil : subseq [] []
| subseq_keep (x : A) (l1 l2 : list A) :
    subseq l1 l2 -> subseq (x :: l1) (x :: l2)
| subseq_drop (x : A) (l1 l2 : list A) :
    subseq l1 l2 -> subseq l1 (x :: l2).

(** [t] is a lossy decoding of the bytes [s]: a text of scalar values whose
    UTF-8 encoding is [s] with some bytes left out. *)
Definition lossy_decoding (s : pybytes) (t : pystr) : Prop :=
  Forall is_scalar t /\ subseq (utf8_encode t) s.

(** [drops_invalid s t]: the text [t] is what remains of the bytes [s] when
    the invalid bytes are dropped and nothing else.  Reading [s] from the
    left, the encoding of a scalar value is kept as that value, and a byte
    at which no encoding of a scalar value begins is dropped. *)
Inductive drops_invalid : pybytes -> pystr -> Prop :=
| drops_nil : drops_invalid [] []
| drops_keep (c : Z) (rest : pybytes) (t : pystr) :
    is_scalar c ->
    drops_invalid rest t ->
    drops_invalid (utf8_encode_cp c ++ rest) (c :: t)
| drops_skip (b : Z) (rest : pybytes) (t : pystr) :
    (forall c tail, is_scalar c -> b :: rest <> utf8_encode_cp c ++ tail) ->
    drops_invalid rest t ->
    drops_invalid (b :: rest) t.

(** The header block of [extract_email_fields], from the payload. *)
Definition header_pass (payload : json) : result (json * json) :=
  headers <- py_get payload (lit "headers") (JArr []) ;;
  hs <- py_iter headers ;;
  extract_headers hs (JStr []) (JStr []).

(** [payload.get("body", {}).get("data")]. *)
Definition inline_data (payload : json) : result json :=
  inline <- py_get payload (lit "body") (JObj []) ;;
  py_get_none inline (lit "data").

(** The items of a dict after [d[k] = v]. *)
Fixpoint dict_set (k : pystr) (v : json) (fields : list (pystr * json))
  : list (pystr * json) :=
  match fields with
  | [] => [(k, v)]
  | (k', w) :: rest =>
      if str_eqb k k' then (k, v) :: rest else (k', w) :: dict_set k v rest
  end.

(** The dict [obj] with the field [k] set to [v]. *)
Definition with_field (k : pystr) (v : json) (obj : json) : json :=
  match obj with
  | JObj fields => JObj (dict_set k v fields)
  | _ => obj
  end.

(** The message with the field [k] of its payload set to [v]. *)
Definition with_payload_field (k : pystr) (v : json) (message : json) : json :=
  match py_get message (lit "payload") (JObj []) with
  | Ok payload => with_field (lit "payload") (with_field k v payload) message
  | Raise _ => message
  end.

(** The items of a part, with an empty [parts] list added when the part has
    none. *)
Definition ensure_parts (fields : list (pystr * json)) : list (pystr * json) :=
  match dict_lookup (lit "parts") fields with
  | Some _ => fields
  | None => dict_set (lit "parts") (JArr []) fields
  end.

(** A parts list in which every part, at every level, has a [parts] list. *)
Fixpoint fill_parts (parts : json) : json :=
  match parts with
  | JArr items =>
      JArr (map (fun part =>
                   match part with
                   | JObj fields =>
                       JObj (ensure_parts
                               (map (fun kv =>
                                       match kv with
                                       | (k, w) =>
                                           (k, if str_eqb (lit "parts") k
                                               then fill_parts w else w)
                                       end) fields))
                   | _ => part
                   end) items)
  | _ => parts
  end.

(** The two layers of [fill_parts], named. *)
Definition fill_fields (fields : list (pystr * json)) : list (pystr * json) :=
  map (fun kv =>
         match kv with
         | (k, w) => (k, if str_eqb (lit "parts") k then fill_parts w else w)
         end) fields.

Definition fill_part (part : json) : json :=
  match part with
  | JObj fields => JObj (ensure_parts (fill_fields fields))
  | _ => part
  end.

(** The body block of [extract_email_fields], from the payload. *)
Definition extract_body (payload : json) : result pystr :=
  data <- inline_data payload ;;
  if py_truthy data then decode_base64url data
  else (parts <- py_get payload (lit "parts") (JArr []) ;; walk_parts parts).

(** A header whose name, lower-cased, is [key]. *)
Definition header_named (key : pystr) (h : json) : bool :=
  match py_get h (lit "name") (JStr []) with
  | Ok (JStr n) => str_eqb (str_lower n) key
  | _ => false
  end.

Definition header_value (h : json) : json :=
  match py_get h (lit "value") (JStr []) with
  | Ok v => v
  | Raise _ => JStr []
  end.

(** The value of the last header named [key]; [default] when there is none. *)
Definition last_header_or (key : pystr) (hs : list json) (default : json) : json :=
  match find (header_named key) (rev hs) with
  | Some h => header_value h
  | None => default
  end.

Definition last_header (key : pystr) (hs : list json) : json :=
  last_header_or key hs (JStr []).

(** A header entry the loop can read: a dict whose name is a string. *)
Definition well_formed_header (h : json) : Prop :=
  exists n, py_get h (lit "name") (JStr []) = Ok (JStr n).

Section PassedOver.

Variable recurse : json -> result pystr.

(** A part the scan passes over: not a text part with data, and either
    without nested parts or with nested parts that yield no text. *)
Definition passed_over (part : json) : Prop :=
  exists mime data nested,
    part_view part = Ok (mime, data, nested) /\
    is_text_part mime data = false /\
    (py_truthy nested = false \/ recurse nested = Ok []).

End PassedOver.

(** ** Sample messages (section 8 of the specification) *)

Definition header (name value : string) : json :=
  JObj [(lit "name", JStr (lit name)); (lit "value", JStr (lit value))].

Definition leaf_part (mime data : string) : json :=
  JObj [(lit "mimeType", JStr (lit mime));
        (lit "body", JObj [(lit "data", JStr (lit data))])].

Definition multipart (children : list json) : json :=
  JObj [(lit "mimeType", JStr (lit "multipart/alternative"));
        (lit "body", JObj []);
        (lit "parts", JArr children)].

Definition message_of (headers : list json) (body : list (pystr * json))
    (parts : list json) : json :=
  JObj [(lit "payload",
         JObj [(lit "headers", JArr headers);
               (lit "body", JObj body);
               (lit "parts", JArr parts)])].


(** * Notions used in the further properties *)

(** An ASCII character the base64 decoder skips: neither a character of
    either alphabet nor [=]. *)
Definition skipped_char (c : Z) : bool :=
  (0 <=? c) && (c <? 128) && negb (c =? BASE64_PAD)
  && (64 <=? table_a2b_base64 (urlsafe_translate c)).

(** [text_within parts data]: [data] is the data of a text part somewhere in
    [parts], at any level and in any position. *)
Inductive text_within : list json -> json -> Prop :=
| text_within_here (part : json) (rest : list json) (mime data nested : json) :
    part_view part = Ok (mime, data, nested) ->
    is_text_part mime data = true ->
    text_within (part :: rest) data
| text_within_nested (part : json) (rest : list json) (mime d : json)
    (items : list json) (data : json) :
    part_view part = Ok (mime, d, JArr items) ->
    text_within items data ->
    text_within (part :: rest) data
| text_within_later (part : json) (rest : list json) (data : json) :
    text_within rest data ->
    text_within (part :: rest) data.

(** The exception raised when a truthy value that is not a list is walked:
    a number or [True] cannot be iterated; the items of a string or of a
    dict are strings, which have no [get]. *)
Definition walk_type_error (v : json) : exn :=
  match v with
  | JStr _ | JObj _ => AttributeError
  | _ => TypeError
  end.

(** A part nested [n] levels deep: [n] lists, one inside the [parts] of the
    single part of the other, around the number 1. *)
Fixpoint chain (n : nat) : json :=
  match n with
  | O => JInt 1
  | S n' => JArr [JObj [(lit "parts", chain n')]]
  end.

(** A text part carrying [text], encoded as the provider does. *)
Definition text_part (mime text : pystr) : json :=
  JObj [(lit "mimeType", JStr mime);
        (lit "body", JObj [(lit "data", JStr (provider_encode text))])].

(** [part] below [n] multipart containers. *)
Fixpoint wrapped (n : nat) (part : json) : json :=
  match n with
  | O => part
  | S n' =>
      JObj [(lit "mimeType", JStr (lit "multipart/mixed"));
            (lit "parts", JArr [wrapped n' part])]
  end.

(** A payload with a From and a Subject header and the given fields
    besides, and the message that carries it. *)
Definition mail_payload (sender subject : pystr) (content : list (pystr * json))
  : json :=
  JObj ((lit "headers",
         JArr [JObj [(lit "name", JStr (lit "From"));
                     (lit "value", JStr sender)];
               JObj [(lit "name", JStr (lit "Subject"));
                     (lit "value", JStr subject)]])
        :: content).

Definition mail (sender subject : pystr) (content : list (pystr * json)) : json :=
  JObj [(lit "id", JStr (lit "19b3518298d6bf5e"));
        (lit "payload", mail_payload sender subject content)].

(** [name] is [key] up to the case of ASCII letters, character by
    character, for a [key] in lower case. *)
Definition caseless_eq (name key : pystr) : Prop :=
  Forall2 (fun c d => c = d \/ c = d - 32) name key.
(** * Properties *)

(** ** The result monad and strings *)

Lemma bind_ok {A B : Type} (a : A) (k : A -> result B) : bind (Ok a) k = k a.
Proof. reflexivity. Qed.

Lemma bind_raise {A B : Type} (e : exn) (k : A -> result B) :
  bind (Raise e) k = Raise e.
Proof. reflexivity. Qed.

Lemma bind_returns {A B : Type} (m : result A) (k : A -> result B) (b : B) :
  bind m k = Ok b -> exists a, m = Ok a /\ k a = Ok b.
Proof. destruct m as [a|e]; simpl; [eauto | discriminate]. Qed.

Lemma str_eqb_eq (s t : pystr) : str_eqb s t = true <-> s = t.
Proof.
  revert t; induction s as [|c s IH]; intros [|d t]; simpl;
    try (split; [discriminate | congruence]); [tauto|].
  rewrite andb_true_iff, Z.eqb_eq, IH. split; [intros [-> ->] | intros [= -> ->]]; auto.
Qed.

Lemma str_eqb_refl (s : pystr) : str_eqb s s = true.
Proof. now apply str_eqb_eq. Qed.

Lemma str_eqb_neq (s t : pystr) : str_eqb s t = false <-> s <> t.
Proof.
  rewrite <- str_eqb_eq. destruct (str_eqb s t); split; congruence.
Qed.

(** ** Depth of the members of a value *)

Lemma json_depth_item (items : list json) (x : json) :
  In x items -> (json_depth x < json_depth (JArr items))%nat.
Proof.
  simpl. induction items as [|y items IH]; simpl; [tauto|].
  intros [->|Hin]; [lia|]. specialize (IH Hin). lia.
Qed.

Lemma json_depth_field (fields : list (pystr * json)) (k : pystr) (v : json) :
  dict_lookup k fields = Some v -> (json_depth v < json_depth (JObj fields))%nat.
Proof.
  simpl. induction fields as [|[k' w] fields IH]; simpl; [discriminate|].
  destruct (str_eqb k k'); [intros [= ->]; lia|].
  intros H. specialize (IH H). lia.
Qed.

Lemma py_getitem_depth (obj : json) (k : pystr) (v : json) :
  py_getitem obj k = Ok v -> (json_depth v < json_depth obj)%nat.
Proof.
  destruct obj; try discriminate. unfold py_getitem.
  destruct (dict_lookup k fields) eqn:E; [|discriminate].
  intros [= ->]. eapply json_depth_field; eauto.
Qed.

(** A value reached as [part["parts"]] from an item of [parts] lies two
    levels below [parts]. *)
Lemma nested_parts_depth (parts : json) (items : list json) (part sub : json) :
  py_iter parts = Ok items -> In part items ->
  py_getitem part (lit "parts") = Ok sub ->
  (S (S (json_depth sub)) <= json_depth parts)%nat.
Proof.
  intros Hit Hin Hsub. destruct parts; try discriminate; simpl in Hit.
  - injection Hit as <-. apply in_map_iff in Hin as [c [<- _]]. discriminate.
  - injection Hit as <-. apply json_depth_item in Hin.
    apply py_getitem_depth in Hsub. lia.
  - injection Hit as <-. apply in_map_iff in Hin as [c [<- _]]. discriminate.
Qed.

(** ** The recursion of [walk_parts] *)

(** The loop consults [recurse] only at the [parts] of its items. *)
Lemma walk_siblings_ext (r1 r2 : json -> result pystr) (items : list json) :
  (forall part sub, In part items ->
     py_getitem part (lit "parts") = Ok sub -> r1 sub = r2 sub) ->
  walk_siblings r1 items = walk_siblings r2 items.
Proof.
  induction items as [|part rest IH]; intros H; simpl; [reflexivity|].
  destruct (py_get part (lit "mimeType") (JStr [])) as [mime|]; simpl; [|reflexivity].
  destruct (py_get part (lit "body") (JObj [])) as [body|]; simpl; [|reflexivity].
  destruct (py_get_none body (lit "data")) as [data|]; simpl; [|reflexivity].
  destruct (mime_is_text mime && py_truthy data); [reflexivity|].
  destruct (py_get_none part (lit "parts")) as [nested|]; simpl; [|reflexivity].
  assert (IH' : walk_siblings r1 rest = walk_siblings r2 rest)
    by (apply IH; intros p s Hp; apply H; now right).
  destruct (py_truthy nested); [|exact IH'].
  destruct (py_getitem part (lit "parts")) as [sub|] eqn:Hsub; simpl; [|reflexivity].
  rewrite (H part sub (or_introl eq_refl) Hsub).
  destruct (r2 sub) as [res|]; cbn [bind]; [|reflexivity].
  destruct res; [exact IH' | reflexivity].
Qed.


Lemma walk_parts_fuel_unfold (fuel : nat) (parts : json) :
  walk_parts_fuel fuel parts =
  (items <- py_iter parts ;; walk_siblings (fuel_call fuel) items).
Proof. destruct fuel; reflexivity. Qed.

(** Any two budgets that cover the depth of [parts] give the same result. *)
Lemma walk_parts_fuel_irrelevant (n : nat) :
  forall (m : nat) (parts : json),
    (json_depth parts <= n)%nat -> (json_depth parts <= m)%nat ->
    walk_parts_fuel n parts = walk_parts_fuel m parts.
Proof.
  induction n as [|n IH]; intros m parts Hn Hm;
    rewrite !walk_parts_fuel_unfold;
    destruct (py_iter parts) as [items|] eqn:Hit; simpl; try reflexivity;
    apply walk_siblings_ext; intros part sub Hin Hsub;
    pose proof (nested_parts_depth _ _ _ _ Hit Hin Hsub) as Hd; [lia|].
  destruct m as [|m]; [lia|]. simpl. apply IH; lia.
Qed.

(** Each nested call goes two levels down, through a list and a dict. *)
Lemma walk_parts_fuel_half (n : nat) :
  forall (m : nat) (parts : json),
    (json_depth parts <= 2 * n + 1)%nat -> (json_depth parts <= 2 * m + 1)%nat ->
    walk_parts_fuel n parts = walk_parts_fuel m parts.
Proof.
  induction n as [|n IH]; intros m parts Hn Hm;
    rewrite !walk_parts_fuel_unfold;
    destruct (py_iter parts) as [items|] eqn:Hit; simpl; try reflexivity;
    apply walk_siblings_ext; intros part sub Hin Hsub;
    pose proof (nested_parts_depth _ _ _ _ Hit Hin Hsub) as Hd; [lia|].
  destruct m as [|m]; [lia|]. simpl. apply IH; lia.
Qed.

(** The recursion equation of [walk_parts]. *)
Lemma walk_parts_unfold (parts : json) :
  walk_parts parts = (items <- py_iter parts ;; walk_siblings walk_parts items).
Proof.
  unfold walk_parts at 1. rewrite walk_parts_fuel_unfold.
  destruct (py_iter parts) as [items|] eqn:Hit; simpl; [|reflexivity].
  apply walk_siblings_ext; intros part sub Hin Hsub.
  pose proof (nested_parts_depth _ _ _ _ Hit Hin Hsub) as Hd.
  destruct (json_depth parts) as [|n]; [lia|]. simpl.
  apply walk_parts_fuel_irrelevant; lia.
Qed.


Lemma overflow_free_ok {A : Type} (a : A) : overflow_free (Ok a).
Proof. discriminate. Qed.

Lemma overflow_free_bind {A B : Type} (m : result A) (k : A -> result B) :
  overflow_free m -> (forall a, m = Ok a -> overflow_free (k a)) ->
  overflow_free (bind m k).
Proof.
  intros Hm Hk. destruct m as [a|e]; simpl; [now apply Hk|].
  intros [= ->]. now apply Hm.
Qed.

Lemma py_get_overflow_free (obj : json) (k : pystr) (d : json) :
  overflow_free (py_get obj k d).
Proof.
  destruct obj; try discriminate. unfold py_get.
  destruct (dict_lookup k fields); discriminate.
Qed.

Lemma py_getitem_overflow_free (obj : json) (k : pystr) :
  overflow_free (py_getitem obj k).
Proof.
  destruct obj; try discriminate. unfold py_getitem.
  destruct (dict_lookup k fields); discriminate.
Qed.

Lemma py_iter_overflow_free (v : json) : overflow_free (py_iter v).
Proof. destruct v; discriminate. Qed.

Lemma py_len_overflow_free (v : json) : overflow_free (py_len v).
Proof. destruct v; discriminate. Qed.

Lemma py_iadd_str_overflow_free (v : json) (s : pystr) :
  overflow_free (py_iadd_str v s).
Proof. destruct v; discriminate. Qed.

Lemma py_lower_overflow_free (v : json) : overflow_free (py_lower v).
Proof. destruct v; discriminate. Qed.

Lemma ascii_encode_overflow_free (s : pystr) : overflow_free (ascii_encode s).
Proof.
  induction s as [|c s IH]; simpl; [discriminate|].
  destruct ((0 <=? c) && (c <? 128)); [|discriminate].
  apply overflow_free_bind; [exact IH | discriminate].
Qed.

Lemma a2b_loop_overflow_free (data : pybytes) :
  forall q l p out, overflow_free (a2b_loop data q l p out).
Proof.
  induction data as [|c data IH]; intros q l p out; simpl.
  - destruct (q =? 0); discriminate.
  - repeat match goal with
           | |- overflow_free (if ?b then _ else _) => destruct b
           | |- overflow_free (Ok _) => discriminate
           | |- overflow_free (a2b_loop data _ _ _ _) => apply IH
           end.
Qed.

Lemma urlsafe_b64decode_overflow_free (v : json) :
  overflow_free (urlsafe_b64decode v).
Proof.
  destruct v; try discriminate. unfold urlsafe_b64decode.
  apply overflow_free_bind; [apply ascii_encode_overflow_free|].
  intros; apply a2b_loop_overflow_free.
Qed.

Lemma decode_base64url_overflow_free (data : json) :
  overflow_free (decode_base64url data).
Proof.
  unfold decode_base64url. destruct (negb (py_truthy data)); [discriminate|].
  apply overflow_free_bind; [apply py_len_overflow_free | intros n _].
  apply overflow_free_bind.
  - destruct (negb (n mod 4 =? 0));
      [apply py_iadd_str_overflow_free | discriminate].
  - intros d _. apply overflow_free_bind;
      [apply urlsafe_b64decode_overflow_free | discriminate].
Qed.

Lemma walk_siblings_overflow_free (r : json -> result pystr) (items : list json) :
  (forall part sub, In part items ->
     py_getitem part (lit "parts") = Ok sub -> overflow_free (r sub)) ->
  overflow_free (walk_siblings r items).
Proof.
  induction items as [|part rest IH]; intros H; [discriminate|].
  assert (IH' : overflow_free (walk_siblings r rest))
    by (apply IH; intros p s Hp; apply H; now right).
  cbn [walk_siblings].
  apply overflow_free_bind; [apply py_get_overflow_free | intros mime _].
  apply overflow_free_bind; [apply py_get_overflow_free | intros body _].
  apply overflow_free_bind; [apply py_get_overflow_free | intros data _].
  destruct (mime_is_text mime && py_truthy data);
    [apply decode_base64url_overflow_free|].
  apply overflow_free_bind; [apply py_get_overflow_free | intros nested _].
  destruct (py_truthy nested); [|exact IH'].
  apply overflow_free_bind; [apply py_getitem_overflow_free | intros sub Hsub].
  apply overflow_free_bind; [apply (H part sub); [now left | exact Hsub]|].
  intros res _. destruct (py_truthy (JStr res)); [discriminate | exact IH'].
Qed.

Lemma walk_parts_fuel_overflow_free (fuel : nat) :
  forall parts, (json_depth parts <= fuel)%nat ->
    overflow_free (walk_parts_fuel fuel parts).
Proof.
  induction fuel as [|fuel IH]; intros parts Hd;
    rewrite walk_parts_fuel_unfold;
    (apply overflow_free_bind; [apply py_iter_overflow_free | intros items Hit]);
    apply walk_siblings_overflow_free; intros part sub Hin Hsub;
    pose proof (nested_parts_depth _ _ _ _ Hit Hin Hsub) as Hd'; [lia|].
  simpl. apply IH. lia.
Qed.

Lemma walk_parts_overflow_free (parts : json) : overflow_free (walk_parts parts).
Proof. apply walk_parts_fuel_overflow_free. apply Nat.le_refl. Qed.

Lemma extract_headers_overflow_free (hs : list json) :
  forall sender subject, overflow_free (extract_headers hs sender subject).
Proof.
  induction hs as [|h hs IH]; intros sender subject; [discriminate|].
  cbn [extract_headers].
  apply overflow_free_bind; [apply py_get_overflow_free | intros nm _].
  apply overflow_free_bind; [apply py_lower_overflow_free | intros name _].
  destruct (str_eqb name (lit "subject")).
  - apply overflow_free_bind; [apply py_get_overflow_free | intros; apply IH].
  - destruct (str_eqb name (lit "from")); [|apply IH].
    apply overflow_free_bind; [apply py_get_overflow_free | intros; apply IH].
Qed.

Lemma extract_email_fields_overflow_free (message : json) :
  overflow_free (extract_email_fields message).
Proof.
  unfold extract_email_fields.
  apply overflow_free_bind; [apply py_get_overflow_free | intros payload _].
  apply overflow_free_bind; [apply py_get_overflow_free | intros headers _].
  apply overflow_free_bind; [apply py_iter_overflow_free | intros hs _].
  apply overflow_free_bind; [apply extract_headers_overflow_free|].
  intros [sender subject] _.
  apply overflow_free_bind; [apply py_get_overflow_free | intros inline _].
  apply overflow_free_bind; [apply py_get_overflow_free | intros data _].
  destruct (py_truthy data).
  - apply overflow_free_bind; [apply py_getitem_overflow_free | intros b _].
    apply overflow_free_bind; [apply py_getitem_overflow_free | intros d _].
    apply overflow_free_bind; [apply decode_base64url_overflow_free|discriminate].
  - apply overflow_free_bind; [apply py_get_overflow_free | intros parts _].
    apply overflow_free_bind; [apply walk_parts_overflow_free | discriminate].
Qed.


Example extract_inline_body :
  extract_email_fields
    (message_of [header "Subject" "Hi"; header "from" "a@b.com"]
                [(lit "data", JStr (lit "SGVsbG8"))] [])
  = Ok (JStr (lit "a@b.com"), JStr (lit "Hi"), lit "Hello").
Proof. reflexivity. Qed.

Example extract_single_part :
  extract_email_fields (message_of [] [] [leaf_part "text/plain" "SGk"])
  = Ok (JStr [], JStr [], lit "Hi").
Proof. reflexivity. Qed.

Example extract_nested_part :
  extract_email_fields
    (message_of [] [] [multipart [leaf_part "text/html" "PGI+SGk8L2I+"]])
  = Ok (JStr [], JStr [], lit "<b>Hi</b>").
Proof. reflexivity. Qed.

Example extract_uppercase_subject :
  extract_email_fields (message_of [header "SUBJECT" "Hi"] [] [])
  = Ok (JStr [], JStr (lit "Hi"), []).
Proof. reflexivity. Qed.

(** ** The extractor under a recursion budget *)

Lemma walk_parts_fuel_enough (fuel : nat) (parts : json) :
  (json_depth parts <= 2 * fuel + 1)%nat ->
  walk_parts_fuel fuel parts = walk_parts parts.
Proof. intros Hd. apply walk_parts_fuel_half; lia. Qed.

Lemma py_get_depth (obj : json) (k : pystr) (d v : json) :
  py_get obj k d = Ok v -> v = d \/ (json_depth v < json_depth obj)%nat.
Proof.
  destruct obj; try discriminate. cbn [py_get].
  destruct (dict_lookup k fields) as [w|] eqn:E; intros [= <-].
  - right. eapply json_depth_field; eauto.
  - now left.
Qed.

(** The budgeted extractor differs from the other only in the walk. *)
Lemma extract_email_fields_fuel_walk (fuel : nat) (message : json) :
  (forall payload parts,
     py_get message (lit "payload") (JObj []) = Ok payload ->
     py_get payload (lit "parts") (JArr []) = Ok parts ->
     walk_parts_fuel fuel parts = walk_parts parts) ->
  extract_email_fields_fuel fuel message = extract_email_fields message.
Proof.
  intros H. unfold extract_email_fields_fuel, extract_email_fields.
  destruct (py_get message (lit "payload") (JObj [])) as [payload|] eqn:Hp;
    [|reflexivity]. cbn [bind].
  destruct (py_get payload (lit "headers") (JArr [])) as [headers|]; [|reflexivity].
  cbn [bind]. destruct (py_iter headers) as [hs|]; [|reflexivity]. cbn [bind].
  destruct (extract_headers hs (JStr []) (JStr [])) as [[sender subject]|];
    [|reflexivity]. cbn [bind].
  destruct (py_get payload (lit "body") (JObj [])) as [inline|]; [|reflexivity].
  cbn [bind]. destruct (py_get_none inline (lit "data")) as [data|]; [|reflexivity].
  cbn [bind]. destruct (py_truthy data); [reflexivity|].
  destruct (py_get payload (lit "parts") (JArr [])) as [parts|] eqn:Hq;
    [|reflexivity]. cbn [bind].
  now rewrite (H payload parts eq_refl Hq).
Qed.

Lemma extract_email_fields_fuel_enough (fuel : nat) (message : json) :
  (json_depth message <= 2 * fuel + 3)%nat ->
  extract_email_fields_fuel fuel message = extract_email_fields message.
Proof.
  intros Hd. apply extract_email_fields_fuel_walk.
  intros payload parts Hp Hq.
  destruct (py_get_depth _ _ _ _ Hq) as [-> | Hparts].
  - now rewrite walk_parts_fuel_unfold, walk_parts_unfold.
  - apply walk_parts_fuel_enough.
    destruct (py_get_depth _ _ _ _ Hp) as [-> | Hpay].
    + cbn in Hparts. lia.
    + lia.
Qed.

(** Under any budget the walk overflows or gives the result that it gives
    on a stack without limit: a budget changes nothing but this. *)
Lemma walk_siblings_or_overflow (r1 r2 : json -> result pystr)
    (items : list json) :
  (forall sub, r1 sub = Raise RecursionError \/ r1 sub = r2 sub) ->
  walk_siblings r1 items = Raise RecursionError \/
  walk_siblings r1 items = walk_siblings r2 items.
Proof.
  intros H. induction items as [|part rest IH]; simpl; [now right|].
  destruct (py_get part (lit "mimeType") (JStr [])) as [mime|]; simpl;
    [|now right].
  destruct (py_get part (lit "body") (JObj [])) as [body|]; simpl; [|now right].
  destruct (py_get_none body (lit "data")) as [data|]; simpl; [|now right].
  destruct (mime_is_text mime && py_truthy data); [now right|].
  destruct (py_get_none part (lit "parts")) as [nested|]; simpl; [|now right].
  destruct (py_truthy nested); [|exact IH].
  destruct (py_getitem part (lit "parts")) as [sub|]; simpl; [|now right].
  destruct (H sub) as [E|E]; rewrite E; [now left|].
  destruct (r2 sub) as [res|]; cbn [bind]; [|now right].
  destruct res; [exact IH | now right].
Qed.

Lemma walk_parts_fuel_or_overflow (fuel : nat) :
  forall parts,
    walk_parts_fuel fuel parts = Raise RecursionError \/
    walk_parts_fuel fuel parts = walk_parts parts.
Proof.
  induction fuel as [|fuel IH]; intros parts;
    rewrite walk_parts_fuel_unfold, walk_parts_unfold;
    (destruct (py_iter parts) as [items|]; cbn [bind]; [|now right]);
    apply walk_siblings_or_overflow; intros sub; [now left | apply IH].
Qed.

Lemma extract_email_fields_fuel_or_overflow (fuel : nat) (message : json) :
  extract_email_fields_fuel fuel message = Raise RecursionError \/
  extract_email_fields_fuel fuel message = extract_email_fields message.
Proof.
  unfold extract_email_fields_fuel, extract_email_fields.
  destruct (py_get message (lit "payload") (JObj [])) as [payload|];
    [|now right]. cbn [bind].
  destruct (py_get payload (lit "headers") (JArr [])) as [headers|]; [|now right].
  cbn [bind]. destruct (py_iter headers) as [hs|]; [|now right]. cbn [bind].
  destruct (extract_headers hs (JStr []) (JStr [])) as [[sender subject]|];
    [|now right]. cbn [bind].
  destruct (py_get payload (lit "body") (JObj [])) as [inline|]; [|now right].
  cbn [bind]. destruct (py_get_none inline (lit "data")) as [data|]; [|now right].
  cbn [bind]. destruct (py_truthy data); [now right|].
  destruct (py_get payload (lit "parts") (JArr [])) as [parts|]; [|now right].
  cbn [bind].
  destruct (walk_parts_fuel_or_overflow fuel parts) as [E|E]; rewrite E;
    [now left | now right].
Qed.

(** ** Termination of the walk *)

(** C9: on every (finite) parts value the walk returns within a recursion
    depth bounded by the nesting depth of the value: a budget of nested
    calls that is at least [json_depth parts] is never exhausted, and every
    such budget yields the same result, the one of [walk_parts].  In the same
    way [extract_email_fields], run with a budget at least the nesting depth
    of the message, does not overflow the stack and returns what it returns
    under any larger budget.  Under a budget of any size, the walk and the
    extractor either raise RecursionError or give the result that does not
    depend on the budget. *)
Theorem walk_parts_terminates (parts : json) (fuel : nat) :
  (json_depth parts <= fuel)%nat ->
  walk_parts_fuel fuel parts = walk_parts parts /\
  walk_parts_fuel fuel parts <> Raise RecursionError /\
  (forall fuel', (fuel <= fuel')%nat ->
     walk_parts_fuel fuel' parts = walk_parts_fuel fuel parts) /\
  (forall message,
     (json_depth message <= fuel)%nat ->
     extract_email_fields_fuel fuel message <> Raise RecursionError /\
     extract_email_fields_fuel fuel message = extract_email_fields message /\
     forall fuel', (fuel <= fuel')%nat ->
       extract_email_fields_fuel fuel' message
       = extract_email_fields_fuel fuel message) /\
  (forall fuel',
     walk_parts_fuel fuel' parts = Raise RecursionError \/
     walk_parts_fuel fuel' parts = walk_parts_fuel fuel parts) /\
  (forall fuel' message,
     extract_email_fields_fuel fuel' message = Raise RecursionError \/
     extract_email_fields_fuel fuel' message = extract_email_fields message).
Proof.
  intros Hd. split; [|split; [|split; [|split; [|split]]]].
  6:{ intros fuel' message. apply extract_email_fields_fuel_or_overflow. }
  5:{ intros fuel'.
      rewrite (walk_parts_fuel_irrelevant fuel (json_depth parts) parts Hd
                 (Nat.le_refl _)).
      apply walk_parts_fuel_or_overflow. }
  - apply walk_parts_fuel_irrelevant; [exact Hd | apply Nat.le_refl].
  - now apply walk_parts_fuel_overflow_free.
  - intros fuel' Hf. apply walk_parts_fuel_irrelevant; lia.
  - intros message Hm.
    assert (He : forall f, (fuel <= f)%nat ->
                 extract_email_fields_fuel f message
                 = extract_email_fields message)
      by (intros f Hf; apply extract_email_fields_fuel_enough; lia).
    split; [|split].
    + rewrite (He fuel (Nat.le_refl _)).
      apply extract_email_fields_overflow_free.
    + apply He, Nat.le_refl.
    + intros fuel' Hf. now rewrite (He fuel' Hf), (He fuel (Nat.le_refl _)).
Qed.

Lemma walk_parts_terminates_witness :
  let parts := JArr [multipart [multipart [leaf_part "text/html" "PGI+SGk8L2I+"]]] in
  let message := message_of [] [] [multipart [leaf_part "text/plain" "SGk"]] in
  (json_depth parts <= 9)%nat /\
  (json_depth message <= 9)%nat /\
  walk_parts_fuel 9 parts = Ok (lit "<b>Hi</b>") /\
  extract_email_fields_fuel 9 message = Ok (JStr [], JStr [], lit "Hi") /\
  extract_email_fields_fuel 9 message <> Raise RecursionError /\
  extract_email_fields_fuel 1000 message = extract_email_fields_fuel 9 message.
Proof.
  intros parts message.
  assert (H : (json_depth parts <= 9)%nat) by (vm_compute; lia).
  assert (Hm : (json_depth message <= 9)%nat) by (vm_compute; lia).
  destruct (walk_parts_terminates parts 9 H) as (Hw & _ & _ & Hx & _).
  destruct (Hx message Hm) as (Hno & _ & Hmore).
  split; [exact H|]. split; [exact Hm|].
  split; [rewrite Hw; reflexivity|].
  split; [reflexivity|].
  split; [exact Hno|].
  apply Hmore. lia.
Defined.

(** With no budget for nested calls, a nested list overflows. *)
Example walk_parts_fuel_exhausted :
  walk_parts_fuel 0 (JArr [multipart [leaf_part "text/plain" "SGk"]])
  = Raise RecursionError.
Proof. reflexivity. Qed.

(** ** The rules of the walk *)


Lemma mime_is_text_exact (mime : json) :
  mime_is_text mime = true <->
  mime = JStr (lit "text/plain") \/ mime = JStr (lit "text/html").
Proof.
  unfold mime_is_text. rewrite orb_true_iff.
  destruct mime; simpl; try (split; [intros [|]; discriminate | intros [|]; discriminate]).
  rewrite !str_eqb_eq. split; (intros [H|H]; [left | right]); congruence.
Qed.

Lemma py_get_none_truthy_getitem (obj : json) (k : pystr) (v : json) :
  py_get_none obj k = Ok v -> py_truthy v = true -> py_getitem obj k = Ok v.
Proof.
  destruct obj; try discriminate. unfold py_get_none, py_get, py_getitem.
  destruct (dict_lookup k fields); [auto|].
  intros [= <-]; discriminate.
Qed.

Section Rules.

Variable recurse : json -> result pystr.

(** One turn of the loop on a part whose fields can be read. *)
Lemma walk_siblings_step (part : json) (rest : list json)
    (mime data nested : json) :
  part_view part = Ok (mime, data, nested) ->
  walk_siblings recurse (part :: rest) =
  if is_text_part mime data then decode_base64url data
  else if py_truthy nested then
    res <- recurse nested ;;
    if py_truthy (JStr res) then Ok res else walk_siblings recurse rest
  else walk_siblings recurse rest.
Proof.
  unfold part_view, is_text_part. intros H. cbn [walk_siblings].
  destruct (py_get part (lit "mimeType") (JStr [])) as [m|]; [|discriminate].
  destruct (py_get part (lit "body") (JObj [])) as [b|]; [|discriminate].
  cbn [bind] in *.
  destruct (py_get_none b (lit "data")) as [d|]; [|discriminate].
  cbn [bind] in *.
  destruct (py_get_none part (lit "parts")) as [n|] eqn:Hn; [|discriminate].
  cbn [bind] in *. injection H as -> -> ->.
  destruct (mime_is_text mime && py_truthy data); [reflexivity|].
  destruct (py_truthy nested) eqn:Ht; [|reflexivity].
  now rewrite (py_get_none_truthy_getitem _ _ _ Hn Ht).
Qed.


Lemma walk_siblings_pass (part : json) (rest : list json) :
  passed_over recurse part ->
  walk_siblings recurse (part :: rest) = walk_siblings recurse rest.
Proof.
  intros (mime & data & nested & Hv & Hn & Hs).
  rewrite (walk_siblings_step _ _ _ _ _ Hv), Hn.
  destruct (py_truthy nested); [|reflexivity].
  destruct Hs as [Hs|Hs]; [discriminate|]. now rewrite Hs.
Qed.

Lemma walk_siblings_prefix (pre rest : list json) :
  Forall (passed_over recurse) pre ->
  walk_siblings recurse (pre ++ rest) = walk_siblings recurse rest.
Proof.
  induction 1 as [|part pre Hp _ IH]; [reflexivity|].
  cbn [app]. now rewrite walk_siblings_pass.
Qed.

End Rules.

Lemma walk_parts_list (items : list json) :
  walk_parts (JArr items) = walk_siblings walk_parts items.
Proof. now rewrite walk_parts_unfold. Qed.

(** ** The body of [extract_email_fields] *)

Lemma inline_data_getitem (payload data : json) :
  inline_data payload = Ok data -> py_truthy data = true ->
  (b <- py_getitem payload (lit "body") ;; py_getitem b (lit "data")) = Ok data.
Proof.
  unfold inline_data. destruct payload; try discriminate.
  unfold py_get at 1, py_getitem at 1.
  destruct (dict_lookup (lit "body") fields) as [inline|]; cbn [bind].
  - intros H Ht. now apply py_get_none_truthy_getitem.
  - intros [= <-]. discriminate.
Qed.

Lemma extract_email_fields_inline (message payload data : json) :
  py_get message (lit "payload") (JObj []) = Ok payload ->
  inline_data payload = Ok data -> py_truthy data = true ->
  extract_email_fields message =
  ('(sender, subject) <- header_pass payload ;;
   body <- decode_base64url data ;;
   Ok (sender, subject, body)).
Proof.
  intros Hp Hd Ht. pose proof (inline_data_getitem _ _ Hd Ht) as Hg.
  unfold extract_email_fields, header_pass. rewrite Hp. cbn [bind].
  unfold inline_data in Hd.
  destruct (py_get payload (lit "headers") (JArr [])) as [headers|]; [|reflexivity].
  cbn [bind]. destruct (py_iter headers) as [hs|]; [|reflexivity]. cbn [bind].
  destruct (extract_headers hs (JStr []) (JStr [])) as [[sender subject]|];
    [|reflexivity]. cbn [bind].
  destruct (py_get payload (lit "body") (JObj [])) as [inline|]; [|discriminate].
  cbn [bind] in *. rewrite Hd. cbn [bind]. rewrite Ht.
  destruct (py_getitem payload (lit "body")) as [b|]; [|discriminate].
  cbn [bind] in *. now rewrite Hg.
Qed.

Lemma extract_email_fields_multipart (message payload data : json) :
  py_get message (lit "payload") (JObj []) = Ok payload ->
  inline_data payload = Ok data -> py_truthy data = false ->
  extract_email_fields message =
  ('(sender, subject) <- header_pass payload ;;
   parts <- py_get payload (lit "parts") (JArr []) ;;
   body <- walk_parts parts ;;
   Ok (sender, subject, body)).
Proof.
  intros Hp Hd Ht.
  unfold extract_email_fields, header_pass. rewrite Hp. cbn [bind].
  unfold inline_data in Hd.
  destruct (py_get payload (lit "headers") (JArr [])) as [headers|]; [|reflexivity].
  cbn [bind]. destruct (py_iter headers) as [hs|]; [|reflexivity]. cbn [bind].
  destruct (extract_headers hs (JStr []) (JStr [])) as [[sender subject]|];
    [|reflexivity]. cbn [bind].
  destruct (py_get payload (lit "body") (JObj [])) as [inline|]; [|discriminate].
  cbn [bind] in *. rewrite Hd. cbn [bind]. now rewrite Ht.
Qed.

Lemma extract_email_fields_fuel_inline (fuel : nat)
    (message payload data : json) :
  py_get message (lit "payload") (JObj []) = Ok payload ->
  inline_data payload = Ok data -> py_truthy data = true ->
  extract_email_fields_fuel fuel message =
  ('(sender, subject) <- header_pass payload ;;
   body <- decode_base64url data ;;
   Ok (sender, subject, body)).
Proof.
  intros Hp Hd Ht. pose proof (inline_data_getitem _ _ Hd Ht) as Hg.
  unfold extract_email_fields_fuel, header_pass. rewrite Hp. cbn [bind].
  unfold inline_data in Hd.
  destruct (py_get payload (lit "headers") (JArr [])) as [headers|]; [|reflexivity].
  cbn [bind]. destruct (py_iter headers) as [hs|]; [|reflexivity]. cbn [bind].
  destruct (extract_headers hs (JStr []) (JStr [])) as [[sender subject]|];
    [|reflexivity]. cbn [bind].
  destruct (py_get payload (lit "body") (JObj [])) as [inline|]; [|discriminate].
  cbn [bind] in *. rewrite Hd. cbn [bind]. rewrite Ht.
  destruct (py_getitem payload (lit "body")) as [b|]; [|discriminate].
  cbn [bind] in *. now rewrite Hg.
Qed.

Lemma extract_email_fields_fuel_multipart (fuel : nat)
    (message payload data : json) :
  py_get message (lit "payload") (JObj []) = Ok payload ->
  inline_data payload = Ok data -> py_truthy data = false ->
  extract_email_fields_fuel fuel message =
  ('(sender, subject) <- header_pass payload ;;
   parts <- py_get payload (lit "parts") (JArr []) ;;
   body <- walk_parts_fuel fuel parts ;;
   Ok (sender, subject, body)).
Proof.
  intros Hp Hd Ht.
  unfold extract_email_fields_fuel, header_pass. rewrite Hp. cbn [bind].
  unfold inline_data in Hd.
  destruct (py_get payload (lit "headers") (JArr [])) as [headers|]; [|reflexivity].
  cbn [bind]. destruct (py_iter headers) as [hs|]; [|reflexivity]. cbn [bind].
  destruct (extract_headers hs (JStr []) (JStr [])) as [[sender subject]|];
    [|reflexivity]. cbn [bind].
  destruct (py_get payload (lit "body") (JObj [])) as [inline|]; [|discriminate].
  cbn [bind] in *. rewrite Hd. cbn [bind]. now rewrite Ht.
Qed.

(** ** Pre-order search for the first text part *)

Lemma is_text_part_exact (mime data : json) :
  is_text_part mime data = true <->
  (mime = JStr (lit "text/plain") \/ mime = JStr (lit "text/html")) /\
  py_truthy data = true.
Proof.
  unfold is_text_part. now rewrite andb_true_iff, mime_is_text_exact.
Qed.

Lemma walk_parts_no_text (items : list json) :
  no_text items -> walk_parts (JArr items) = Ok [].
Proof.
  induction 1 as [| part rest mime data nested Hv Hn Hf _ IH
                  | part rest mime data items Hv Hn _ IHitems _ IH];
    [reflexivity | |];
    rewrite walk_parts_list, (walk_siblings_step _ _ _ _ _ _ Hv), Hn,
      <- walk_parts_list.
  - now rewrite Hf.
  - rewrite IHitems. cbn [bind py_truthy]. now destruct items.
Qed.

Lemma no_text_passed_over (part : json) :
  no_text [part] -> passed_over walk_parts part.
Proof.
  inversion 1 as [| p r mime data nested Hv Hn Hf _
                  | p r mime data items Hv Hn Hitems _]; subst.
  - exists mime, data, nested. auto.
  - exists mime, data, (JArr items).
    split; [exact Hv | split; [exact Hn | right]].
    now apply walk_parts_no_text.
Qed.

Lemma walk_parts_first_text (items : list json) (data : json) :
  first_text items data ->
  decode_base64url data <> Ok [] ->
  walk_parts (JArr items) = decode_base64url data.
Proof.
  induction 1 as [ part rest mime data nested Hv Ht
                 | part rest mime d items data Hv Hn Hfirst IH
                 | part rest data Hno _ IH ]; intros Hne.
  - now rewrite walk_parts_list, (walk_siblings_step _ _ _ _ _ _ Hv), Ht.
  - rewrite walk_parts_list, (walk_siblings_step _ _ _ _ _ _ Hv), Hn.
    assert (Htruthy : py_truthy (JArr items) = true)
      by (inversion Hfirst; reflexivity).
    rewrite Htruthy, (IH Hne).
    destruct (decode_base64url data) as [[|c res]|e];
      [now elim Hne | reflexivity | reflexivity].
  - rewrite walk_parts_list,
      (walk_siblings_pass _ _ _ (no_text_passed_over _ Hno)),
      <- walk_parts_list.
    now apply IH.
Qed.

(** C1: when the payload has no inline body data, the body is the result of
    walking the parts, under any recursion budget.  The walk scans a list in
    sibling order: after parts it passes over, the first part of type
    text/plain or text/html with data is decoded and returned whatever
    follows it; a part with nested parts is walked first, and a non-empty
    result of that walk is returned whatever follows; a list that is passed
    over entirely yields the empty string.  The two text types are treated
    alike.  Hence, under a budget of nested calls that covers the nesting of
    the list, the walk returns the decoding of the first text part in
    pre-order (when that is not the empty string), and the empty string when
    there is no text part. *)
Theorem walk_parts_first_match (message payload inline : json) :
  py_get message (lit "payload") (JObj []) = Ok payload ->
  inline_data payload = Ok inline ->
  py_truthy inline = false ->
  extract_email_fields message =
    ('(sender, subject) <- header_pass payload ;;
     parts <- py_get payload (lit "parts") (JArr []) ;;
     body <- walk_parts parts ;;
     Ok (sender, subject, body)) /\
  (forall fuel,
     extract_email_fields_fuel fuel message =
       ('(sender, subject) <- header_pass payload ;;
        parts <- py_get payload (lit "parts") (JArr []) ;;
        body <- walk_parts_fuel fuel parts ;;
        Ok (sender, subject, body))) /\
  (forall pre, Forall (passed_over walk_parts) pre ->
     walk_parts (JArr pre) = Ok [] /\
     forall part rest mime data nested,
       part_view part = Ok (mime, data, nested) ->
       (is_text_part mime data = true ->
        walk_parts (JArr (pre ++ part :: rest)) = decode_base64url data) /\
       (is_text_part mime data = false -> py_truthy nested = true ->
        forall res, walk_parts nested = Ok res -> res <> [] ->
        walk_parts (JArr (pre ++ part :: rest)) = Ok res)) /\
  (forall fuel pre, Forall (passed_over (fuel_call fuel)) pre ->
     walk_parts_fuel fuel (JArr pre) = Ok [] /\
     forall part rest mime data nested,
       part_view part = Ok (mime, data, nested) ->
       (is_text_part mime data = true ->
        walk_parts_fuel fuel (JArr (pre ++ part :: rest))
        = decode_base64url data) /\
       (is_text_part mime data = false -> py_truthy nested = true ->
        forall res, fuel_call fuel nested = Ok res -> res <> [] ->
        walk_parts_fuel fuel (JArr (pre ++ part :: rest)) = Ok res)) /\
  (forall mime data,
     is_text_part mime data = true <->
     (mime = JStr (lit "text/plain") \/ mime = JStr (lit "text/html")) /\
     py_truthy data = true) /\
  (forall fuel items data,
     (json_depth (JArr items) <= 2 * fuel + 1)%nat ->
     first_text items data -> decode_base64url data <> Ok [] ->
     walk_parts_fuel fuel (JArr items) = decode_base64url data) /\
  (forall fuel items,
     (json_depth (JArr items) <= 2 * fuel + 1)%nat ->
     no_text items -> walk_parts_fuel fuel (JArr items) = Ok []).
Proof.
  intros Hp Hd Ht. split; [|split; [|split; [|split; [|split; [|split]]]]].
  - now apply extract_email_fields_multipart with (data := inline).
  - intros fuel.
    now apply extract_email_fields_fuel_multipart with (data := inline).
  - intros pre Hpre. split.
    + rewrite walk_parts_list, <- (app_nil_r pre).
      now rewrite walk_siblings_prefix.
    + intros part rest mime data nested Hv.
      rewrite walk_parts_list, (walk_siblings_prefix _ _ _ Hpre).
      rewrite (walk_siblings_step _ _ _ _ _ _ Hv).
      split.
      * now intros ->.
      * intros -> -> res -> Hres. cbn [bind].
        destruct res; [congruence | reflexivity].
  - intros fuel pre Hpre. rewrite walk_parts_fuel_unfold. cbn [py_iter bind].
    split.
    + rewrite <- (app_nil_r pre). now rewrite walk_siblings_prefix.
    + intros part rest mime data nested Hv.
      rewrite walk_parts_fuel_unfold. cbn [py_iter bind].
      rewrite (walk_siblings_prefix _ _ _ Hpre).
      rewrite (walk_siblings_step _ _ _ _ _ _ Hv).
      split.
      * now intros ->.
      * intros -> -> res -> Hres. cbn [bind].
        destruct res; [congruence | reflexivity].
  - exact is_text_part_exact.
  - intros fuel items data Hdepth Hfirst Hne.
    rewrite (walk_parts_fuel_enough _ _ Hdepth).
    now apply walk_parts_first_text.
  - intros fuel items Hdepth Hno.
    rewrite (walk_parts_fuel_enough _ _ Hdepth).
    now apply walk_parts_no_text.
Qed.

Lemma passed_over_multipart_nil (r : json -> result pystr) :
  passed_over r (multipart []).
Proof.
  exists (JStr (lit "multipart/alternative")), JNull, (JArr []).
  split; [reflexivity | split; [reflexivity | now left]].
Qed.

Example first_text_sample :
  first_text [multipart []; multipart [leaf_part "text/html" "PGI+SGk8L2I+"];
              leaf_part "text/plain" "SGk"]
             (JStr (lit "PGI+SGk8L2I+")).
Proof.
  apply first_text_later.
  - eapply no_text_node; [reflexivity | reflexivity | constructor | constructor].
  - eapply first_text_nested; [reflexivity | reflexivity |].
    eapply first_text_here; reflexivity.
Qed.

Lemma walk_parts_first_match_witness :
  let parts := [multipart []; multipart [leaf_part "text/html" "PGI+SGk8L2I+"];
                leaf_part "text/plain" "SGk"] in
  let message := message_of [header "Subject" "Hi"] [] parts in
  let payload := JObj [(lit "headers", JArr [header "Subject" "Hi"]);
                       (lit "body", JObj []); (lit "parts", JArr parts)] in
  py_get message (lit "payload") (JObj []) = Ok payload /\
  inline_data payload = Ok JNull /\
  py_truthy JNull = false /\
  extract_email_fields message = Ok (JStr [], JStr (lit "Hi"), lit "<b>Hi</b>") /\
  extract_email_fields_fuel 1 message
    = Ok (JStr [], JStr (lit "Hi"), lit "<b>Hi</b>") /\
  extract_email_fields_fuel 0 message = Raise RecursionError /\
  walk_parts (JArr ([multipart []] ++ leaf_part "text/plain" "SGk"
                      :: [leaf_part "text/html" "PGI+SGk8L2I+"]))
    = Ok (lit "Hi") /\
  walk_parts (JArr parts) = Ok (lit "<b>Hi</b>") /\
  walk_parts_fuel 1 (JArr ([multipart []] ++ leaf_part "text/plain" "SGk"
                             :: [leaf_part "text/html" "PGI+SGk8L2I+"]))
    = Ok (lit "Hi") /\
  (json_depth (JArr parts) <= 2 * 2 + 1)%nat /\
  walk_parts_fuel 2 (JArr parts) = decode_base64url (JStr (lit "PGI+SGk8L2I+")).
Proof.
  intros parts message payload.
  assert (H1 : py_get message (lit "payload") (JObj []) = Ok payload) by reflexivity.
  assert (H2 : inline_data payload = Ok JNull) by reflexivity.
  assert (H3 : py_truthy JNull = false) by reflexivity.
  assert (H4 : (json_depth (JArr parts) <= 2 * 2 + 1)%nat) by (vm_compute; lia).
  destruct (walk_parts_first_match message payload JNull H1 H2 H3)
    as (He & Hf & Hw & Hwf & _ & Hfirst & _).
  destruct (Hw [multipart []]
              (Forall_cons _ (passed_over_multipart_nil walk_parts) (Forall_nil _)))
    as (_ & Hstep).
  destruct (Hwf 1%nat [multipart []]
              (Forall_cons _ (passed_over_multipart_nil (fuel_call 1))
                 (Forall_nil _)))
    as (_ & Hstepf).
  split; [exact H1|]. split; [exact H2|]. split; [exact H3|].
  split; [rewrite He; reflexivity|].
  split; [rewrite Hf; reflexivity|].
  split; [rewrite Hf; reflexivity|].
  split; [|split; [|split; [|split]]].
  - destruct (Hstep (leaf_part "text/plain" "SGk")
                [leaf_part "text/html" "PGI+SGk8L2I+"]
                (JStr (lit "text/plain")) (JStr (lit "SGk")) JNull eq_refl)
      as (Hm & _).
    rewrite (Hm eq_refl). reflexivity.
  - destruct (Hstep (multipart [leaf_part "text/html" "PGI+SGk8L2I+"])
                [leaf_part "text/plain" "SGk"]
                (JStr (lit "multipart/alternative")) JNull
                (JArr [leaf_part "text/html" "PGI+SGk8L2I+"]) eq_refl)
      as (_ & Hn).
    apply (Hn eq_refl eq_refl (lit "<b>Hi</b>")); [reflexivity | discriminate].
  - destruct (Hstepf (leaf_part "text/plain" "SGk")
                [leaf_part "text/html" "PGI+SGk8L2I+"]
                (JStr (lit "text/plain")) (JStr (lit "SGk")) JNull eq_refl)
      as (Hm & _).
    rewrite (Hm eq_refl). reflexivity.
  - exact H4.
  - apply Hfirst; [exact H4 | exact first_text_sample | discriminate].
Defined.

(** C10: a text part whose data decodes to the empty string ends the walk of
    its own list with the empty string, whatever follows it in that list;
    nested parts whose walk yields the empty string do not end the walk of
    the enclosing list, which goes on with the next sibling. *)
Theorem empty_text_stops_own_level (pre rest : list json)
    (part mime data nested : json) :
  Forall (passed_over walk_parts) pre ->
  part_view part = Ok (mime, data, nested) ->
  (is_text_part mime data = true -> decode_base64url data = Ok [] ->
   walk_parts (JArr (pre ++ part :: rest)) = Ok []) /\
  (is_text_part mime data = false -> py_truthy nested = true ->
   walk_parts nested = Ok [] ->
   walk_parts (JArr (pre ++ part :: rest)) = walk_parts (JArr rest)).
Proof.
  intros Hpre Hv.
  rewrite !walk_parts_list, (walk_siblings_prefix _ _ _ Hpre).
  rewrite (walk_siblings_step _ _ _ _ _ _ Hv).
  split.
  - now intros -> ->.
  - now intros -> -> ->.
Qed.

Lemma empty_text_stops_own_level_witness :
  let blank := leaf_part "text/plain" "====" in
  let hi := leaf_part "text/plain" "SGk" in
  let hello := leaf_part "text/plain" "SGVsbG8" in
  walk_parts (JArr [hi]) = Ok (lit "Hi") /\
  walk_parts (JArr ([multipart []] ++ blank :: [hi])) = Ok [] /\
  walk_parts (JArr ([] ++ multipart [blank; hello] :: [hi])) = Ok (lit "Hi").
Proof.
  intros blank hi hello. split; [reflexivity|]. split.
  - apply (proj1 (empty_text_stops_own_level [multipart []] [hi] blank
                    (JStr (lit "text/plain")) (JStr (lit "====")) JNull
                    (Forall_cons _ (passed_over_multipart_nil walk_parts)
                       (Forall_nil _))
                    eq_refl)); reflexivity.
  - rewrite (proj2 (empty_text_stops_own_level [] [hi] (multipart [blank; hello])
                      (JStr (lit "multipart/alternative")) JNull
                      (JArr [blank; hello]) (Forall_nil _) eq_refl)
               eq_refl eq_refl eq_refl).
    reflexivity.
Defined.

(** ** Fields that are not read *)

Lemma dict_lookup_set_same (k : pystr) (v : json) (fields : list (pystr * json)) :
  dict_lookup k (dict_set k v fields) = Some v.
Proof.
  induction fields as [|[k' w] fields IH]; simpl.
  - now rewrite str_eqb_refl.
  - destruct (str_eqb k k') eqn:E; simpl.
    + now rewrite str_eqb_refl.
    + now rewrite E.
Qed.

Lemma dict_lookup_set_other (k k' : pystr) (v : json)
    (fields : list (pystr * json)) :
  str_eqb k k' = false ->
  dict_lookup k (dict_set k' v fields) = dict_lookup k fields.
Proof.
  intros Hk. induction fields as [|[k0 w] fields IH]; simpl.
  - now rewrite Hk.
  - destruct (str_eqb k' k0) eqn:E; simpl.
    + apply str_eqb_eq in E as <-. now rewrite Hk.
    + now rewrite IH.
Qed.

Lemma py_get_with_field_same (k : pystr) (v d : json) (fields : list (pystr * json)) :
  py_get (with_field k v (JObj fields)) k d = Ok v.
Proof. simpl. now rewrite dict_lookup_set_same. Qed.

Lemma py_get_with_field_other (k k' : pystr) (v d obj : json) :
  str_eqb k k' = false ->
  py_get (with_field k' v obj) k d = py_get obj k d.
Proof.
  intros Hk. destruct obj; try reflexivity. simpl.
  now rewrite dict_lookup_set_other.
Qed.

Lemma header_pass_with_field (k : pystr) (v payload : json) :
  str_eqb (lit "headers") k = false ->
  header_pass (with_field k v payload) = header_pass payload.
Proof. intros Hk. unfold header_pass. now rewrite py_get_with_field_other. Qed.

Lemma inline_data_with_field (k : pystr) (v payload : json) :
  str_eqb (lit "body") k = false ->
  inline_data (with_field k v payload) = inline_data payload.
Proof. intros Hk. unfold inline_data. now rewrite py_get_with_field_other. Qed.

Lemma py_get_payload_with_payload_field (k : pystr) (v message payload : json) :
  py_get message (lit "payload") (JObj []) = Ok payload ->
  py_get (with_payload_field k v message) (lit "payload") (JObj [])
  = Ok (with_field k v payload).
Proof.
  intros Hp. unfold with_payload_field. rewrite Hp.
  destruct message; try discriminate. apply py_get_with_field_same.
Qed.

(** C2: when the payload carries inline body data, the body is that data
    decoded, and the result does not depend on the parts: replacing them by
    any value whatever leaves the result unchanged. *)
Theorem inline_body_first (message payload data : json) :
  py_get message (lit "payload") (JObj []) = Ok payload ->
  inline_data payload = Ok data ->
  py_truthy data = true ->
  extract_email_fields message =
    ('(sender, subject) <- header_pass payload ;;
     body <- decode_base64url data ;;
     Ok (sender, subject, body)) /\
  (forall parts,
     extract_email_fields (with_payload_field (lit "parts") parts message)
     = extract_email_fields message).
Proof.
  intros Hp Hd Ht. split.
  - now apply extract_email_fields_inline.
  - intros parts.
    rewrite (extract_email_fields_inline message payload data Hp Hd Ht).
    rewrite (extract_email_fields_inline _ (with_field (lit "parts") parts payload)
               data).
    + now rewrite header_pass_with_field.
    + now apply py_get_payload_with_payload_field.
    + now rewrite inline_data_with_field.
    + exact Ht.
Qed.

Lemma inline_body_first_witness :
  let message :=
    message_of [header "Subject" "Hi"; header "from" "a@b.com"]
               [(lit "data", JStr (lit "SGVsbG8"))]
               [leaf_part "text/plain" "SGk"] in
  extract_email_fields message
    = Ok (JStr (lit "a@b.com"), JStr (lit "Hi"), lit "Hello") /\
  extract_email_fields (with_payload_field (lit "parts") (JInt 7) message)
    = Ok (JStr (lit "a@b.com"), JStr (lit "Hi"), lit "Hello").
Proof.
  intros message.
  destruct (inline_body_first message
              (JObj [(lit "headers", JArr [header "Subject" "Hi"; header "from" "a@b.com"]);
                     (lit "body", JObj [(lit "data", JStr (lit "SGVsbG8"))]);
                     (lit "parts", JArr [leaf_part "text/plain" "SGk"])])
              (JStr (lit "SGVsbG8")) eq_refl eq_refl eq_refl) as (He & Hparts).
  split.
  - rewrite He. reflexivity.
  - rewrite Hparts, He. reflexivity.
Defined.

(** ** Missing collections *)

Lemma py_getitem_with_field_other (k k' : pystr) (v obj : json) :
  str_eqb k k' = false ->
  py_getitem (with_field k' v obj) k = py_getitem obj k.
Proof.
  intros Hk. destruct obj; try reflexivity. simpl.
  now rewrite dict_lookup_set_other.
Qed.

(** [extract_email_fields] reads the message only through its payload, and
    the payload only through its headers, its body and its parts. *)
Lemma extract_email_fields_ext (m1 m2 p1 p2 : json) :
  py_get m1 (lit "payload") (JObj []) = Ok p1 ->
  py_get m2 (lit "payload") (JObj []) = Ok p2 ->
  py_get p1 (lit "headers") (JArr []) = py_get p2 (lit "headers") (JArr []) ->
  py_get p1 (lit "body") (JObj []) = py_get p2 (lit "body") (JObj []) ->
  py_getitem p1 (lit "body") = py_getitem p2 (lit "body") ->
  (parts <- py_get p1 (lit "parts") (JArr []) ;; walk_parts parts)
  = (parts <- py_get p2 (lit "parts") (JArr []) ;; walk_parts parts) ->
  extract_email_fields m1 = extract_email_fields m2.
Proof.
  intros H1 H2 Hh Hb Hi Hw. unfold extract_email_fields.
  rewrite H1, H2. cbn [bind]. rewrite Hh, Hb, Hi.
  destruct (py_get p2 (lit "headers") (JArr [])) as [headers|]; [|reflexivity].
  cbn [bind]. destruct (py_iter headers) as [hs|]; [|reflexivity]. cbn [bind].
  destruct (extract_headers hs (JStr []) (JStr [])) as [[sender subject]|];
    [|reflexivity]. cbn [bind].
  destruct (py_get p2 (lit "body") (JObj [])) as [inline|]; [|reflexivity].
  cbn [bind]. destruct (py_get_none inline (lit "data")) as [data|]; [|reflexivity].
  cbn [bind]. destruct (py_truthy data); [reflexivity|].
  destruct (py_get p1 (lit "parts") (JArr [])) as [q1|e1],
           (py_get p2 (lit "parts") (JArr [])) as [q2|e2];
    cbn [bind] in Hw |- *.
  - now rewrite Hw.
  - now rewrite Hw.
  - now rewrite <- Hw.
  - now injection Hw as ->.
Qed.

(** Writing out the default of a missing field does not change what
    [get] returns. *)
Lemma py_get_with_field_default (k : pystr) (fields : list (pystr * json)) :
  dict_lookup k fields = None ->
  forall d, py_get (with_field k d (JObj fields)) k d = py_get (JObj fields) k d.
Proof.
  intros Hk d. rewrite py_get_with_field_same. simpl. now rewrite Hk.
Qed.

Lemma extract_missing_headers (message : json) (fields : list (pystr * json)) :
  py_get message (lit "payload") (JObj []) = Ok (JObj fields) ->
  dict_lookup (lit "headers") fields = None ->
  extract_email_fields (with_payload_field (lit "headers") (JArr []) message)
  = extract_email_fields message.
Proof.
  intros Hp Hk.
  apply extract_email_fields_ext
    with (p1 := with_field (lit "headers") (JArr []) (JObj fields))
         (p2 := JObj fields).
  - now apply py_get_payload_with_payload_field.
  - exact Hp.
  - now apply py_get_with_field_default.
  - now apply py_get_with_field_other.
  - now apply py_getitem_with_field_other.
  - now rewrite py_get_with_field_other.
Qed.

Lemma extract_missing_parts (message : json) (fields : list (pystr * json)) :
  py_get message (lit "payload") (JObj []) = Ok (JObj fields) ->
  dict_lookup (lit "parts") fields = None ->
  extract_email_fields (with_payload_field (lit "parts") (JArr []) message)
  = extract_email_fields message.
Proof.
  intros Hp Hk.
  apply extract_email_fields_ext
    with (p1 := with_field (lit "parts") (JArr []) (JObj fields))
         (p2 := JObj fields).
  - now apply py_get_payload_with_payload_field.
  - exact Hp.
  - now apply py_get_with_field_other.
  - now apply py_get_with_field_other.
  - now apply py_getitem_with_field_other.
  - now rewrite py_get_with_field_default.
Qed.

Lemma extract_nothing (message payload data : json) :
  py_get message (lit "payload") (JObj []) = Ok payload ->
  py_get payload (lit "headers") (JArr []) = Ok (JArr []) ->
  py_get payload (lit "parts") (JArr []) = Ok (JArr []) ->
  inline_data payload = Ok data ->
  py_truthy data = false ->
  extract_email_fields message = Ok (JStr [], JStr [], []).
Proof.
  intros Hp Hh Hq Hd Ht.
  rewrite (extract_email_fields_multipart _ _ _ Hp Hd Ht).
  unfold header_pass. now rewrite Hh, Hq.
Qed.

Lemma extract_missing_payload (fields : list (pystr * json)) :
  dict_lookup (lit "payload") fields = None ->
  extract_email_fields (JObj fields) = Ok (JStr [], JStr [], []).
Proof.
  intros Hk. apply extract_nothing with (payload := JObj []) (data := JNull);
    try reflexivity.
  simpl. now rewrite Hk.
Qed.

(** Filling in the missing [parts] lists, level by level. *)

Lemma fill_parts_list (items : list json) :
  fill_parts (JArr items) = JArr (map fill_part items).
Proof. reflexivity. Qed.

Lemma py_truthy_fill_parts (v : json) : py_truthy (fill_parts v) = py_truthy v.
Proof. destruct v; try reflexivity. now destruct items. Qed.

Lemma dict_lookup_fill_fields (k : pystr) (fields : list (pystr * json)) :
  dict_lookup k (fill_fields fields) =
  option_map (fun w => if str_eqb (lit "parts") k then fill_parts w else w)
             (dict_lookup k fields).
Proof.
  induction fields as [|[k' w] fields IH]; [reflexivity|].
  cbn [fill_fields map dict_lookup]. fold (fill_fields fields).
  destruct (str_eqb k k') eqn:E; [|exact IH].
  apply str_eqb_eq in E as <-. reflexivity.
Qed.

Lemma dict_lookup_ensure_other (k : pystr) (fields : list (pystr * json)) :
  str_eqb k (lit "parts") = false ->
  dict_lookup k (ensure_parts fields) = dict_lookup k fields.
Proof.
  intros Hk. unfold ensure_parts.
  destruct (dict_lookup (lit "parts") fields); [reflexivity|].
  now apply dict_lookup_set_other.
Qed.

Lemma dict_lookup_ensure_parts (fields : list (pystr * json)) :
  dict_lookup (lit "parts") (ensure_parts fields) =
  Some (match dict_lookup (lit "parts") fields with
        | Some w => w
        | None => JArr []
        end).
Proof.
  unfold ensure_parts.
  destruct (dict_lookup (lit "parts") fields) eqn:E; [exact E|].
  apply dict_lookup_set_same.
Qed.

Lemma str_eqb_sym (s t : pystr) : str_eqb s t = str_eqb t s.
Proof.
  destruct (str_eqb t s) eqn:E.
  - apply str_eqb_eq in E as ->. apply str_eqb_refl.
  - apply str_eqb_neq. apply str_eqb_neq in E. congruence.
Qed.

Lemma py_get_fill_part_other (part : json) (k : pystr) (d : json) :
  str_eqb k (lit "parts") = false ->
  py_get (fill_part part) k d = py_get part k d.
Proof.
  intros Hk. destruct part; try reflexivity. cbn [fill_part py_get].
  rewrite dict_lookup_ensure_other, dict_lookup_fill_fields by exact Hk.
  rewrite str_eqb_sym, Hk. now destruct (dict_lookup k fields).
Qed.

Lemma walk_siblings_fill (r : json -> result pystr) (items : list json) :
  (forall part sub, In part items ->
     py_getitem part (lit "parts") = Ok sub -> r (fill_parts sub) = r sub) ->
  walk_siblings r (map fill_part items) = walk_siblings r items.
Proof.
  induction items as [|part rest IH]; intros H; [reflexivity|].
  assert (IH' : walk_siblings r (map fill_part rest) = walk_siblings r rest)
    by (apply IH; intros p s Hp; apply H; now right).
  cbn [map walk_siblings].
  rewrite !py_get_fill_part_other by reflexivity.
  destruct (py_get part (lit "mimeType") (JStr [])) as [mime|]; [|reflexivity].
  cbn [bind].
  destruct (py_get part (lit "body") (JObj [])) as [body|]; [|reflexivity].
  cbn [bind].
  destruct (py_get_none body (lit "data")) as [data|]; [|reflexivity].
  cbn [bind].
  destruct (mime_is_text mime && py_truthy data); [reflexivity|].
  destruct part; try reflexivity.
  unfold py_get_none. cbn [fill_part py_get py_getitem].
  rewrite dict_lookup_ensure_parts, dict_lookup_fill_fields.
  destruct (dict_lookup (lit "parts") fields) as [w|] eqn:Hw;
    cbn [option_map bind]; [|exact IH'].
  rewrite str_eqb_refl, py_truthy_fill_parts.
  destruct (py_truthy w); [|exact IH'].
  rewrite (H (JObj fields) w); [now rewrite IH'| now left |].
  cbn [py_getitem]. now rewrite Hw.
Qed.

Lemma walk_parts_fill_parts (parts : json) :
  walk_parts (fill_parts parts) = walk_parts parts.
Proof.
  remember (json_depth parts) as n eqn:Hn.
  assert (Hd : (json_depth parts <= n)%nat) by lia. clear Hn.
  revert parts Hd. induction n as [|n IH]; intros parts Hd;
    destruct parts; try reflexivity;
    rewrite fill_parts_list, !walk_parts_list;
    apply walk_siblings_fill; intros part sub Hin Hsub;
    pose proof (nested_parts_depth (JArr items) items part sub eq_refl Hin Hsub);
    [lia|].
  apply IH. lia.
Qed.

(** C6: a missing payload, a missing headers list and a missing parts list
    (in the payload or in any part, at any level) are read as empty
    collections: the result is the one obtained with the empty collection
    written out, and a message without headers, parts and inline body data
    yields three empty strings. *)
Theorem missing_collections_are_empty :
  (forall fields,
     dict_lookup (lit "payload") fields = None ->
     extract_email_fields (JObj fields) = Ok (JStr [], JStr [], [])) /\
  (forall message fields,
     py_get message (lit "payload") (JObj []) = Ok (JObj fields) ->
     dict_lookup (lit "headers") fields = None ->
     extract_email_fields (with_payload_field (lit "headers") (JArr []) message)
     = extract_email_fields message) /\
  (forall message fields,
     py_get message (lit "payload") (JObj []) = Ok (JObj fields) ->
     dict_lookup (lit "parts") fields = None ->
     extract_email_fields (with_payload_field (lit "parts") (JArr []) message)
     = extract_email_fields message) /\
  (forall parts, walk_parts (fill_parts parts) = walk_parts parts) /\
  (forall message payload data,
     py_get message (lit "payload") (JObj []) = Ok payload ->
     py_get payload (lit "headers") (JArr []) = Ok (JArr []) ->
     py_get payload (lit "parts") (JArr []) = Ok (JArr []) ->
     inline_data payload = Ok data ->
     py_truthy data = false ->
     extract_email_fields message = Ok (JStr [], JStr [], [])).
Proof.
  split; [exact extract_missing_payload|].
  split; [exact extract_missing_headers|].
  split; [exact extract_missing_parts|].
  split; [exact walk_parts_fill_parts | exact extract_nothing].
Qed.

Lemma missing_collections_are_empty_witness :
  let bare := JObj [(lit "mimeType", JStr (lit "multipart/mixed"))] in
  let html := leaf_part "text/html" "PGI+SGk8L2I+" in
  let nested := JObj [(lit "parts", JArr [bare; html])] in
  let message := JObj [(lit "payload", JObj [(lit "parts", JArr [nested])])] in
  extract_email_fields (JObj [(lit "id", JStr (lit "19b3518298d6bf5e"))])
    = Ok (JStr [], JStr [], []) /\
  extract_email_fields (with_payload_field (lit "headers") (JArr []) message)
    = extract_email_fields message /\
  extract_email_fields message = Ok (JStr [], JStr [], lit "<b>Hi</b>") /\
  extract_email_fields
    (with_payload_field (lit "parts") (JArr [])
       (JObj [(lit "payload", JObj [(lit "headers", JArr [])])]))
    = Ok (JStr [], JStr [], []) /\
  fill_parts (JArr [nested])
    = JArr [JObj [(lit "parts",
                   JArr [JObj [(lit "mimeType", JStr (lit "multipart/mixed"));
                               (lit "parts", JArr [])];
                         JObj [(lit "mimeType", JStr (lit "text/html"));
                               (lit "body",
                                JObj [(lit "data", JStr (lit "PGI+SGk8L2I+"))]);
                               (lit "parts", JArr [])]])]] /\
  walk_parts (fill_parts (JArr [nested])) = Ok (lit "<b>Hi</b>") /\
  extract_email_fields (message_of [] [] []) = Ok (JStr [], JStr [], []).
Proof.
  intros bare html nested message.
  destruct missing_collections_are_empty as (Hpay & Hhdr & Hparts & Hfill & Hnone).
  split; [apply Hpay; reflexivity|].
  split; [apply (Hhdr message [(lit "parts", JArr [nested])]); reflexivity|].
  split; [reflexivity|].
  split; [rewrite (Hparts _ [(lit "headers", JArr [])]); reflexivity|].
  split; [reflexivity|].
  split; [rewrite Hfill; reflexivity|].
  apply (Hnone _ (JObj [(lit "headers", JArr []); (lit "body", JObj []);
                        (lit "parts", JArr [])]) JNull); reflexivity.
Defined.

(** ** The header pass *)

Lemma extract_email_fields_blocks (message : json) :
  extract_email_fields message =
  (payload <- py_get message (lit "payload") (JObj []) ;;
   '(sender, subject) <- header_pass payload ;;
   body <- extract_body payload ;;
   Ok (sender, subject, body)).
Proof.
  destruct (py_get message (lit "payload") (JObj [])) as [payload|e] eqn:Hp;
    [|unfold extract_email_fields; now rewrite Hp].
  cbn [bind]. unfold extract_body.
  destruct (inline_data payload) as [data|e] eqn:Hd.
  - cbn [bind]. destruct (py_truthy data) eqn:Ht.
    + now apply extract_email_fields_inline.
    + rewrite (extract_email_fields_multipart _ _ _ Hp Hd Ht).
      destruct (header_pass payload) as [[sender subject]|]; [|reflexivity].
      cbn [bind]. now destruct (py_get payload (lit "parts") (JArr [])).
  - unfold extract_email_fields, header_pass. rewrite Hp. cbn [bind].
    unfold inline_data in Hd.
    destruct (py_get payload (lit "headers") (JArr [])) as [headers|]; [|reflexivity].
    cbn [bind]. destruct (py_iter headers) as [hs|]; [|reflexivity]. cbn [bind].
    destruct (extract_headers hs (JStr []) (JStr [])) as [[sender subject]|];
      [|reflexivity]. cbn [bind].
    destruct (py_get payload (lit "body") (JObj [])) as [inline|];
      cbn [bind] in *; [|now injection Hd as ->].
    now rewrite Hd.
Qed.

Lemma find_snoc {A : Type} (f : A -> bool) (l : list A) (x : A) :
  find f (l ++ [x]) =
  match find f l with
  | Some y => Some y
  | None => if f x then Some x else None
  end.
Proof.
  induction l as [|y l IH]; simpl; [reflexivity|].
  now destruct (f y).
Qed.

Lemma last_header_or_nil (key : pystr) (d : json) : last_header_or key [] d = d.
Proof. reflexivity. Qed.

Lemma last_header_or_cons (key : pystr) (h : json) (hs : list json) (d : json) :
  last_header_or key (h :: hs) d =
  last_header_or key hs (if header_named key h then header_value h else d).
Proof.
  unfold last_header_or. cbn [rev]. rewrite find_snoc.
  destruct (find (header_named key) (rev hs)); [reflexivity|].
  now destruct (header_named key h).
Qed.

Lemma last_header_or_skip (key : pystr) (pre post : list json) (h d : json) :
  header_named key h = false ->
  last_header_or key (pre ++ h :: post) d = last_header_or key (pre ++ post) d.
Proof.
  intros Hh. revert d. induction pre as [|p pre IH]; intros d; cbn [app].
  - now rewrite last_header_or_cons, Hh.
  - now rewrite !last_header_or_cons, IH.
Qed.

Lemma extract_headers_last (hs : list json) :
  Forall well_formed_header hs ->
  forall sender subject,
    extract_headers hs sender subject =
    Ok (last_header_or (lit "from") hs sender,
        last_header_or (lit "subject") hs subject).
Proof.
  induction 1 as [|h hs [n Hn] _ IH]; intros sender subject; [reflexivity|].
  rewrite !last_header_or_cons. cbn [extract_headers].
  unfold header_named, header_value. rewrite Hn. cbn [bind py_lower].
  destruct h; try discriminate.
  assert (Hv : forall d, exists v, py_get (JObj fields) (lit "value") d = Ok v)
    by (intros d; simpl; destruct (dict_lookup (lit "value") fields); eauto).
  destruct (Hv (JStr [])) as [v ->]. cbn [bind].
  destruct (str_eqb (str_lower n) (lit "subject")) eqn:Es.
  - apply str_eqb_eq in Es. rewrite Es.
    change (str_eqb (lit "subject") (lit "from")) with false. apply IH.
  - destruct (str_eqb (str_lower n) (lit "from")); apply IH.
Qed.

(** C5: the header list is read once, in order; a header counts as subject or
    from when its lower-cased name is ["subject"] or ["from"]; the value of
    the last such header is the output, headers with other names change
    nothing, and an output with no header is the empty string. *)
Theorem headers_last_wins (message payload headers : json) (hs : list json) :
  py_get message (lit "payload") (JObj []) = Ok payload ->
  py_get payload (lit "headers") (JArr []) = Ok headers ->
  py_iter headers = Ok hs ->
  Forall well_formed_header hs ->
  extract_headers hs (JStr []) (JStr []) =
    Ok (last_header (lit "from") hs, last_header (lit "subject") hs) /\
  extract_email_fields message =
    (body <- extract_body payload ;;
     Ok (last_header (lit "from") hs, last_header (lit "subject") hs, body)) /\
  (forall pre h post,
     hs = pre ++ h :: post ->
     header_named (lit "subject") h = false ->
     header_named (lit "from") h = false ->
     extract_headers hs (JStr []) (JStr []) =
     extract_headers (pre ++ post) (JStr []) (JStr [])) /\
  (forall key, find (header_named key) hs = None ->
     last_header key hs = JStr []).
Proof.
  intros Hp Hh Hit Hwf.
  pose proof (extract_headers_last hs Hwf (JStr []) (JStr [])) as Hl.
  split; [exact Hl|]. split; [|split].
  - rewrite extract_email_fields_blocks, Hp. cbn [bind].
    unfold header_pass. rewrite Hh. cbn [bind]. rewrite Hit. cbn [bind].
    now rewrite Hl.
  - intros pre h post -> Hs Hf. rewrite Hl.
    rewrite extract_headers_last.
    + unfold last_header. now rewrite !last_header_or_skip.
    + apply Forall_app in Hwf as [Hpre Hpost].
      apply Forall_app. split; [exact Hpre | now inversion Hpost].
  - intros key Hnone. unfold last_header, last_header_or.
    destruct (find (header_named key) (rev hs)) as [h|] eqn:E; [|reflexivity].
    apply find_some in E as [Hin Hk]. apply in_rev in Hin.
    now rewrite (find_none _ _ Hnone h Hin) in Hk.
Qed.

Lemma headers_last_wins_witness :
  let hs := [header "Subject" "first"; header "FROM" "a@b.com";
             header "X-Mailer" "m"; header "SUBJECT" "last"] in
  let message := message_of hs [] [] in
  extract_headers hs (JStr []) (JStr [])
    = Ok (JStr (lit "a@b.com"), JStr (lit "last")) /\
  extract_email_fields message
    = Ok (JStr (lit "a@b.com"), JStr (lit "last"), []) /\
  extract_headers hs (JStr []) (JStr [])
    = extract_headers ([header "Subject" "first"; header "FROM" "a@b.com"]
                         ++ [header "SUBJECT" "last"]) (JStr []) (JStr []) /\
  last_header (lit "to") hs = JStr [].
Proof.
  intros hs message.
  assert (Hwf : Forall well_formed_header hs).
  { repeat constructor;
      [exists (lit "Subject") | exists (lit "FROM")
       | exists (lit "X-Mailer") | exists (lit "SUBJECT")]; reflexivity. }
  destruct (headers_last_wins message
              (JObj [(lit "headers", JArr hs); (lit "body", JObj []);
                     (lit "parts", JArr [])])
              (JArr hs) hs eq_refl eq_refl eq_refl Hwf)
    as (Hl & He & Hskip & Hnone).
  split; [rewrite Hl; reflexivity|].
  split; [rewrite He; reflexivity|].
  split; [apply (Hskip _ (header "X-Mailer" "m")); reflexivity|].
  apply Hnone. reflexivity.
Defined.

(** ** Padding *)

Lemma str_repeat_pad (k : Z) : str_repeat (lit "=") k = repeat 61 (Z.to_nat k).
Proof.
  unfold str_repeat. change (lit "=") with [61].
  induction (Z.to_nat k) as [|n IH]; simpl; [reflexivity | now rewrite IH].
Qed.

Lemma py_truthy_str (data : pystr) : data <> [] -> py_truthy (JStr data) = true.
Proof. destruct data; [congruence | reflexivity]. Qed.

Lemma decode_base64url_padded (data : pystr) :
  data <> [] ->
  decode_base64url (JStr data) =
  (raw <- urlsafe_b64decode (JStr (padded data)) ;; Ok (utf8_decode_ignore raw)).
Proof.
  intros Hne. unfold decode_base64url, padded.
  rewrite (py_truthy_str _ Hne). cbn [negb py_len bind].
  set (n := Z.of_nat (List.length data)).
  destruct (n mod 4 =? 0) eqn:E; cbn [negb py_iadd_str bind].
  - apply Z.eqb_eq in E. rewrite E. cbn [repeat Z.to_nat]. now rewrite app_nil_r.
  - apply Z.eqb_neq in E. rewrite str_repeat_pad.
    replace ((4 - n mod 4) mod 4) with (4 - n mod 4); [reflexivity|].
    pose proof (Z.mod_pos_bound n 4 ltac:(lia)).
    symmetry. apply Z.mod_small. lia.
Qed.

(** C4: before base64 decoding, a non-empty string is extended by
    [(4 - len(data) % 4) % 4] characters [=]: none when the length is a
    multiple of 4, two when the remainder is 2, one when it is 3. *)
Theorem decode_appends_padding (data : pystr) :
  data <> [] ->
  decode_base64url (JStr data) =
    (raw <- urlsafe_b64decode (JStr (padded data)) ;;
     Ok (utf8_decode_ignore raw)) /\
  (Z.of_nat (List.length data) mod 4 = 0 -> padded data = data) /\
  (Z.of_nat (List.length data) mod 4 = 2 -> padded data = data ++ lit "==") /\
  (Z.of_nat (List.length data) mod 4 = 3 -> padded data = data ++ lit "=").
Proof.
  intros Hne. split; [now apply decode_base64url_padded|].
  unfold padded. repeat split; intros ->; [apply app_nil_r | reflexivity ..].
Qed.

Lemma decode_appends_padding_witness :
  decode_base64url (JStr (lit "SGVsbG8")) =
    (raw <- urlsafe_b64decode (JStr (lit "SGVsbG8=")) ;;
     Ok (utf8_decode_ignore raw)) /\
  decode_base64url (JStr (lit "SGk")) =
    (raw <- urlsafe_b64decode (JStr (lit "SGk=")) ;;
     Ok (utf8_decode_ignore raw)) /\
  padded (lit "_w") = lit "_w==" /\
  padded (lit "PGI+SGk8L2I+") = lit "PGI+SGk8L2I+".
Proof.
  split; [|split; [|split]].
  - destruct (decode_appends_padding (lit "SGVsbG8")) as (H & _ & _ & H3);
      [discriminate|].
    rewrite H, H3; reflexivity.
  - destruct (decode_appends_padding (lit "SGk")) as (H & _ & _ & H3);
      [discriminate|].
    rewrite H, H3; reflexivity.
  - destruct (decode_appends_padding (lit "_w")) as (_ & _ & H2 & _);
      [discriminate|].
    rewrite H2; reflexivity.
  - destruct (decode_appends_padding (lit "PGI+SGk8L2I+")) as (_ & H0 & _);
      [discriminate|].
    rewrite H0; reflexivity.
Defined.

(** ** The base64 decoder on alphabet characters *)

(** Checking a property of the numbers below [n] by running it. *)
Lemma forallb_below (P : Z -> bool) (n : nat) :
  forallb P (map Z.of_nat (seq 0 n)) = true ->
  forall v, 0 <= v < Z.of_nat n -> P v = true.
Proof.
  intros H v Hv. rewrite forallb_forall in H. apply H.
  rewrite <- (Z2Nat.id v) by lia. apply in_map, in_seq. lia.
Qed.

Lemma forallb_below2 (P : Z -> Z -> bool) (n m : nat) :
  forallb (fun v => forallb (P v) (map Z.of_nat (seq 0 m)))
          (map Z.of_nat (seq 0 n)) = true ->
  forall v w, 0 <= v < Z.of_nat n -> 0 <= w < Z.of_nat m -> P v w = true.
Proof.
  intros H v w Hv Hw.
  apply (forallb_below (P v) m); [|exact Hw].
  now apply (forallb_below _ n H).
Qed.

Lemma b64url_alphabet_ascii (c : Z) :
  b64url_alphabet c = true -> 0 <= c < 128.
Proof.
  unfold b64url_alphabet.
  rewrite !orb_true_iff, !andb_true_iff, !Z.leb_le, !Z.eqb_eq. lia.
Qed.

(** An alphabet character is a data character of the decoder. *)
Lemma b64url_alphabet_value (c : Z) :
  b64url_alphabet c = true ->
  (urlsafe_translate c =? BASE64_PAD) = false /\
  (64 <=? table_a2b_base64 (urlsafe_translate c)) = false.
Proof.
  intros Hc. pose proof (b64url_alphabet_ascii c Hc) as Hr.
  pose proof (forallb_below
    (fun c => implb (b64url_alphabet c)
                (negb (urlsafe_translate c =? BASE64_PAD)
                 && negb (64 <=? table_a2b_base64 (urlsafe_translate c))))
    128 eq_refl c Hr) as H.
  cbv beta in H. rewrite Hc in H. cbn [implb] in H.
  apply andb_true_iff in H as [H1 H2].
  now rewrite negb_true_iff in H1, H2.
Qed.

(** The characters the encoder writes decode to the value they stand for. *)
Lemma b64url_char_value (v : Z) :
  0 <= v < 64 ->
  b64url_alphabet (b64url_char v) = true /\
  table_a2b_base64 (urlsafe_translate (b64url_char v)) = v.
Proof.
  intros Hv.
  pose proof (forallb_below
    (fun v => b64url_alphabet (b64url_char v)
              && (table_a2b_base64 (urlsafe_translate (b64url_char v)) =? v))
    64 eq_refl v Hv) as H.
  cbv beta in H. apply andb_true_iff in H as [H1 H2].
  now apply Z.eqb_eq in H2.
Qed.

(** One turn of the decoder loop on a data character. *)
Lemma a2b_loop_data (c : Z) (rest : pybytes) (q l p : Z) (out : pybytes) :
  (c =? BASE64_PAD) = false ->
  (64 <=? table_a2b_base64 c) = false ->
  a2b_loop (c :: rest) q l p out =
  let v := table_a2b_base64 c in
  if q =? 0 then a2b_loop rest 1 v 0 out
  else if q =? 1 then
    a2b_loop rest 2 (Z.land v 15) 0
      (out ++ [Z.land (Z.lor (Z.shiftl l 2) (Z.shiftr v 4)) 255])
  else if q =? 2 then
    a2b_loop rest 3 (Z.land v 3) 0
      (out ++ [Z.land (Z.lor (Z.shiftl l 4) (Z.shiftr v 2)) 255])
  else
    a2b_loop rest 0 0 0 (out ++ [Z.land (Z.lor (Z.shiftl l 6) v) 255]).
Proof. intros H1 H2. cbn [a2b_loop]. now rewrite H1, H2. Qed.

(** One turn of the decoder loop on a character that is skipped. *)
Lemma a2b_loop_skip (c : Z) (rest : pybytes) (q l p : Z) (out : pybytes) :
  (c =? BASE64_PAD) = false ->
  (64 <=? table_a2b_base64 c) = true ->
  a2b_loop (c :: rest) q l p out = a2b_loop rest q l p out.
Proof. intros H1 H2. cbn [a2b_loop]. now rewrite H1, H2. Qed.

(** After a run of alphabet characters the decoder stands at the position
    given by their number, outside any pad sequence. *)
Lemma a2b_loop_alphabet (data : pystr) :
  Forall (fun c => b64url_alphabet c = true) data ->
  forall (tail : pybytes) (q l : Z) (out : pybytes),
    0 <= q < 4 ->
    exists l' out',
      a2b_loop (map urlsafe_translate data ++ tail) q l 0 out =
      a2b_loop tail ((q + Z.of_nat (List.length data)) mod 4) l' 0 out'.
Proof.
  induction 1 as [|c data Hc _ IH]; intros tail q l out Hq.
  - exists l, out. cbn [map app List.length Z.of_nat].
    now rewrite Z.add_0_r, Z.mod_small.
  - destruct (b64url_alphabet_value c Hc) as [H1 H2].
    cbn [map app]. rewrite (a2b_loop_data _ _ _ _ _ _ H1 H2). cbv zeta.
    replace ((q + Z.of_nat (List.length (c :: data))) mod 4)
      with (((q + 1) mod 4 + Z.of_nat (List.length data)) mod 4)
      by (cbn [List.length]; rewrite Nat2Z.inj_succ;
          Z.to_euclidean_division_equations; lia).
    destruct (Z.eqb_spec q 0) as [->|N0]; [apply (IH tail 1); lia|].
    destruct (Z.eqb_spec q 1) as [->|N1]; [apply (IH tail 2); lia|].
    destruct (Z.eqb_spec q 2) as [->|N2]; [apply (IH tail 3); lia|].
    replace q with 3 by lia. apply (IH tail 0); lia.
Qed.

Lemma ascii_encode_ascii (s : pystr) :
  Forall (fun c => 0 <= c < 128) s -> ascii_encode s = Ok s.
Proof.
  induction 1 as [|c s Hc _ IH]; [reflexivity|].
  cbn [ascii_encode]. rewrite IH.
  replace ((0 <=? c) && (c <? 128)) with true by lia. reflexivity.
Qed.

Lemma ascii_encode_non_ascii (s : pystr) :
  Exists (fun c => ~ 0 <= c < 128) s -> ascii_encode s = Raise ValueError.
Proof.
  induction s as [|c s IH]; intros H; [inversion H|].
  cbn [ascii_encode].
  destruct ((0 <=? c) && (c <? 128)) eqn:E; [|reflexivity].
  inversion H as [? ? Hc | ? ? Hs]; subst; [lia|].
  now rewrite (IH Hs).
Qed.

Lemma map_urlsafe_translate_pad (n : nat) :
  map urlsafe_translate (repeat 61 n) = repeat 61 n.
Proof. induction n as [|n IH]; simpl; [reflexivity | now rewrite IH]. Qed.

Lemma padded_ascii (data : pystr) :
  Forall (fun c => 0 <= c < 128) data ->
  Forall (fun c => 0 <= c < 128) (padded data).
Proof.
  intros H. unfold padded. apply Forall_app. split; [exact H|].
  apply Forall_forall. intros c Hc. apply repeat_spec in Hc. lia.
Qed.

(** The base64 decoding of the padded form of an alphabet string. *)
Lemma urlsafe_b64decode_alphabet (data : pystr) :
  Forall (fun c => b64url_alphabet c = true) data ->
  (Z.of_nat (List.length data) mod 4 <> 1 ->
   returns (urlsafe_b64decode (JStr (padded data)))) /\
  (Z.of_nat (List.length data) mod 4 = 1 ->
   urlsafe_b64decode (JStr (padded data)) = Raise BinasciiError).
Proof.
  intros Ha. cbn [urlsafe_b64decode]. rewrite ascii_encode_ascii.
  2:{ apply padded_ascii. eapply Forall_impl; [|exact Ha].
      exact b64url_alphabet_ascii. }
  cbn [bind]. unfold padded, a2b_base64.
  rewrite map_app, map_urlsafe_translate_pad.
  set (r := Z.of_nat (List.length data) mod 4).
  destruct (a2b_loop_alphabet data Ha
              (repeat 61 (Z.to_nat ((4 - r) mod 4))) 0 0 [] ltac:(lia))
    as (l' & out' & ->).
  cbn [Z.add]. fold r.
  assert (Hr : 0 <= r < 4) by (apply Z.mod_pos_bound; lia).
  assert (Hc : r = 0 \/ r = 1 \/ r = 2 \/ r = 3) by lia.
  split.
  - intros Hn. exists out'.
    destruct Hc as [->|[->|[->| ->]]]; [reflexivity | lia | reflexivity ..].
  - intros ->. reflexivity.
Qed.

(** ** UTF-8 *)

Ltac zsolve :=
  unfold is_continuation_byte, is_scalar, is_byte in *;
  repeat match goal with
         | H : context [if ?b then _ else _] |- _ => destruct b eqn:?
         end;
  Z.to_euclidean_division_equations; lia.

(** Settle the tests of the goal one after the other: the branch that
    contradicts the context is discarded. *)
Ltac settle_tests :=
  repeat match goal with
         | |- context [if ?b then _ else _] =>
             let E := fresh "E" in
             destruct b eqn:E; [try (exfalso; zsolve) | try (exfalso; zsolve)]
         end.

Lemma utf8_encode_cons (c : Z) (s : pystr) :
  utf8_encode (c :: s) = utf8_encode_cp c ++ utf8_encode s.
Proof. reflexivity. Qed.

(** Decoding reads back a code point that was encoded. *)
Lemma utf8_decode_encode_cp (c : Z) (rest : pybytes) :
  is_scalar c ->
  utf8_decode_ignore (utf8_encode_cp c ++ rest) = c :: utf8_decode_ignore rest.
Proof.
  intros Hc. unfold utf8_encode_cp.
  destruct (c <? 128) eqn:E1; [|destruct (c <? 2048) eqn:E2;
                                 [|destruct (c <? 65536) eqn:E3]];
    cbn [app utf8_decode_ignore]; settle_tests; f_equal; zsolve.
Qed.

Lemma utf8_decode_encode (s : pystr) :
  Forall is_scalar s -> utf8_decode_ignore (utf8_encode s) = s.
Proof.
  induction 1 as [|c s Hc _ IH]; [reflexivity|].
  now rewrite utf8_encode_cons, utf8_decode_encode_cp, IH.
Qed.

Lemma utf8_encode_cp_bytes (c : Z) :
  is_scalar c -> Forall is_byte (utf8_encode_cp c).
Proof.
  intros Hc. unfold utf8_encode_cp.
  settle_tests; repeat constructor; zsolve.
Qed.

Lemma utf8_encode_bytes (s : pystr) :
  Forall is_scalar s -> Forall is_byte (utf8_encode s).
Proof.
  induction 1 as [|c s Hc _ IH]; [constructor|].
  rewrite utf8_encode_cons. apply Forall_app.
  split; [now apply utf8_encode_cp_bytes | exact IH].
Qed.

Lemma utf8_encode_cp_nonempty (c : Z) : utf8_encode_cp c <> [].
Proof. unfold utf8_encode_cp. settle_tests; discriminate. Qed.

(** Lossy decoding: what the decoder returns on arbitrary bytes. *)

Lemma subseq_nil_l {A : Type} (l : list A) : subseq [] l.
Proof. induction l; constructor; assumption. Qed.

Lemma subseq_refl {A : Type} (l : list A) : subseq l l.
Proof. induction l; constructor; assumption. Qed.

Lemma subseq_app_keep {A : Type} (p l1 l2 : list A) :
  subseq l1 l2 -> subseq (p ++ l1) (p ++ l2).
Proof. intros H. induction p; [exact H | now constructor]. Qed.

Lemma lossy_decoding_nil (s : pybytes) : lossy_decoding s [].
Proof. split; [constructor | apply subseq_nil_l]. Qed.

Lemma lossy_decoding_drop (b : Z) (s : pybytes) (t : pystr) :
  lossy_decoding s t -> lossy_decoding (b :: s) t.
Proof. intros [H1 H2]. split; [exact H1 | now constructor]. Qed.

Lemma lossy_decoding_emit (prefix : pybytes) (c : Z) (s : pybytes) (t : pystr) :
  is_scalar c -> utf8_encode_cp c = prefix ->
  lossy_decoding s t -> lossy_decoding (prefix ++ s) (c :: t).
Proof.
  intros Hc <- [H1 H2]. split; [now constructor|].
  rewrite utf8_encode_cons. now apply subseq_app_keep.
Qed.

Ltac split_bytes :=
  repeat match goal with
         | H : Forall is_byte (_ :: _) |- _ =>
             let Hb := fresh "Hb" in
             apply Forall_cons_iff in H as [Hb H]
         end.

Ltac rebuild_bytes :=
  repeat (apply Forall_cons; [assumption|]); assumption.

Ltac encode_cp_is :=
  unfold utf8_encode_cp; settle_tests; repeat f_equal; zsolve.

Lemma utf8_decode_ignore_lossy_aux (n : nat) :
  forall s, (List.length s <= n)%nat -> Forall is_byte s ->
    lossy_decoding s (utf8_decode_ignore s).
Proof.
  induction n as [|n IH]; intros s Hn Hs.
  - destruct s; [apply lossy_decoding_nil | simpl in Hn; lia].
  - destruct s as [|ch s1]; [apply lossy_decoding_nil|].
    cbn [utf8_decode_ignore]. set (D := utf8_decode_ignore).
    repeat match goal with
           | |- context [if ?b then _ else _] => destruct b eqn:?
           | |- context [match ?l with [] => _ | _ :: _ => _ end] =>
               destruct l; cbv beta match
           end;
      subst D; cbn [List.length] in Hn; split_bytes;
      try apply lossy_decoding_nil;
      first
        [ apply (lossy_decoding_emit [_]);
          [zsolve | encode_cp_is | apply IH; [lia | assumption]]
        | apply (lossy_decoding_emit [_; _]);
          [zsolve | encode_cp_is | apply IH; [lia | assumption]]
        | apply (lossy_decoding_emit [_; _; _]);
          [zsolve | encode_cp_is | apply IH; [lia | assumption]]
        | apply (lossy_decoding_emit [_; _; _; _]);
          [zsolve | encode_cp_is | apply IH; [lia | assumption]]
        | apply lossy_decoding_drop; apply IH;
          [cbn [List.length]; lia | rebuild_bytes]
        | do 2 apply lossy_decoding_drop; apply IH;
          [cbn [List.length]; lia | rebuild_bytes]
        | do 3 apply lossy_decoding_drop; apply IH;
          [cbn [List.length]; lia | rebuild_bytes] ].
Qed.

Lemma utf8_decode_ignore_lossy (s : pybytes) :
  Forall is_byte s -> lossy_decoding s (utf8_decode_ignore s).
Proof. apply (utf8_decode_ignore_lossy_aux (List.length s)). apply Nat.le_refl. Qed.

(** What is dropped: exactly the bytes at which no encoding begins. *)

Lemma utf8_decode_ignore_continuation (b : Z) (s : pybytes) :
  is_continuation_byte b = true ->
  utf8_decode_ignore (b :: s) = utf8_decode_ignore s.
Proof.
  intros Hb. cbn [utf8_decode_ignore].
  replace (b <? 128) with false by zsolve.
  replace (b <? 224) with true by zsolve.
  replace (b <? 194) with true by zsolve.
  reflexivity.
Qed.

Lemma cons_eq_inv {A : Type} (a b : A) (l m : list A) :
  a :: l = b :: m -> a = b /\ l = m.
Proof. intros H. injection H as H1 H2. now split. Qed.

(** No encoding of a scalar value begins with the bytes at hand. *)
Ltac no_encoding_here :=
  let c := fresh "c" in
  let tail := fresh "tail" in
  let Hc := fresh "Hc" in
  let Heq := fresh "Heq" in
  intros c tail Hc Heq; unfold utf8_encode_cp in Heq;
  repeat match type of Heq with
         | context [if ?b then _ else _] => destruct b eqn:?
         end;
  cbn [app] in Heq;
  repeat match goal with
         | H : _ :: _ = _ :: _ |- _ =>
             apply cons_eq_inv in H; destruct H as [? ?]
         | H : [] = _ :: _ |- _ => discriminate H
         end;
  subst; zsolve.

(** The encoding of a scalar value begins here: these are its bytes. *)
Ltac encoding_here c tail :=
  left; exists c, tail;
  split; [zsolve|];
  split; [|reflexivity];
  unfold utf8_encode_cp; settle_tests; cbn [app]; repeat f_equal; zsolve.

Ltac dropped_here :=
  right; split;
  [no_encoding_here
  | repeat match goal with
           | |- context [utf8_decode_ignore (?x :: ?s)] =>
               rewrite (utf8_decode_ignore_continuation x s) by zsolve
           end;
    reflexivity].

(** At each byte the decoder either reads the encoding of a scalar value
    that begins there, or, no such encoding beginning there, drops the
    byte. *)
Lemma utf8_decode_ignore_step (b : Z) (rest : pybytes) :
  Forall is_byte (b :: rest) ->
  (exists c tail,
     is_scalar c /\ b :: rest = utf8_encode_cp c ++ tail /\
     utf8_decode_ignore (b :: rest) = c :: utf8_decode_ignore tail) \/
  ((forall c tail, is_scalar c -> b :: rest <> utf8_encode_cp c ++ tail) /\
   utf8_decode_ignore (b :: rest) = utf8_decode_ignore rest).
Proof.
  intros Hs. cbn [utf8_decode_ignore]. set (D := utf8_decode_ignore).
  repeat match goal with
         | |- context [if ?b then _ else _] => destruct b eqn:?
         | |- context [match ?l with [] => _ | _ :: _ => _ end] =>
             destruct l; cbv beta match
         end;
    subst D; split_bytes;
    first
      [ match goal with
        | |- (exists c tail, _ /\ _ /\ ?x :: utf8_decode_ignore ?s = _) \/ _ =>
            encoding_here x s
        end
      | dropped_here ].
Qed.

Lemma utf8_decode_ignore_drops_aux (n : nat) :
  forall s, (List.length s <= n)%nat -> Forall is_byte s ->
    drops_invalid s (utf8_decode_ignore s).
Proof.
  induction n as [|n IH]; intros s Hn Hs.
  - destruct s; [apply drops_nil | simpl in Hn; lia].
  - destruct s as [|b rest]; [apply drops_nil|].
    destruct (utf8_decode_ignore_step b rest Hs)
      as [(c & tail & Hc & Heq & Hd) | (Hno & Hd)]; rewrite Hd.
    + assert (Hlen : List.length (b :: rest)
                     = (List.length (utf8_encode_cp c) + List.length tail)%nat)
        by now rewrite Heq, length_app.
      assert (Hpos : (0 < List.length (utf8_encode_cp c))%nat).
      { pose proof (utf8_encode_cp_nonempty c) as Hne.
        destruct (utf8_encode_cp c); [now elim Hne | simpl; lia]. }
      rewrite Heq in Hs. apply Forall_app in Hs as [_ Hs].
      rewrite Heq. apply drops_keep; [exact Hc|].
      apply IH; [lia | exact Hs].
    + apply drops_skip; [exact Hno|].
      apply IH; [simpl in Hn; lia | now inversion Hs].
Qed.

(** The decoder drops the invalid bytes and nothing else. *)
Lemma utf8_decode_ignore_drops (s : pybytes) :
  Forall is_byte s -> drops_invalid s (utf8_decode_ignore s).
Proof. apply (utf8_decode_ignore_drops_aux (List.length s)). apply Nat.le_refl. Qed.

(** Dropping the invalid bytes and nothing else leaves one text only. *)
Lemma drops_invalid_unique (s : pybytes) (t : pystr) :
  drops_invalid s t -> Forall is_byte s -> t = utf8_decode_ignore s.
Proof.
  induction 1 as [|c rest t Hc _ IH|b rest t Hno _ IH]; intros Hs.
  - reflexivity.
  - rewrite utf8_decode_encode_cp by exact Hc. f_equal.
    apply IH. now apply Forall_app in Hs.
  - destruct (utf8_decode_ignore_step b rest Hs)
      as [(c & tail & Hc & Heq & _) | (_ & Hd)].
    + now elim (Hno c tail).
    + rewrite Hd. apply IH. now inversion Hs.
Qed.

(** ** The bytes written by the base64 decoder *)

Lemma land_255_byte (x : Z) : is_byte (Z.land x 255).
Proof.
  unfold is_byte. change 255 with (Z.ones 8). rewrite Z.land_ones by lia.
  apply Z.mod_pos_bound. lia.
Qed.

Lemma a2b_loop_bytes (data : pybytes) :
  forall q l p out raw,
    Forall is_byte out -> a2b_loop data q l p out = Ok raw -> Forall is_byte raw.
Proof.
  induction data as [|c data IH]; intros q l p out raw Hout; cbn [a2b_loop].
  - destruct (q =? 0); [now intros [= <-] | discriminate].
  - assert (Hsnoc : forall x, Forall is_byte (out ++ [Z.land x 255])).
    { intros x. apply Forall_app. split; [exact Hout|].
      constructor; [apply land_255_byte | constructor]. }
    cbv zeta.
    repeat match goal with
           | |- (if ?b then _ else _) = _ -> _ => destruct b
           end;
      try (now intros [= <-]); eapply IH; auto.
Qed.

Lemma urlsafe_b64decode_bytes (v : json) (raw : pybytes) :
  urlsafe_b64decode v = Ok raw -> Forall is_byte raw.
Proof.
  destruct v; try discriminate. cbn [urlsafe_b64decode].
  destruct (ascii_encode s) as [bs|]; [|discriminate]. cbn [bind].
  apply a2b_loop_bytes. constructor.
Qed.

(** C7: whatever bytes the base64 decoding yields, valid UTF-8 or not, the
    decoder returns a text and does not raise: the text consists of scalar
    values and its UTF-8 encoding is the byte sequence with the invalid bytes
    left out.  What is left out is exactly the invalid bytes: every encoding
    of a scalar value met when reading from the left is kept, a byte is
    dropped only where no such encoding begins, and the returned text is the
    only one that this leaves. *)
Theorem invalid_utf8_is_dropped (data : pystr) (raw : pybytes) :
  data <> [] ->
  urlsafe_b64decode (JStr (padded data)) = Ok raw ->
  decode_base64url (JStr data) = Ok (utf8_decode_ignore raw) /\
  lossy_decoding raw (utf8_decode_ignore raw) /\
  drops_invalid raw (utf8_decode_ignore raw) /\
  (forall text, drops_invalid raw text -> text = utf8_decode_ignore raw).
Proof.
  intros Hne Hraw.
  assert (Hbytes : Forall is_byte raw) by now apply urlsafe_b64decode_bytes in Hraw.
  split; [now rewrite decode_base64url_padded, Hraw|].
  split; [now apply utf8_decode_ignore_lossy|].
  split; [now apply utf8_decode_ignore_drops|].
  intros text Ht. now apply drops_invalid_unique.
Qed.

Lemma invalid_utf8_is_dropped_witness :
  urlsafe_b64decode (JStr (padded (lit "SP_DQeKC")))
  = Ok [72; 255; 195; 65; 226; 130] /\
  decode_base64url (JStr (lit "SP_DQeKC")) = Ok (lit "HA") /\
  lossy_decoding [72; 255; 195; 65; 226; 130] (lit "HA") /\
  drops_invalid [72; 255; 195; 65; 226; 130] (lit "HA") /\
  (forall text,
     drops_invalid [72; 255; 195; 65; 226; 130] text -> text = lit "HA").
Proof.
  assert (Hraw : urlsafe_b64decode (JStr (padded (lit "SP_DQeKC")))
                 = Ok [72; 255; 195; 65; 226; 130]) by reflexivity.
  split; [exact Hraw|].
  exact (invalid_utf8_is_dropped (lit "SP_DQeKC") [72; 255; 195; 65; 226; 130]
           ltac:(discriminate) Hraw).
Defined.

(** ** Decoding what the provider encodes *)

Lemma list_ind3 {A : Type} (P : list A -> Prop) :
  P [] -> (forall a, P [a]) -> (forall a b, P [a; b]) ->
  (forall a b c l, P l -> P (a :: b :: c :: l)) ->
  forall l, P l.
Proof.
  intros H0 H1 H2 H3 l.
  assert (H : P l /\ (forall a, P (a :: l)) /\ (forall a b, P (a :: b :: l))).
  { induction l as [|c l (Hl & Hl1 & Hl2)]; [auto|].
    split; [apply Hl1 | split; [intros a; apply Hl2 | intros a b; now apply H3]]. }
  apply H.
Qed.

Lemma sextet_bits_1 (l v : Z) :
  0 <= l < 64 -> 0 <= v < 64 ->
  Z.land (Z.lor (Z.shiftl l 2) (Z.shiftr v 4)) 255 = l * 4 + v / 16.
Proof.
  intros Hl Hv. apply Z.eqb_eq.
  apply (forallb_below2
           (fun l v => Z.land (Z.lor (Z.shiftl l 2) (Z.shiftr v 4)) 255
                       =? l * 4 + v / 16) 64 64); [|exact Hl|exact Hv].
  vm_compute. reflexivity.
Qed.

Lemma sextet_bits_2 (v w : Z) :
  0 <= v < 64 -> 0 <= w < 64 ->
  Z.land (Z.lor (Z.shiftl (Z.land v 15) 4) (Z.shiftr w 2)) 255
  = v mod 16 * 16 + w / 4.
Proof.
  intros Hv Hw. apply Z.eqb_eq.
  apply (forallb_below2
           (fun v w =>
              Z.land (Z.lor (Z.shiftl (Z.land v 15) 4) (Z.shiftr w 2)) 255
              =? v mod 16 * 16 + w / 4) 64 64); [|exact Hv|exact Hw].
  vm_compute. reflexivity.
Qed.

Lemma sextet_bits_3 (w x : Z) :
  0 <= w < 64 -> 0 <= x < 64 ->
  Z.land (Z.lor (Z.shiftl (Z.land w 3) 6) x) 255 = w mod 4 * 64 + x.
Proof.
  intros Hw Hx. apply Z.eqb_eq.
  apply (forallb_below2
           (fun w x => Z.land (Z.lor (Z.shiftl (Z.land w 3) 6) x) 255
                       =? w mod 4 * 64 + x) 64 64); [|exact Hw|exact Hx].
  vm_compute. reflexivity.
Qed.

(** The decoder on a character written by the encoder, at each position of
    a group. *)
Lemma a2b_loop_char (v : Z) (rest : pybytes) (l p : Z) (out : pybytes) :
  0 <= v < 64 ->
  let c := urlsafe_translate (b64url_char v) in
  a2b_loop (c :: rest) 0 l p out = a2b_loop rest 1 v 0 out /\
  a2b_loop (c :: rest) 1 l p out =
    a2b_loop rest 2 (Z.land v 15) 0
      (out ++ [Z.land (Z.lor (Z.shiftl l 2) (Z.shiftr v 4)) 255]) /\
  a2b_loop (c :: rest) 2 l p out =
    a2b_loop rest 3 (Z.land v 3) 0
      (out ++ [Z.land (Z.lor (Z.shiftl l 4) (Z.shiftr v 2)) 255]) /\
  a2b_loop (c :: rest) 3 l p out =
    a2b_loop rest 0 0 0 (out ++ [Z.land (Z.lor (Z.shiftl l 6) v) 255]).
Proof.
  intros Hv c. destruct (b64url_char_value v Hv) as [Ha Hval].
  destruct (b64url_alphabet_value _ Ha) as [H1 H2]. subst c.
  repeat split; rewrite (a2b_loop_data _ _ _ _ _ _ H1 H2), Hval; reflexivity.
Qed.

Lemma snoc3 {A : Type} (out : list A) (a b c : A) :
  ((out ++ [a]) ++ [b]) ++ [c] = out ++ [a; b; c].
Proof. now rewrite <- !app_assoc. Qed.

Lemma a2b_loop_group (b0 b1 b2 : Z) (rest : pybytes) (l : Z) (out : pybytes) :
  is_byte b0 -> is_byte b1 -> is_byte b2 ->
  a2b_loop
    (urlsafe_translate (b64url_char (b0 / 4))
     :: urlsafe_translate (b64url_char (b0 mod 4 * 16 + b1 / 16))
     :: urlsafe_translate (b64url_char (b1 mod 16 * 4 + b2 / 64))
     :: urlsafe_translate (b64url_char (b2 mod 64)) :: rest) 0 l 0 out
  = a2b_loop rest 0 0 0 (out ++ [b0; b1; b2]).
Proof.
  intros H0 H1 H2.
  assert (V0 : 0 <= b0 / 4 < 64) by zsolve.
  assert (V1 : 0 <= b0 mod 4 * 16 + b1 / 16 < 64) by zsolve.
  assert (V2 : 0 <= b1 mod 16 * 4 + b2 / 64 < 64) by zsolve.
  assert (V3 : 0 <= b2 mod 64 < 64) by zsolve.
  rewrite (proj1 (a2b_loop_char _ _ _ _ _ V0)).
  rewrite (proj1 (proj2 (a2b_loop_char _ _ _ _ _ V1))).
  rewrite (proj1 (proj2 (proj2 (a2b_loop_char _ _ _ _ _ V2)))).
  rewrite (proj2 (proj2 (proj2 (a2b_loop_char _ _ _ _ _ V3)))).
  rewrite sextet_bits_1, sextet_bits_2, sextet_bits_3, snoc3 by assumption.
  do 2 f_equal; repeat f_equal; zsolve.
Qed.

Lemma padded_cons4 (a b c d : Z) (e : pystr) :
  padded (a :: b :: c :: d :: e) = a :: b :: c :: d :: padded e.
Proof.
  unfold padded. cbn [List.length app].
  replace (Z.of_nat (S (S (S (S (List.length e))))) mod 4)
    with (Z.of_nat (List.length e) mod 4); [reflexivity|].
  rewrite !Nat2Z.inj_succ. zsolve.
Qed.

Lemma b64url_encode_alphabet (bs : pybytes) :
  Forall is_byte bs ->
  Forall (fun c => b64url_alphabet c = true) (b64url_encode bs).
Proof.
  induction bs as [| b0 | b0 b1 | b0 b1 b2 bs IH] using list_ind3;
    intros Hb; split_bytes; cbn [b64url_encode];
    repeat (apply Forall_cons; [apply b64url_char_value; zsolve|]);
    auto.
Qed.

(** The decoder reads back the bytes that were encoded. *)
Lemma a2b_loop_encode (bs : pybytes) :
  Forall is_byte bs ->
  forall out,
    a2b_loop (map urlsafe_translate (padded (b64url_encode bs))) 0 0 0 out
    = Ok (out ++ bs).
Proof.
  induction bs as [| b0 | b0 b1 | b0 b1 b2 bs IH] using list_ind3;
    intros Hb out; split_bytes; cbn [b64url_encode].
  - cbn. now rewrite app_nil_r.
  - assert (V0 : 0 <= b0 / 4 < 64) by zsolve.
    assert (V1 : 0 <= b0 mod 4 * 16 < 64) by zsolve.
    change (padded [b64url_char (b0 / 4); b64url_char (b0 mod 4 * 16)])
      with ([b64url_char (b0 / 4); b64url_char (b0 mod 4 * 16)] ++ [61; 61]).
    cbn [map app].
    rewrite (proj1 (a2b_loop_char _ _ _ _ _ V0)).
    rewrite (proj1 (proj2 (a2b_loop_char _ _ _ _ _ V1))).
    rewrite sextet_bits_1 by assumption.
    change (urlsafe_translate 61) with 61.
    cbn [a2b_loop]. cbn. do 3 f_equal. zsolve.
  - assert (V0 : 0 <= b0 / 4 < 64) by zsolve.
    assert (V1 : 0 <= b0 mod 4 * 16 + b1 / 16 < 64) by zsolve.
    assert (V2 : 0 <= b1 mod 16 * 4 < 64) by zsolve.
    change (padded [b64url_char (b0 / 4); b64url_char (b0 mod 4 * 16 + b1 / 16);
                    b64url_char (b1 mod 16 * 4)])
      with ([b64url_char (b0 / 4); b64url_char (b0 mod 4 * 16 + b1 / 16);
             b64url_char (b1 mod 16 * 4)] ++ [61]).
    cbn [map app].
    rewrite (proj1 (a2b_loop_char _ _ _ _ _ V0)).
    rewrite (proj1 (proj2 (a2b_loop_char _ _ _ _ _ V1))).
    rewrite (proj1 (proj2 (proj2 (a2b_loop_char _ _ _ _ _ V2)))).
    rewrite sextet_bits_1, sextet_bits_2 by assumption.
    change (urlsafe_translate 61) with 61.
    cbn [a2b_loop]. cbn. rewrite <- app_assoc. cbn [app].
    do 3 f_equal; [|f_equal]; zsolve.
  - rewrite padded_cons4. cbn [map].
    rewrite a2b_loop_group by assumption.
    rewrite IH by assumption. now rewrite <- app_assoc.
Qed.

Lemma b64url_encode_nonempty (bs : pybytes) : bs <> [] -> b64url_encode bs <> [].
Proof.
  destruct bs as [|b0 [|b1 [|b2 bs]]]; [congruence | discriminate ..].
Qed.

Lemma urlsafe_b64decode_encode (bs : pybytes) :
  Forall is_byte bs ->
  urlsafe_b64decode (JStr (padded (b64url_encode bs))) = Ok bs.
Proof.
  intros Hb. cbn [urlsafe_b64decode]. rewrite ascii_encode_ascii.
  - cbn [bind]. unfold a2b_base64. now rewrite a2b_loop_encode.
  - apply padded_ascii.
    eapply Forall_impl; [|exact (b64url_encode_alphabet bs Hb)].
    exact b64url_alphabet_ascii.
Qed.

(** C8: for every text of Unicode scalar values, decoding its base64url
    encoding without padding gives the text back. *)
Theorem decode_provider_encode (s : pystr) :
  Forall is_scalar s ->
  decode_base64url (JStr (provider_encode s)) = Ok s.
Proof.
  intros Hs. destruct s as [|c s]; [reflexivity|].
  unfold provider_encode. rewrite decode_base64url_padded.
  - rewrite urlsafe_b64decode_encode by now apply utf8_encode_bytes.
    cbn [bind]. now rewrite utf8_decode_encode.
  - apply b64url_encode_nonempty. rewrite utf8_encode_cons.
    pose proof (utf8_encode_cp_nonempty c).
    destruct (utf8_encode_cp c); [congruence | discriminate].
Qed.

Lemma decode_provider_encode_witness :
  let s := [72; 105; 32; 8364; 128512] in
  Forall is_scalar s /\
  provider_encode s = lit "SGkg4oKs8J-YgA" /\
  decode_base64url (JStr (lit "SGkg4oKs8J-YgA")) = Ok s.
Proof.
  intros s.
  assert (Hs : Forall is_scalar s) by (repeat constructor; unfold is_scalar; lia).
  split; [exact Hs|]. split; [reflexivity|].
  exact (decode_provider_encode s Hs).
Defined.

(** ** Malformed base64 *)

(** The decoder does raise: a single alphabet character cannot be decoded,
    the error reaches the caller, and [extract_email_fields] passes it on. *)
Lemma decode_raises_on_malformed :
  decode_base64url (JStr (lit "A")) = Raise BinasciiError /\
  extract_email_fields (message_of [] [(lit "data", JStr (lit "A"))] [])
    = Raise BinasciiError /\
  ~ (forall data : pystr, returns (decode_base64url (JStr data))).
Proof.
  split; [reflexivity|]. split; [reflexivity|].
  intros H. destruct (H (lit "A")) as [t Ht]. discriminate Ht.
Qed.

Lemma decode_base64url_non_ascii (data : pystr) :
  Exists (fun c => ~ 0 <= c < 128) data ->
  decode_base64url (JStr data) = Raise ValueError.
Proof.
  intros He. rewrite decode_base64url_padded
    by (intros ->; inversion He).
  cbn [urlsafe_b64decode]. rewrite ascii_encode_non_ascii; [reflexivity|].
  unfold padded. apply Exists_app. now left.
Qed.

Lemma decode_base64url_alphabet (data : pystr) :
  Forall (fun c => b64url_alphabet c = true) data ->
  (Z.of_nat (List.length data) mod 4 <> 1 ->
   returns (decode_base64url (JStr data))) /\
  (Z.of_nat (List.length data) mod 4 = 1 ->
   decode_base64url (JStr data) = Raise BinasciiError).
Proof.
  intros Ha. destruct data as [|c data].
  - split; [intros _; now exists [] | cbn; lia].
  - rewrite decode_base64url_padded by discriminate.
    destruct (urlsafe_b64decode_alphabet _ Ha) as [Hok Herr].
    split.
    + intros Hn. destruct (Hok Hn) as [raw ->]. now eexists.
    + intros H1. now rewrite (Herr H1).
Qed.

(** The two ways in which the decoder fails. *)

Lemma ascii_encode_outcomes (s : pystr) :
  ascii_encode s = Ok s \/ ascii_encode s = Raise ValueError.
Proof.
  induction s as [|c s [IH|IH]]; [now left | |]; cbn [ascii_encode]; rewrite IH;
    destruct ((0 <=? c) && (c <? 128)); auto.
Qed.

Lemma a2b_loop_outcomes (data : pybytes) :
  forall q l p out,
    returns (a2b_loop data q l p out) \/
    a2b_loop data q l p out = Raise BinasciiError.
Proof.
  induction data as [|c data IH]; intros q l p out; cbn [a2b_loop]; cbv zeta;
    repeat match goal with
           | |- context [if ?b then _ else _] => destruct b
           end;
    try apply IH; try (left; eexists; reflexivity); now right.
Qed.

Lemma decode_base64url_outcomes (data : pystr) :
  returns (decode_base64url (JStr data)) \/
  decode_base64url (JStr data) = Raise BinasciiError \/
  decode_base64url (JStr data) = Raise ValueError.
Proof.
  destruct data as [|c data]; [left; now exists []|].
  rewrite decode_base64url_padded by discriminate.
  cbn [urlsafe_b64decode].
  destruct (ascii_encode_outcomes (padded (c :: data))) as [-> | ->];
    cbn [bind]; [|now right; right].
  unfold a2b_base64.
  destruct (a2b_loop_outcomes (map urlsafe_translate (padded (c :: data)))
              0 0 0 []) as [[raw ->] | ->]; cbn [bind].
  - left. now eexists.
  - right. now left.
Qed.

(** Characters outside the alphabet: the base64 decoder skips them, so that
    only the number of data characters decides. *)

Lemma data_char_spec (c : Z) :
  0 <= c < 128 -> c <> 61 ->
  (urlsafe_translate c =? BASE64_PAD) = false /\
  (64 <=? table_a2b_base64 (urlsafe_translate c)) = negb (data_char c).
Proof.
  intros Hr Hc.
  pose proof (forallb_below
    (fun c => (c =? 61)
              || (negb (urlsafe_translate c =? BASE64_PAD)
                  && Bool.eqb (64 <=? table_a2b_base64 (urlsafe_translate c))
                       (negb (data_char c))))
    128 eq_refl c Hr) as H.
  cbv beta in H. apply orb_true_iff in H as [H|H]; [lia|].
  apply andb_true_iff in H as [H1 H2].
  rewrite negb_true_iff in H1. now apply Bool.eqb_prop in H2.
Qed.

Lemma a2b_loop_unpadded (data : pystr) :
  Forall (fun c => 0 <= c < 128 /\ c <> 61) data ->
  forall (tail : pybytes) (q l : Z) (out : pybytes),
    0 <= q < 4 ->
    exists l' out',
      a2b_loop (map urlsafe_translate data ++ tail) q l 0 out =
      a2b_loop tail ((q + data_chars data) mod 4) l' 0 out'.
Proof.
  unfold data_chars.
  induction 1 as [|c data [Hr Hc] _ IH]; intros tail q l out Hq.
  - exists l, out. cbn [map app filter List.length Z.of_nat].
    now rewrite Z.add_0_r, Z.mod_small.
  - destruct (data_char_spec c Hr Hc) as [H1 H2].
    cbn [map app filter]. destruct (data_char c); cbn [negb] in H2.
    + rewrite (a2b_loop_data _ _ _ _ _ _ H1 H2). cbv zeta.
      replace ((q + Z.of_nat (List.length (c :: filter data_char data))) mod 4)
        with (((q + 1) mod 4
               + Z.of_nat (List.length (filter data_char data))) mod 4)
        by (cbn [List.length]; rewrite Nat2Z.inj_succ;
            Z.to_euclidean_division_equations; lia).
      destruct (Z.eqb_spec q 0) as [->|N0]; [apply (IH tail 1); lia|].
      destruct (Z.eqb_spec q 1) as [->|N1]; [apply (IH tail 2); lia|].
      destruct (Z.eqb_spec q 2) as [->|N2]; [apply (IH tail 3); lia|].
      replace q with 3 by lia. apply (IH tail 0); lia.
    + rewrite (a2b_loop_skip _ _ _ _ _ _ H1 H2). now apply IH.
Qed.

(** The pad characters that close the input, read at position [q]. *)
Lemma a2b_loop_pads (q k l : Z) (out : pybytes) :
  0 <= q < 4 -> 0 <= k < 4 ->
  a2b_loop (repeat 61 (Z.to_nat k)) q l 0 out =
  if complete_groups q k then Ok out else Raise BinasciiError.
Proof.
  intros Hq Hk.
  assert (Hq4 : q = 0 \/ q = 1 \/ q = 2 \/ q = 3) by lia.
  assert (Hk4 : k = 0 \/ k = 1 \/ k = 2 \/ k = 3) by lia.
  destruct Hq4 as [->|[->|[->| ->]]]; destruct Hk4 as [->|[->|[->| ->]]];
    reflexivity.
Qed.

Lemma complete_groups_mod (m k : Z) :
  complete_groups (m mod 4) k = complete_groups m k.
Proof. unfold complete_groups. now rewrite Z.mod_mod by lia. Qed.

Lemma decode_base64url_unpadded (data : pystr) :
  Forall (fun c => 0 <= c < 128 /\ c <> 61) data ->
  (complete_groups (data_chars data) (missing_pads data) = true ->
   returns (decode_base64url (JStr data))) /\
  (complete_groups (data_chars data) (missing_pads data) = false ->
   decode_base64url (JStr data) = Raise BinasciiError).
Proof.
  intros Ha. destruct data as [|c data].
  - split; [intros _; now exists [] | discriminate].
  - rewrite decode_base64url_padded by discriminate.
    cbn [urlsafe_b64decode]. rewrite ascii_encode_ascii.
    2:{ apply padded_ascii. eapply Forall_impl; [|exact Ha].
        cbv beta. intros a Hx. apply Hx. }
    cbn [bind]. unfold padded, a2b_base64.
    rewrite map_app, map_urlsafe_translate_pad.
    destruct (a2b_loop_unpadded _ Ha
                (repeat 61 (Z.to_nat ((4 - Z.of_nat (List.length (c :: data))
                                           mod 4) mod 4))) 0 0 [] ltac:(lia))
      as (l' & out' & ->).
    rewrite Z.add_0_l.
    rewrite a2b_loop_pads by (apply Z.mod_pos_bound; lia).
    rewrite complete_groups_mod. fold (missing_pads (c :: data)).
    destruct (complete_groups (data_chars (c :: data)) (missing_pads (c :: data))).
    + split; [intros _; now eexists | discriminate].
    + split; [discriminate | reflexivity].
Qed.

(** The caller and the script. *)

Lemma handlers_class_of (e : exn) :
  handlers (class_of e) = PrintedError (class_of e).
Proof. destruct e; reflexivity. Qed.

(** The script on a response that was parsed. *)
Lemma script_loaded (fuel : nat) (message : json) :
  script fuel (Loaded message) =
  match extract_email_fields_fuel fuel message with
  | Ok dataGot => PrintedFields dataGot
  | Raise e => PrintedError (class_of e)
  end.
Proof.
  unfold script, try_block.
  destruct (extract_email_fields_fuel fuel message) as [dataGot|e];
    [reflexivity | apply handlers_class_of].
Qed.

(** An exception that is not an [Exception] is not taken by a handler. *)
Example script_keyboard_interrupt (fuel : nat) :
  script fuel (LoadRaises PyClass.KeyboardInterrupt)
  = Uncaught PyClass.KeyboardInterrupt /\
  script fuel (LoadRaises PyClass.JSONDecodeError) = PrintedJSONFailure /\
  script fuel (LoadRaises PyClass.UnicodeDecodeError)
  = PrintedError PyClass.UnicodeDecodeError.
Proof. repeat split. Qed.

(** C3: for every input string the decoder returns a text or fails fast
    with [binascii.Error] or [ValueError], and the failure is not a crash:
    [extract_email_fields] passes it on and the handler of the script takes
    it and prints it; nothing that the extractor raises leaves the script
    uncaught.  Which strings fail: one of alphabet characters fails exactly
    when its length is 1 modulo 4; one with a character outside ASCII fails
    with [ValueError]; in one of ASCII characters without [=], the
    characters outside the alphabet are skipped and the string fails exactly
    when its data characters and the padding appended for its length do not
    end on a complete group. *)
Theorem decode_failure_is_caught (data : pystr) :
  (returns (decode_base64url (JStr data)) \/
   decode_base64url (JStr data) = Raise BinasciiError \/
   decode_base64url (JStr data) = Raise ValueError) /\
  (Forall (fun c => b64url_alphabet c = true) data ->
   (Z.of_nat (List.length data) mod 4 <> 1 ->
    returns (decode_base64url (JStr data))) /\
   (Z.of_nat (List.length data) mod 4 = 1 ->
    decode_base64url (JStr data) = Raise BinasciiError)) /\
  (Exists (fun c => ~ 0 <= c < 128) data ->
   decode_base64url (JStr data) = Raise ValueError) /\
  (Forall (fun c => 0 <= c < 128 /\ c <> 61) data ->
   (complete_groups (data_chars data) (missing_pads data) = true ->
    returns (decode_base64url (JStr data))) /\
   (complete_groups (data_chars data) (missing_pads data) = false ->
    decode_base64url (JStr data) = Raise BinasciiError)) /\
  (forall (fuel : nat) (message payload sender subject : json),
     py_get message (lit "payload") (JObj []) = Ok payload ->
     inline_data payload = Ok (JStr data) ->
     data <> [] ->
     header_pass payload = Ok (sender, subject) ->
     extract_email_fields_fuel fuel message =
     (body <- decode_base64url (JStr data) ;; Ok (sender, subject, body)) /\
     script fuel (Loaded message) =
     match decode_base64url (JStr data) with
     | Ok body => PrintedFields (sender, subject, body)
     | Raise e => PrintedError (class_of e)
     end) /\
  (forall (fuel : nat) (message : json) (c : PyClass.t),
     script fuel (Loaded message) <> Uncaught c).
Proof.
  split; [apply decode_base64url_outcomes|].
  split; [apply decode_base64url_alphabet|].
  split; [apply decode_base64url_non_ascii|].
  split; [apply decode_base64url_unpadded|].
  split.
  - intros fuel message payload sender subject Hp Hd Hne Hh.
    assert (He : extract_email_fields_fuel fuel message =
                 (body <- decode_base64url (JStr data) ;;
                  Ok (sender, subject, body))).
    { rewrite (extract_email_fields_fuel_inline fuel _ _ _ Hp Hd
                 (py_truthy_str _ Hne)).
      rewrite Hh. reflexivity. }
    split; [exact He|].
    rewrite script_loaded, He.
    now destruct (decode_base64url (JStr data)).
  - intros fuel message c. rewrite script_loaded.
    now destruct (extract_email_fields_fuel fuel message).
Qed.

Lemma decode_failure_is_caught_witness :
  let message := message_of [header "From" "a@b.com"]
                   [(lit "data", JStr (lit "SGVsb"))] [] in
  returns (decode_base64url (JStr (lit "SGVsbG8"))) /\
  decode_base64url (JStr (lit "SGVsb")) = Raise BinasciiError /\
  decode_base64url (JStr [83; 71; 233]) = Raise ValueError /\
  returns (decode_base64url (JStr [83; 71; 86; 115; 10])) /\
  returns (decode_base64url (JStr (lit "!!!!"))) /\
  decode_base64url (JStr [83; 71; 107; 10]) = Raise BinasciiError /\
  extract_email_fields_fuel 0 message = Raise BinasciiError /\
  script 0 (Loaded message) = PrintedError PyClass.BinasciiError /\
  (forall c, script 0 (Loaded message) <> Uncaught c).
Proof.
  intros message.
  assert (Hascii : forall s : pystr,
            forallb (fun c => (0 <=? c) && (c <? 128) && negb (c =? 61)) s = true ->
            Forall (fun c => 0 <= c < 128 /\ c <> 61) s).
  { intros s H. apply Forall_forall. intros c Hc.
    rewrite forallb_forall in H. specialize (H c Hc). lia. }
  split; [|split; [|split; [|split; [|split; [|split; [|split; [|split]]]]]]].
  - apply (proj1 (proj2 (decode_failure_is_caught (lit "SGVsbG8")))).
    + repeat constructor.
    + cbn. lia.
  - apply (proj1 (proj2 (decode_failure_is_caught (lit "SGVsb")))).
    + repeat constructor.
    + reflexivity.
  - apply (proj1 (proj2 (proj2 (decode_failure_is_caught [83; 71; 233])))).
    apply Exists_cons_tl, Exists_cons_tl, Exists_cons_hd. lia.
  - apply (proj1 (proj2 (proj2 (proj2
             (decode_failure_is_caught [83; 71; 86; 115; 10]))))).
    + now apply Hascii.
    + reflexivity.
  - apply (proj1 (proj2 (proj2 (proj2 (decode_failure_is_caught (lit "!!!!")))))).
    + now apply Hascii.
    + reflexivity.
  - apply (proj1 (proj2 (proj2 (proj2
             (decode_failure_is_caught [83; 71; 107; 10]))))).
    + now apply Hascii.
    + reflexivity.
  - exact (proj1 (proj1 (proj2 (proj2 (proj2 (proj2
             (decode_failure_is_caught (lit "SGVsb"))))))
             0%nat message
             (JObj [(lit "headers", JArr [header "From" "a@b.com"]);
                    (lit "body", JObj [(lit "data", JStr (lit "SGVsb"))]);
                    (lit "parts", JArr [])])
             (JStr (lit "a@b.com")) (JStr [])
             eq_refl eq_refl ltac:(discriminate) eq_refl)).
  - exact (proj2 (proj1 (proj2 (proj2 (proj2 (proj2
             (decode_failure_is_caught (lit "SGVsb"))))))
             0%nat message
             (JObj [(lit "headers", JArr [header "From" "a@b.com"]);
                    (lit "body", JObj [(lit "data", JStr (lit "SGVsb"))]);
                    (lit "parts", JArr [])])
             (JStr (lit "a@b.com")) (JStr [])
             eq_refl eq_refl ltac:(discriminate) eq_refl)).
  - intros c.
    exact (proj2 (proj2 (proj2 (proj2 (proj2
             (decode_failure_is_caught (lit "SGVsb"))))))
             0%nat message c).
Defined.

(** * Further properties of the decoder *)

(** X1: a value that is not a string is decoded to the empty string when it
    is falsy ([None], [False], [0], [0.0], [[]], [{}]) and raises [TypeError]
    when it is truthy. *)
Theorem decode_base64url_non_str (v : json) :
  (forall s, v <> JStr s) ->
  decode_base64url v = if py_truthy v then Raise TypeError else Ok [].
Proof.
  intros Hv. unfold decode_base64url.
  destruct v as [| b | n | f | s | items | fields]; cbn [py_truthy].
  - reflexivity.
  - now destruct b.
  - now destruct (n =? 0).
  - now destruct f.
  - now elim (Hv s).
  - destruct items as [|x items]; [reflexivity|].
    cbn [negb py_len bind].
    now destruct (negb (Z.of_nat (List.length (x :: items)) mod 4 =? 0)).
  - destruct fields as [|x fields]; [reflexivity|].
    cbn [negb py_len bind].
    now destruct (negb (Z.of_nat (List.length (x :: fields)) mod 4 =? 0)).
Qed.

Lemma decode_base64url_non_str_witness :
  decode_base64url (JInt 7) = Raise TypeError /\
  decode_base64url (JArr [JStr (lit "SGk")]) = Raise TypeError /\
  decode_base64url (JObj []) = Ok [] /\
  decode_base64url JNull = Ok [].
Proof.
  split; [|split; [|split]].
  - exact (decode_base64url_non_str (JInt 7) ltac:(discriminate)).
  - exact (decode_base64url_non_str (JArr [JStr (lit "SGk")]) ltac:(discriminate)).
  - exact (decode_base64url_non_str (JObj []) ltac:(discriminate)).
  - exact (decode_base64url_non_str JNull ltac:(discriminate)).
Defined.

Lemma padded_length_mod (data : pystr) :
  Z.of_nat (List.length (padded data)) mod 4 = 0.
Proof.
  unfold padded. rewrite length_app, repeat_length, Nat2Z.inj_add.
  set (n := Z.of_nat (List.length data)).
  assert (Hn : 0 <= n) by apply Nat2Z.is_nonneg.
  rewrite Z2Nat.id by (apply Z.mod_pos_bound; lia).
  Z.to_euclidean_division_equations. lia.
Qed.

Lemma padded_idempotent (data : pystr) : padded (padded data) = padded data.
Proof.
  unfold padded at 1. rewrite padded_length_mod. apply app_nil_r.
Qed.

(** X2: a string that already carries its padding is decoded like the
    string without it: writing out the [=] characters the decoder would add
    changes nothing. *)
Theorem decode_base64url_padded_input (data : pystr) :
  decode_base64url (JStr (padded data)) = decode_base64url (JStr data).
Proof.
  destruct data as [|c data]; [reflexivity|].
  rewrite (decode_base64url_padded (c :: data)) by discriminate.
  rewrite decode_base64url_padded by (unfold padded; discriminate).
  now rewrite padded_idempotent.
Qed.

Lemma urlsafe_translate_idempotent (c : Z) :
  urlsafe_translate (urlsafe_translate c) = urlsafe_translate c.
Proof.
  unfold urlsafe_translate.
  destruct (Z.eqb_spec c 45) as [->|H1]; [reflexivity|].
  destruct (Z.eqb_spec c 95) as [->|H2]; [reflexivity|].
  destruct (Z.eqb_spec c 45); [contradiction|].
  destruct (Z.eqb_spec c 95); [contradiction | reflexivity].
Qed.

Lemma urlsafe_translate_ascii (c : Z) :
  (0 <=? urlsafe_translate c) && (urlsafe_translate c <? 128)
  = (0 <=? c) && (c <? 128).
Proof.
  unfold urlsafe_translate.
  destruct (Z.eqb_spec c 45) as [->|H1]; [reflexivity|].
  destruct (Z.eqb_spec c 95) as [->|H2]; reflexivity.
Qed.

Lemma ascii_encode_translate (s : pystr) :
  ascii_encode (map urlsafe_translate s) =
  (bs <- ascii_encode s ;; Ok (map urlsafe_translate bs)).
Proof.
  induction s as [|c s IH]; [reflexivity|].
  cbn [map ascii_encode]. rewrite urlsafe_translate_ascii, IH.
  destruct ((0 <=? c) && (c <? 128)); [|reflexivity].
  now destruct (ascii_encode s).
Qed.

Lemma padded_translate (data : pystr) :
  padded (map urlsafe_translate data) = map urlsafe_translate (padded data).
Proof.
  unfold padded. now rewrite length_map, map_app, map_urlsafe_translate_pad.
Qed.

(** X3: the characters [+] and [/] of the standard alphabet are accepted in
    place of [-] and [_]: replacing the URL-safe characters of a string by
    the standard ones does not change what the decoder returns or raises. *)
Theorem decode_base64url_standard_alphabet (data : pystr) :
  decode_base64url (JStr (map urlsafe_translate data))
  = decode_base64url (JStr data).
Proof.
  destruct data as [|c data]; [reflexivity|].
  rewrite (decode_base64url_padded (c :: data)) by discriminate.
  rewrite decode_base64url_padded by discriminate.
  rewrite padded_translate. cbn [urlsafe_b64decode].
  rewrite ascii_encode_translate.
  destruct (ascii_encode (padded (c :: data))) as [bs|]; [|reflexivity].
  cbn [bind]. rewrite map_map.
  now rewrite (map_ext _ _ urlsafe_translate_idempotent).
Qed.

(** The bytes written, counted against the characters other than [=]. *)
Lemma a2b_loop_length (data : pybytes) :
  forall q l p out raw,
    0 <= q < 4 ->
    a2b_loop data q l p out = Ok raw ->
    4 * (Z.of_nat (List.length raw) - Z.of_nat (List.length out))
    + 4 * Z.max 0 (q - 1)
    <= 3 * (q + Z.of_nat (List.length
                            (filter (fun c => negb (c =? BASE64_PAD)) data))).
Proof.
  induction data as [|c data IH]; intros q l p out raw Hq; cbn [a2b_loop].
  - destruct (Z.eqb_spec q 0) as [->|]; [|discriminate].
    intros [= <-]. cbn [filter List.length]. lia.
  - cbn [filter]. cbv zeta.
    destruct (c =? BASE64_PAD); cbn [negb List.length].
    + destruct (Z.leb_spec 2 q) as [Hq2|Hq2].
      * destruct (4 <=? q + (p + 1)).
        -- intros [= <-]. lia.
        -- intros Hr. apply IH in Hr; lia.
      * intros Hr. apply IH in Hr; lia.
    + rewrite Nat2Z.inj_succ.
      destruct (64 <=? table_a2b_base64 c);
        [intros Hr; apply IH in Hr; lia|].
      destruct (Z.eqb_spec q 0) as [->|];
        [intros Hr; apply IH in Hr; lia|].
      destruct (Z.eqb_spec q 1) as [->|];
        [intros Hr; apply IH in Hr; [|lia];
         rewrite length_app, Nat2Z.inj_add in Hr; cbn [List.length] in Hr; lia|].
      destruct (Z.eqb_spec q 2) as [->|];
        [intros Hr; apply IH in Hr; [|lia];
         rewrite length_app, Nat2Z.inj_add in Hr; cbn [List.length] in Hr; lia|].
      assert (q = 3) as -> by lia.
      intros Hr; apply IH in Hr; [|lia].
      rewrite length_app, Nat2Z.inj_add in Hr; cbn [List.length] in Hr; lia.
Qed.

Lemma ascii_encode_ok (s : pystr) (bs : pybytes) :
  ascii_encode s = Ok bs -> bs = s.
Proof.
  revert bs. induction s as [|c s IH]; intros bs; cbn [ascii_encode].
  - now intros [= <-].
  - destruct ((0 <=? c) && (c <? 128)); [|discriminate].
    destruct (ascii_encode s) as [bs'|]; [|discriminate].
    cbn [bind]. intros [= <-]. now rewrite (IH bs').
Qed.

Lemma filter_length_le {A : Type} (f : A -> bool) (l : list A) :
  (List.length (filter f l) <= List.length l)%nat.
Proof.
  induction l as [|x l IH]; [apply Nat.le_refl|].
  cbn [filter]. destruct (f x); cbn [List.length]; lia.
Qed.

Lemma filter_pad_nil (n : nat) :
  filter (fun c => negb (c =? BASE64_PAD)) (repeat 61 n) = [].
Proof. induction n as [|n IH]; [reflexivity | exact IH]. Qed.

Lemma urlsafe_b64decode_length (data : pystr) (raw : pybytes) :
  urlsafe_b64decode (JStr (padded data)) = Ok raw ->
  4 * Z.of_nat (List.length raw) <= 3 * Z.of_nat (List.length data).
Proof.
  cbn [urlsafe_b64decode].
  destruct (ascii_encode (padded data)) as [bs|] eqn:E; [|discriminate].
  apply ascii_encode_ok in E as ->. cbn [bind]. unfold a2b_base64.
  intros H. apply a2b_loop_length in H; [|lia].
  unfold padded in H.
  rewrite map_app, map_urlsafe_translate_pad, filter_app, filter_pad_nil,
    app_nil_r in H.
  pose proof (filter_length_le (fun c => negb (c =? BASE64_PAD))
                (map urlsafe_translate data)) as Hle.
  rewrite length_map in Hle. cbn [List.length] in H. lia.
Qed.

Lemma subseq_length {A : Type} (l1 l2 : list A) :
  subseq l1 l2 -> (List.length l1 <= List.length l2)%nat.
Proof. induction 1; cbn [List.length]; lia. Qed.

Lemma utf8_encode_length (t : pystr) :
  (List.length t <= List.length (utf8_encode t))%nat.
Proof.
  induction t as [|c t IH]; [apply Nat.le_refl|].
  rewrite utf8_encode_cons, length_app. cbn [List.length].
  pose proof (utf8_encode_cp_nonempty c).
  destruct (utf8_encode_cp c); [congruence | cbn [List.length]; lia].
Qed.

(** X4: the text returned is never longer than three quarters of the input:
    each group of four characters yields at most three bytes, and each code
    point takes at least one byte. *)
Theorem decode_base64url_length (data t : pystr) :
  decode_base64url (JStr data) = Ok t ->
  4 * Z.of_nat (List.length t) <= 3 * Z.of_nat (List.length data).
Proof.
  destruct data as [|c data]; [now intros [= <-]|].
  rewrite decode_base64url_padded by discriminate.
  destruct (urlsafe_b64decode (JStr (padded (c :: data)))) as [raw|] eqn:E;
    [|discriminate].
  cbn [bind]. intros [= <-].
  pose proof (urlsafe_b64decode_length _ _ E) as Hraw.
  destruct (utf8_decode_ignore_lossy raw (urlsafe_b64decode_bytes _ _ E))
    as [_ Hsub].
  apply subseq_length in Hsub.
  pose proof (utf8_encode_length (utf8_decode_ignore raw)). lia.
Qed.

Lemma decode_base64url_length_witness :
  decode_base64url (JStr (lit "SGVsbG8")) = Ok (lit "Hello") /\
  4 * Z.of_nat (List.length (lit "Hello"))
  <= 3 * Z.of_nat (List.length (lit "SGVsbG8")).
Proof.
  assert (H : decode_base64url (JStr (lit "SGVsbG8")) = Ok (lit "Hello"))
    by reflexivity.
  split; [exact H | exact (decode_base64url_length _ _ H)].
Defined.

(** The position and the output reached after a run of alphabet characters
    do not depend on what follows. *)
Lemma a2b_loop_alphabet_prefix (data : pystr) :
  Forall (fun c => b64url_alphabet c = true) data ->
  forall (q l : Z) (out : pybytes),
    0 <= q < 4 ->
    exists l' out',
      forall tail,
        a2b_loop (map urlsafe_translate data ++ tail) q l 0 out =
        a2b_loop tail ((q + Z.of_nat (List.length data)) mod 4) l' 0 out'.
Proof.
  induction 1 as [|c data Hc _ IH]; intros q l out Hq.
  - exists l, out. intros tail. cbn [map app List.length Z.of_nat].
    now rewrite Z.add_0_r, Z.mod_small.
  - destruct (b64url_alphabet_value c Hc) as [H1 H2].
    replace ((q + Z.of_nat (List.length (c :: data))) mod 4)
      with (((q + 1) mod 4 + Z.of_nat (List.length data)) mod 4)
      by (cbn [List.length]; rewrite Nat2Z.inj_succ;
          Z.to_euclidean_division_equations; lia).
    assert (Hc4 : q = 0 \/ q = 1 \/ q = 2 \/ q = 3) by lia.
    destruct Hc4 as [->|[->|[->| ->]]].
    + destruct (IH 1 (table_a2b_base64 (urlsafe_translate c)) out ltac:(lia))
        as (l' & out' & Ht).
      exists l', out'. intros tail. cbn [map app].
      rewrite (a2b_loop_data _ _ _ _ _ _ H1 H2). apply Ht.
    + destruct (IH 2 (Z.land (table_a2b_base64 (urlsafe_translate c)) 15)
                  (out ++ [Z.land (Z.lor (Z.shiftl l 2)
                             (Z.shiftr (table_a2b_base64 (urlsafe_translate c)) 4))
                             255]) ltac:(lia))
        as (l' & out' & Ht).
      exists l', out'. intros tail. cbn [map app].
      rewrite (a2b_loop_data _ _ _ _ _ _ H1 H2). apply Ht.
    + destruct (IH 3 (Z.land (table_a2b_base64 (urlsafe_translate c)) 3)
                  (out ++ [Z.land (Z.lor (Z.shiftl l 4)
                             (Z.shiftr (table_a2b_base64 (urlsafe_translate c)) 2))
                             255]) ltac:(lia))
        as (l' & out' & Ht).
      exists l', out'. intros tail. cbn [map app].
      rewrite (a2b_loop_data _ _ _ _ _ _ H1 H2). apply Ht.
    + destruct (IH 0 0
                  (out ++ [Z.land (Z.lor (Z.shiftl l 6)
                             (table_a2b_base64 (urlsafe_translate c))) 255])
                  ltac:(lia))
        as (l' & out' & Ht).
      exists l', out'. intros tail. cbn [map app].
      rewrite (a2b_loop_data _ _ _ _ _ _ H1 H2). apply Ht.
Qed.

Lemma ascii_encode_app (s t : pystr) :
  ascii_encode s = Ok s -> ascii_encode t = Ok t ->
  ascii_encode (s ++ t) = Ok (s ++ t).
Proof.
  intros Hs Ht. induction s as [|c s IH]; [exact Ht|].
  cbn [app ascii_encode] in *.
  destruct ((0 <=? c) && (c <? 128)); [|discriminate].
  destruct (ascii_encode s) as [bs|] eqn:E; [|discriminate].
  cbn [bind] in Hs. injection Hs as Hs. subst bs.
  now rewrite IH.
Qed.

Lemma alphabet_ascii_encode (data : pystr) :
  Forall (fun c => b64url_alphabet c = true) data ->
  ascii_encode data = Ok data.
Proof.
  intros Ha. apply ascii_encode_ascii.
  eapply Forall_impl; [|exact Ha]. exact b64url_alphabet_ascii.
Qed.

Lemma pad_ascii_encode (n : nat) : ascii_encode (repeat 61 n) = Ok (repeat 61 n).
Proof.
  apply ascii_encode_ascii, Forall_forall.
  intros c Hc. apply repeat_spec in Hc. lia.
Qed.

(** The base64 step on an alphabet string followed by anything in ASCII. *)
Lemma urlsafe_b64decode_alphabet_then (data : pystr) :
  Forall (fun c => b64url_alphabet c = true) data ->
  exists l' out',
    forall rest,
      ascii_encode rest = Ok rest ->
      urlsafe_b64decode (JStr (data ++ rest)) =
      a2b_loop (map urlsafe_translate rest)
        (Z.of_nat (List.length data) mod 4) l' 0 out'.
Proof.
  intros Ha.
  destruct (a2b_loop_alphabet_prefix data Ha 0 0 [] ltac:(lia))
    as (l' & out' & Ht).
  exists l', out'. intros r Hre. cbn [urlsafe_b64decode].
  rewrite (ascii_encode_app _ _ (alphabet_ascii_encode _ Ha) Hre).
  cbn [bind]. unfold a2b_base64. rewrite map_app. apply Ht.
Qed.

Lemma decode_base64url_app (data rest : pystr) :
  data <> [] ->
  decode_base64url (JStr (data ++ rest)) =
  (raw <- urlsafe_b64decode
            (JStr (data ++ rest ++
                   repeat 61 (Z.to_nat ((4 - Z.of_nat (List.length (data ++ rest))
                                               mod 4) mod 4)))) ;;
   Ok (utf8_decode_ignore raw)).
Proof.
  intros Hne. rewrite decode_base64url_padded.
  - unfold padded. now rewrite <- app_assoc.
  - destruct data; [congruence | discriminate].
Qed.

(** X11: whatever follows a complete pad sequence is ignored: after an
    alphabet string whose length is 3 modulo 4 and one [=], or 2 modulo 4 and
    two [=], any further ASCII characters leave the result unchanged. *)
Theorem decode_base64url_after_padding (data junk : pystr) :
  Forall (fun c => b64url_alphabet c = true) data ->
  Forall (fun c => 0 <= c < 128) junk ->
  (Z.of_nat (List.length data) mod 4 = 3 ->
   decode_base64url (JStr (data ++ lit "=" ++ junk))
   = decode_base64url (JStr data)) /\
  (Z.of_nat (List.length data) mod 4 = 2 ->
   decode_base64url (JStr (data ++ lit "==" ++ junk))
   = decode_base64url (JStr data)).
Proof.
  intros Ha Hj.
  destruct (urlsafe_b64decode_alphabet_then data Ha) as (l' & out' & Hrest).
  assert (Hjunk : forall n, ascii_encode (junk ++ repeat 61 n)
                            = Ok (junk ++ repeat 61 n)).
  { intros n. apply ascii_encode_app;
      [now apply ascii_encode_ascii | apply pad_ascii_encode]. }
  split; intros Hr.
  - assert (Hne : data <> []) by (intros ->; discriminate Hr).
    rewrite decode_base64url_app by exact Hne.
    rewrite (decode_base64url_padded data Hne). unfold padded at 1.
    rewrite Hr. change (Z.to_nat ((4 - 3) mod 4)) with 1%nat.
    rewrite <- app_assoc.
    rewrite !Hrest;
      [rewrite Hr; reflexivity | apply (pad_ascii_encode 1)
       | apply (ascii_encode_app [61]); [reflexivity | apply Hjunk]].
  - assert (Hne : data <> []) by (intros ->; discriminate Hr).
    rewrite decode_base64url_app by exact Hne.
    rewrite (decode_base64url_padded data Hne). unfold padded at 1.
    rewrite Hr. change (Z.to_nat ((4 - 2) mod 4)) with 2%nat.
    rewrite <- app_assoc.
    rewrite !Hrest;
      [rewrite Hr; reflexivity | apply (pad_ascii_encode 2)
       | apply (ascii_encode_app [61; 61]); [reflexivity | apply Hjunk]].
Qed.

Lemma decode_base64url_after_padding_witness :
  decode_base64url (JStr (lit "SGk" ++ lit "=" ++ lit "!ignored"))
    = decode_base64url (JStr (lit "SGk")) /\
  decode_base64url (JStr (lit "SGk")) = Ok (lit "Hi") /\
  decode_base64url (JStr (lit "_w" ++ lit "==" ++ lit "SGk"))
    = decode_base64url (JStr (lit "_w")).
Proof.
  split; [|split; [reflexivity|]].
  - apply (proj1 (decode_base64url_after_padding (lit "SGk") (lit "!ignored")
                    ltac:(repeat constructor)
                    ltac:(repeat constructor; lia))).
    reflexivity.
  - apply (proj2 (decode_base64url_after_padding (lit "_w") (lit "SGk")
                    ltac:(repeat constructor)
                    ltac:(repeat constructor; lia))).
    reflexivity.
Defined.

Lemma skipped_char_spec (c : Z) :
  skipped_char c = true ->
  0 <= c < 128 /\
  (urlsafe_translate c =? BASE64_PAD) = false /\
  (64 <=? table_a2b_base64 (urlsafe_translate c)) = true.
Proof.
  unfold skipped_char. rewrite !andb_true_iff, negb_true_iff.
  intros [[[H0 H1] H2] H3]. split; [lia|]. split; [|exact H3].
  unfold urlsafe_translate, BASE64_PAD in *.
  destruct (c =? 45); [reflexivity|]. destruct (c =? 95); [reflexivity|].
  exact H2.
Qed.

(** X12: a skipped character still counts for the padding.  When an alphabet
    string of length 2 or 3 modulo 4, which the decoder accepts, is followed
    by one character that the base64 decoder skips (a line break, a blank),
    the padding computed from the total length is too short and the decoder
    raises [binascii.Error]. *)
Theorem decode_base64url_skipped_char (data : pystr) (c : Z) :
  Forall (fun c => b64url_alphabet c = true) data ->
  skipped_char c = true ->
  Z.of_nat (List.length data) mod 4 = 2 \/
  Z.of_nat (List.length data) mod 4 = 3 ->
  returns (decode_base64url (JStr data)) /\
  decode_base64url (JStr (data ++ [c])) = Raise BinasciiError.
Proof.
  intros Ha Hc Hr.
  destruct (skipped_char_spec c Hc) as (Hasc & Hpad & Hskip).
  assert (Hne : data <> []) by (intros ->; destruct Hr; discriminate).
  split.
  - rewrite decode_base64url_padded by exact Hne.
    destruct (urlsafe_b64decode_alphabet data Ha) as [Hok _].
    destruct Hok as [raw ->]; [lia | now eexists].
  - destruct (urlsafe_b64decode_alphabet_then data Ha) as (l' & out' & Hrest).
    rewrite decode_base64url_app by exact Hne.
    rewrite length_app, Nat2Z.inj_add.
    change (Z.of_nat (List.length [c])) with 1.
    assert (Hce : forall n, ascii_encode ([c] ++ repeat 61 n)
                            = Ok ([c] ++ repeat 61 n)).
    { intros n. apply ascii_encode_app; [|apply pad_ascii_encode].
      apply ascii_encode_ascii. now constructor. }
    destruct Hr as [Hr|Hr].
    + replace ((4 - (Z.of_nat (List.length data) + 1) mod 4) mod 4) with 1
        by (Z.to_euclidean_division_equations; lia).
      rewrite Hrest by apply Hce. rewrite Hr.
      change (Z.to_nat 1) with 1%nat. cbn [app map repeat].
      rewrite (a2b_loop_skip _ _ _ _ _ _ Hpad Hskip). reflexivity.
    + replace ((4 - (Z.of_nat (List.length data) + 1) mod 4) mod 4) with 0
        by (Z.to_euclidean_division_equations; lia).
      rewrite Hrest by apply Hce. rewrite Hr.
      change (Z.to_nat 0) with 0%nat. cbn [app map repeat].
      rewrite (a2b_loop_skip _ _ _ _ _ _ Hpad Hskip). reflexivity.
Qed.

Lemma decode_base64url_skipped_char_witness :
  decode_base64url (JStr (lit "SGk")) = Ok (lit "Hi") /\
  returns (decode_base64url (JStr (lit "SGk"))) /\
  decode_base64url (JStr (lit "SGk" ++ [10])) = Raise BinasciiError.
Proof.
  split; [reflexivity|].
  exact (decode_base64url_skipped_char (lit "SGk") 10
           ltac:(repeat constructor) eq_refl (or_intror eq_refl)).
Defined.

(** * Further properties of the walk *)

Lemma py_get_total (obj : json) (k : pystr) (d v : json) :
  py_get obj k d = Ok v -> forall k' d', returns (py_get obj k' d').
Proof.
  destruct obj; try discriminate. intros _ k' d'. cbn [py_get].
  destruct (dict_lookup k' fields); eexists; reflexivity.
Qed.

Lemma part_view_parts (part mime data nested : json) :
  part_view part = Ok (mime, data, nested) ->
  py_get_none part (lit "parts") = Ok nested.
Proof.
  unfold part_view.
  destruct (py_get part (lit "mimeType") (JStr [])) as [m|]; [|discriminate].
  destruct (py_get part (lit "body") (JObj [])) as [b|]; [|discriminate].
  cbn [bind].
  destruct (py_get_none b (lit "data")) as [d|]; [|discriminate].
  cbn [bind].
  destruct (py_get_none part (lit "parts")) as [n|]; [|discriminate].
  cbn [bind]. congruence.
Qed.

(** When the loop gets past a part, the fields of the part could be read. *)
Lemma walk_siblings_cons_ok (r : json -> result pystr) (part : json)
    (rest : list json) (t : pystr) :
  walk_siblings r (part :: rest) = Ok t ->
  exists mime data nested, part_view part = Ok (mime, data, nested).
Proof.
  cbn [walk_siblings]. unfold part_view.
  destruct (py_get part (lit "mimeType") (JStr [])) as [mime|] eqn:Hm;
    [|discriminate].
  destruct (py_get part (lit "body") (JObj [])) as [body|]; [|discriminate].
  cbn [bind].
  destruct (py_get_none body (lit "data")) as [data|]; [|discriminate].
  cbn [bind]. intros _.
  destruct (py_get_total _ _ _ _ Hm (lit "parts") JNull) as [nested Hn].
  unfold py_get_none. rewrite Hn. now exists mime, data, nested.
Qed.

Lemma walk_siblings_found (r : json -> result pystr) (items : list json) :
  (forall part sub res,
     In part items -> py_getitem part (lit "parts") = Ok sub ->
     r sub = Ok res -> res <> [] ->
     exists its data,
       sub = JArr its /\ text_within its data /\ decode_base64url data = Ok res) ->
  forall t,
    walk_siblings r items = Ok t -> t <> [] ->
    exists data, text_within items data /\ decode_base64url data = Ok t.
Proof.
  induction items as [|part rest IH]; intros Hr t Hw Hne.
  - cbn in Hw. congruence.
  - assert (IH' : forall t, walk_siblings r rest = Ok t -> t <> [] ->
                   exists data, text_within rest data
                                /\ decode_base64url data = Ok t).
    { apply IH. intros p s res Hp. apply Hr. now right. }
    destruct (walk_siblings_cons_ok _ _ _ _ Hw) as (mime & data & nested & Hv).
    rewrite (walk_siblings_step _ _ _ _ _ _ Hv) in Hw.
    destruct (is_text_part mime data) eqn:Ht.
    + exists data. split; [|exact Hw].
      eapply text_within_here; eassumption.
    + destruct (py_truthy nested) eqn:Hn.
      * destruct (r nested) as [res|] eqn:Hres; [|discriminate].
        cbn [bind] in Hw. destruct res as [|c res].
        -- destruct (IH' t Hw Hne) as (d' & Hin & Hd').
           exists d'. split; [now apply text_within_later | exact Hd'].
        -- cbn [py_truthy] in Hw. injection Hw as <-.
           assert (Hg : py_getitem part (lit "parts") = Ok nested).
           { apply py_get_none_truthy_getitem; [|exact Hn].
             exact (part_view_parts _ _ _ _ Hv). }
           destruct (Hr part nested (c :: res) (or_introl eq_refl) Hg Hres
                       ltac:(discriminate))
             as (its & d' & -> & Hin & Hd').
           exists d'. split; [|exact Hd'].
           eapply text_within_nested; eassumption.
      * destruct (IH' t Hw Hne) as (d' & Hin & Hd').
        exists d'. split; [now apply text_within_later | exact Hd'].
Qed.

Lemma walk_parts_found_aux (n : nat) :
  forall v t,
    (json_depth v <= n)%nat ->
    walk_parts v = Ok t -> t <> [] ->
    exists items data,
      v = JArr items /\ text_within items data /\ decode_base64url data = Ok t.
Proof.
  induction n as [|n IH]; intros v t Hd Hw Hne;
    rewrite walk_parts_unfold in Hw;
    destruct v as [| b | z | f | s | items | fields]; try discriminate.
  1,4: destruct s as [|c s]; [cbn in Hw; congruence | discriminate].
  2,4: destruct fields as [|[k w] fields]; [cbn in Hw; congruence | discriminate].
  - cbn in Hd. lia.
  - cbn [py_iter bind] in Hw.
    destruct (walk_siblings_found walk_parts items) with (t := t)
      as (data & Hin & Hdec); try assumption.
    + intros part sub res Hp Hg Hres Hres'.
      apply IH; try assumption.
      pose proof (nested_parts_depth (JArr items) items part sub eq_refl Hp Hg).
      lia.
    + now exists items, data.
Qed.

(** X5: the walk does not invent text: a non-empty body returned by the walk
    of a parts list is the decoding of the data of a text part that occurs
    in the list, at some level. *)
Theorem walk_parts_returns_text_part (items : list json) (t : pystr) :
  walk_parts (JArr items) = Ok t ->
  t <> [] ->
  exists data, text_within items data /\ decode_base64url data = Ok t.
Proof.
  intros Hw Hne.
  destruct (walk_parts_found_aux (json_depth (JArr items)) (JArr items) t
              (Nat.le_refl _) Hw Hne)
    as (its & data & Heq & Hin & Hdec).
  injection Heq as <-. now exists data.
Qed.

Lemma walk_parts_returns_text_part_witness :
  let items := [multipart []; multipart [leaf_part "text/html" "PGI+SGk8L2I+"];
                leaf_part "text/plain" "SGk"] in
  walk_parts (JArr items) = Ok (lit "<b>Hi</b>") /\
  exists data, text_within items data
               /\ decode_base64url data = Ok (lit "<b>Hi</b>").
Proof.
  intros items.
  assert (H : walk_parts (JArr items) = Ok (lit "<b>Hi</b>")) by reflexivity.
  split; [exact H|].
  exact (walk_parts_returns_text_part items (lit "<b>Hi</b>") H
           ltac:(discriminate)).
Defined.

Lemma walk_parts_not_list (v : json) :
  py_truthy v = true ->
  (forall items, v <> JArr items) ->
  walk_parts v = Raise (walk_type_error v).
Proof.
  intros Ht Hv. rewrite walk_parts_unfold.
  destruct v as [| b | z | f | s | items | fields]; try reflexivity.
  - destruct s; [discriminate | reflexivity].
  - now elim (Hv items).
  - destruct fields; [discriminate | reflexivity].
Qed.

Lemma walk_siblings_not_dict (r : json -> result pystr) (part : json)
    (rest : list json) :
  (forall fields, part <> JObj fields) ->
  walk_siblings r (part :: rest) = Raise AttributeError.
Proof.
  intros Hp. destruct part; try reflexivity. now elim (Hp fields).
Qed.

(** X8: ill-typed parts make the walk raise, once the scan reaches them.  An
    item of a parts list that is not a dict raises [AttributeError].  Nested
    parts that are truthy but not a list raise as well: [TypeError] for a
    number or [True], [AttributeError] for a non-empty string or dict.  The
    siblings that follow are not examined. *)
Theorem walk_parts_ill_typed (pre rest : list json) (part : json) :
  Forall (passed_over walk_parts) pre ->
  ((forall fields, part <> JObj fields) ->
   walk_parts (JArr (pre ++ part :: rest)) = Raise AttributeError) /\
  (forall mime data nested,
     part_view part = Ok (mime, data, nested) ->
     is_text_part mime data = false ->
     py_truthy nested = true ->
     (forall items, nested <> JArr items) ->
     walk_parts (JArr (pre ++ part :: rest)) = Raise (walk_type_error nested)).
Proof.
  intros Hpre. rewrite walk_parts_list, (walk_siblings_prefix _ _ _ Hpre).
  split.
  - apply walk_siblings_not_dict.
  - intros mime data nested Hv Ht Hn Hl.
    rewrite (walk_siblings_step _ _ _ _ _ _ Hv), Ht, Hn.
    now rewrite (walk_parts_not_list nested Hn Hl).
Qed.

Lemma walk_parts_ill_typed_witness :
  let good := leaf_part "text/plain" "SGk" in
  walk_parts (JArr ([multipart []] ++ JStr (lit "part") :: [good]))
    = Raise AttributeError /\
  walk_parts (JArr ([multipart []] ++ JObj [(lit "parts", JInt 3)] :: [good]))
    = Raise TypeError /\
  walk_parts (JArr ([] ++ JObj [(lit "parts", JStr (lit "x"))] :: [good]))
    = Raise AttributeError.
Proof.
  intros good.
  assert (Hpre : Forall (passed_over walk_parts) [multipart []])
    by (constructor; [apply passed_over_multipart_nil | constructor]).
  split; [|split].
  - apply (proj1 (walk_parts_ill_typed [multipart []] [good]
                    (JStr (lit "part")) Hpre)).
    discriminate.
  - apply (proj2 (walk_parts_ill_typed [multipart []] [good]
                    (JObj [(lit "parts", JInt 3)]) Hpre)
             (JStr []) JNull (JInt 3));
      [reflexivity | reflexivity | reflexivity | discriminate].
  - apply (proj2 (walk_parts_ill_typed [] [good]
                    (JObj [(lit "parts", JStr (lit "x"))]) (Forall_nil _))
             (JStr []) JNull (JStr (lit "x")));
      [reflexivity | reflexivity | reflexivity | discriminate].
Defined.

Lemma json_depth_chain (n : nat) : json_depth (chain n) = (2 * n)%nat.
Proof.
  induction n as [|n IH]; [reflexivity|].
  cbn [chain json_depth fold_right snd]. rewrite IH. lia.
Qed.

Lemma walk_parts_fuel_chain (n : nat) :
  walk_parts_fuel n (chain (S n)) = Raise RecursionError.
Proof.
  induction n as [|n IH]; [reflexivity|].
  rewrite walk_parts_fuel_unfold.
  change (chain (S (S n))) with (JArr [JObj [(lit "parts", chain (S n))]]).
  cbn [py_iter bind].
  rewrite (walk_siblings_step _ (JObj [(lit "parts", chain (S n))]) []
             (JStr []) JNull (chain (S n)) eq_refl).
  cbn [fuel_call]. now rewrite IH.
Qed.

(** X9: half the nesting depth is enough and is needed.  A budget of [fuel]
    nested calls suffices for every value nested at most [2 * fuel + 1]
    levels deep, because each nested call goes down through a list and a
    dict; the value [chain (fuel + 1)], nested [2 * fuel + 2] levels deep,
    exhausts it. *)
Theorem walk_parts_depth_halved (parts : json) (fuel : nat) :
  (json_depth parts <= 2 * fuel + 1)%nat ->
  walk_parts_fuel fuel parts = walk_parts parts /\
  walk_parts_fuel fuel parts <> Raise RecursionError /\
  json_depth (chain (S fuel)) = (2 * fuel + 2)%nat /\
  walk_parts_fuel fuel (chain (S fuel)) = Raise RecursionError.
Proof.
  intros Hd.
  assert (He : walk_parts_fuel fuel parts = walk_parts parts)
    by (apply walk_parts_fuel_half; lia).
  split; [exact He|]. split; [rewrite He; apply walk_parts_overflow_free|].
  split; [rewrite json_depth_chain; lia | apply walk_parts_fuel_chain].
Qed.

Lemma walk_parts_depth_halved_witness :
  let parts := JArr [multipart [multipart [leaf_part "text/html" "PGI+SGk8L2I+"]]] in
  json_depth parts = 7%nat /\
  walk_parts_fuel 3 parts = walk_parts parts /\
  walk_parts_fuel 3 parts <> Raise RecursionError /\
  json_depth (chain 4) = 8%nat /\
  walk_parts_fuel 3 (chain 4) = Raise RecursionError.
Proof.
  intros parts. split; [reflexivity|].
  exact (walk_parts_depth_halved parts 3 ltac:(vm_compute; lia)).
Defined.

(** * Further properties of the extractor *)

Lemma walk_siblings_cons_cong (r : json -> result pystr) (part : json)
    (l1 l2 : list json) :
  walk_siblings r l1 = walk_siblings r l2 ->
  walk_siblings r (part :: l1) = walk_siblings r (part :: l2).
Proof.
  intros H. cbn [walk_siblings].
  destruct (py_get part (lit "mimeType") (JStr [])) as [mime|]; [|reflexivity].
  cbn [bind].
  destruct (py_get part (lit "body") (JObj [])) as [body|]; [|reflexivity].
  cbn [bind].
  destruct (py_get_none body (lit "data")) as [data|]; [|reflexivity].
  cbn [bind].
  destruct (mime_is_text mime && py_truthy data); [reflexivity|].
  destruct (py_get_none part (lit "parts")) as [nested|]; [|reflexivity].
  cbn [bind]. destruct (py_truthy nested); [|exact H].
  destruct (py_getitem part (lit "parts")) as [sub|]; [|reflexivity].
  cbn [bind]. destruct (r sub) as [res|]; [|reflexivity].
  cbn [bind]. now rewrite H.
Qed.

Lemma walk_siblings_app_cong (r : json -> result pystr) (pre l1 l2 : list json) :
  walk_siblings r l1 = walk_siblings r l2 ->
  walk_siblings r (pre ++ l1) = walk_siblings r (pre ++ l2).
Proof.
  intros H. induction pre as [|p pre IH]; [exact H|].
  cbn [app]. now apply walk_siblings_cons_cong.
Qed.

Lemma str_neq_eqb (s t : pystr) : s <> t -> str_eqb s t = false.
Proof. apply str_eqb_neq. Qed.

(** X10: fields that are not read do not matter.  The result depends on no
    field of the message other than [payload], on no field of the payload
    other than [headers], [body] and [parts] (its own [mimeType] included),
    and on no field of a part other than [mimeType], [body] and [parts]:
    setting any other field to any value leaves the result unchanged. *)
Theorem unread_fields_do_not_matter (k : pystr) (v : json) :
  (lit "payload" <> k ->
   forall message,
     extract_email_fields (with_field k v message)
     = extract_email_fields message) /\
  (lit "headers" <> k -> lit "body" <> k -> lit "parts" <> k ->
   forall message,
     extract_email_fields (with_payload_field k v message)
     = extract_email_fields message) /\
  (lit "mimeType" <> k -> lit "body" <> k -> lit "parts" <> k ->
   forall pre part rest,
     walk_parts (JArr (pre ++ with_field k v part :: rest))
     = walk_parts (JArr (pre ++ part :: rest))).
Proof.
  split; [|split].
  - intros Hk message. unfold extract_email_fields.
    now rewrite py_get_with_field_other by now apply str_neq_eqb.
  - intros Hh Hb Hp message.
    destruct (py_get message (lit "payload") (JObj [])) as [payload|e] eqn:E.
    + apply extract_email_fields_ext
        with (p1 := with_field k v payload) (p2 := payload).
      * now apply py_get_payload_with_payload_field.
      * exact E.
      * now apply py_get_with_field_other, str_neq_eqb.
      * now apply py_get_with_field_other, str_neq_eqb.
      * now apply py_getitem_with_field_other, str_neq_eqb.
      * now rewrite py_get_with_field_other by now apply str_neq_eqb.
    + unfold with_payload_field. now rewrite E.
  - intros Hm Hb Hp pre part rest.
    rewrite !walk_parts_list. apply walk_siblings_app_cong.
    cbn [walk_siblings]. unfold py_get_none.
    now rewrite !py_get_with_field_other, py_getitem_with_field_other
      by now apply str_neq_eqb.
Qed.

Lemma unread_fields_do_not_matter_witness :
  let message :=
    message_of [header "Subject" "Hi"] []
               [multipart []; leaf_part "text/plain" "SGk"] in
  extract_email_fields (with_field (lit "threadId") (JInt 1) message)
    = extract_email_fields message /\
  extract_email_fields
    (with_payload_field (lit "mimeType") (JStr (lit "image/png")) message)
    = extract_email_fields message /\
  walk_parts (JArr ([multipart []]
                      ++ with_field (lit "filename") (JStr (lit "a.txt"))
                           (leaf_part "text/plain" "SGk") :: []))
    = walk_parts (JArr ([multipart []] ++ leaf_part "text/plain" "SGk" :: [])).
Proof.
  intros message. split; [|split].
  - apply (proj1 (unread_fields_do_not_matter (lit "threadId") (JInt 1))).
    discriminate.
  - apply (proj1 (proj2 (unread_fields_do_not_matter (lit "mimeType")
                           (JStr (lit "image/png")))));
      discriminate.
  - apply (proj2 (proj2 (unread_fields_do_not_matter (lit "filename")
                           (JStr (lit "a.txt")))));
      discriminate.
Defined.

Lemma extract_email_fields_header_error (message payload : json) (e : exn) :
  py_get message (lit "payload") (JObj []) = Ok payload ->
  header_pass payload = Raise e ->
  extract_email_fields message = Raise e.
Proof.
  intros Hp He. rewrite extract_email_fields_blocks, Hp. cbn [bind].
  now rewrite He.
Qed.

(** X6: a field that is present with the value [null] is not read as a
    missing field.  A [null] payload or body raises [AttributeError]; [null]
    headers, and [null] parts of the payload when they are walked, raise
    [TypeError]; only inside a part is [parts: null] passed over like an
    absent list. *)
Theorem null_is_not_missing :
  (forall fields,
     dict_lookup (lit "payload") fields = Some JNull ->
     extract_email_fields (JObj fields) = Raise AttributeError) /\
  (forall message payload,
     py_get message (lit "payload") (JObj []) = Ok payload ->
     py_get payload (lit "headers") (JArr []) = Ok JNull ->
     extract_email_fields message = Raise TypeError) /\
  (forall message payload,
     py_get message (lit "payload") (JObj []) = Ok payload ->
     returns (header_pass payload) ->
     py_get payload (lit "body") (JObj []) = Ok JNull ->
     extract_email_fields message = Raise AttributeError) /\
  (forall message payload data,
     py_get message (lit "payload") (JObj []) = Ok payload ->
     returns (header_pass payload) ->
     inline_data payload = Ok data -> py_truthy data = false ->
     py_get payload (lit "parts") (JArr []) = Ok JNull ->
     extract_email_fields message = Raise TypeError) /\
  (forall part rest mime data,
     part_view part = Ok (mime, data, JNull) ->
     is_text_part mime data = false ->
     walk_parts (JArr (part :: rest)) = walk_parts (JArr rest)).
Proof.
  split; [|split; [|split; [|split]]].
  - intros fields Hk. unfold extract_email_fields. cbn [py_get].
    now rewrite Hk.
  - intros message payload Hp Hh.
    apply (extract_email_fields_header_error _ _ _ Hp).
    unfold header_pass. now rewrite Hh.
  - intros message payload Hp [[sender subject] Hh] Hb.
    rewrite extract_email_fields_blocks, Hp. cbn [bind]. rewrite Hh.
    unfold extract_body, inline_data. now rewrite Hb.
  - intros message payload data Hp [[sender subject] Hh] Hd Ht Hq.
    rewrite (extract_email_fields_multipart _ _ _ Hp Hd Ht), Hh, Hq.
    reflexivity.
  - intros part rest mime data Hv Ht.
    rewrite !walk_parts_list, (walk_siblings_step _ _ _ _ _ _ Hv), Ht.
    reflexivity.
Qed.

Lemma null_is_not_missing_witness :
  extract_email_fields (JObj [(lit "payload", JNull)]) = Raise AttributeError /\
  extract_email_fields
    (JObj [(lit "payload", JObj [(lit "headers", JNull)])]) = Raise TypeError /\
  extract_email_fields
    (JObj [(lit "payload", JObj [(lit "body", JNull)])]) = Raise AttributeError /\
  extract_email_fields
    (JObj [(lit "payload", JObj [(lit "parts", JNull)])]) = Raise TypeError /\
  walk_parts (JArr [JObj [(lit "parts", JNull)]; leaf_part "text/plain" "SGk"])
    = walk_parts (JArr [leaf_part "text/plain" "SGk"]).
Proof.
  destruct null_is_not_missing as (H1 & H2 & H3 & H4 & H5).
  split; [apply H1; reflexivity|].
  split; [apply (H2 _ (JObj [(lit "headers", JNull)])); reflexivity|].
  split; [apply (H3 _ (JObj [(lit "body", JNull)]));
          [reflexivity | now eexists | reflexivity]|].
  split; [apply (H4 _ (JObj [(lit "parts", JNull)]) JNull);
          [reflexivity | now eexists | reflexivity | reflexivity | reflexivity]|].
  apply (H5 _ _ (JStr []) JNull); reflexivity.
Defined.

(** A header is readable or makes the loop raise. *)
Lemma header_readable_or_raises (h : json) :
  well_formed_header h \/
  (~ well_formed_header h /\
   forall rest sender subject,
     extract_headers (h :: rest) sender subject = Raise AttributeError).
Proof.
  unfold well_formed_header.
  destruct (py_get h (lit "name") (JStr [])) as [nm|e] eqn:E.
  - destruct nm as [| b | z | f | n | items | fields];
      try (right; split;
           [intros [n Hn]; discriminate
           | intros rest sender subject; cbn [extract_headers];
             rewrite E; reflexivity]).
    left. now exists n.
  - right. split; [intros [n Hn]; discriminate|].
    intros rest sender subject. cbn [extract_headers]. rewrite E.
    destruct h as [| b | z | f | s | items | fields]; cbn [py_get] in E;
      try (injection E as <-; reflexivity).
    destruct (dict_lookup (lit "name") fields); discriminate.
Qed.

Lemma extract_headers_readable (hs : list json) :
  forall sender subject,
    (Forall well_formed_header hs -> returns (extract_headers hs sender subject)) /\
    (~ Forall well_formed_header hs ->
     extract_headers hs sender subject = Raise AttributeError).
Proof.
  induction hs as [|h hs IH]; intros sender subject.
  - split; [intros _; now eexists | intros H; elim H; constructor].
  - split.
    + intros Hwf. rewrite (extract_headers_last _ Hwf). now eexists.
    + intros Hn.
      destruct (header_readable_or_raises h) as [Hh | [_ Hraise]];
        [|apply Hraise].
      assert (Hrest : ~ Forall well_formed_header hs)
        by (intros Hrest; apply Hn; now constructor).
      destruct Hh as [n Hname]. cbn [extract_headers].
      rewrite Hname. cbn [bind py_lower].
      destruct h; try discriminate.
      assert (Hv : exists v, py_get (JObj fields) (lit "value") (JStr []) = Ok v)
        by (cbn [py_get]; destruct (dict_lookup (lit "value") fields); eauto).
      destruct Hv as [v ->]. cbn [bind].
      destruct (str_eqb (str_lower n) (lit "subject"));
        [now apply IH|].
      destruct (str_eqb (str_lower n) (lit "from")); now apply IH.
Qed.

(** X7: the header pass returns exactly when every header is a dict whose
    name is a string (or absent).  One header that is not makes the loop
    raise [AttributeError], and [extract_email_fields] raises it whatever
    body the message has. *)
Theorem headers_must_be_readable (message payload headers : json)
    (hs : list json) :
  py_get message (lit "payload") (JObj []) = Ok payload ->
  py_get payload (lit "headers") (JArr []) = Ok headers ->
  py_iter headers = Ok hs ->
  (forall sender subject,
     returns (extract_headers hs sender subject)
     <-> Forall well_formed_header hs) /\
  (~ Forall well_formed_header hs ->
   extract_email_fields message = Raise AttributeError).
Proof.
  intros Hp Hh Hit. split.
  - intros sender subject. split.
    + intros [r Hr].
      destruct (extract_headers_readable hs sender subject) as [_ Hraise].
      assert (Hdec : Forall well_formed_header hs
                     \/ ~ Forall well_formed_header hs).
      { clear. induction hs as [|h hs [IH|IH]].
        - left. constructor.
        - destruct (header_readable_or_raises h) as [Hh | [Hh _]].
          + left. now constructor.
          + right. intros H. now inversion H.
        - right. intros H. now inversion H. }
      destruct Hdec as [Hwf|Hn]; [exact Hwf|].
      rewrite (Hraise Hn) in Hr. discriminate.
    + apply extract_headers_readable.
  - intros Hn. apply (extract_email_fields_header_error _ _ _ Hp).
    unfold header_pass. rewrite Hh. cbn [bind]. rewrite Hit. cbn [bind].
    now apply extract_headers_readable.
Qed.

Lemma headers_must_be_readable_witness :
  let hs := [header "Subject" "Hi";
             JObj [(lit "name", JInt 5); (lit "value", JStr (lit "x"))]] in
  let message := message_of hs [(lit "data", JStr (lit "SGVsbG8"))] [] in
  ~ Forall well_formed_header hs /\
  extract_email_fields message = Raise AttributeError.
Proof.
  intros hs message.
  assert (Hn : ~ Forall well_formed_header hs).
  { intros H. inversion H as [|? ? _ H2]; subst.
    inversion H2 as [|? ? [n Hname] _]; subst. discriminate Hname. }
  split; [exact Hn|].
  exact (proj2 (headers_must_be_readable message
                  (JObj [(lit "headers", JArr hs);
                         (lit "body", JObj [(lit "data", JStr (lit "SGVsbG8"))]);
                         (lit "parts", JArr [])])
                  (JArr hs) hs eq_refl eq_refl eq_refl) Hn).
Defined.

Lemma decode_base64url_encoded_bytes (bs : pybytes) :
  Forall is_byte bs ->
  decode_base64url (JStr (b64url_encode bs)) = Ok (utf8_decode_ignore bs).
Proof.
  intros Hb. destruct bs as [|b bs]; [reflexivity|].
  rewrite decode_base64url_padded
    by (apply b64url_encode_nonempty; discriminate).
  now rewrite urlsafe_b64decode_encode.
Qed.

Lemma decode_base64url_encoded_text (text : pystr) :
  Forall is_scalar text ->
  decode_base64url (JStr (provider_encode text)) = Ok text.
Proof.
  intros Hs. unfold provider_encode.
  rewrite decode_base64url_encoded_bytes by now apply utf8_encode_bytes.
  now rewrite utf8_decode_encode.
Qed.

Lemma provider_encode_truthy (c : Z) (text : pystr) :
  py_truthy (JStr (provider_encode (c :: text))) = true.
Proof.
  apply py_truthy_str, b64url_encode_nonempty. rewrite utf8_encode_cons.
  pose proof (utf8_encode_cp_nonempty c).
  destruct (utf8_encode_cp c); [congruence | discriminate].
Qed.

Lemma walk_parts_fuel_wrapped (mime text : pystr) (n : nat) :
  Forall is_scalar text ->
  mime = lit "text/plain" \/ mime = lit "text/html" ->
  forall fuel, (n <= fuel)%nat ->
    walk_parts_fuel fuel (JArr [wrapped n (text_part mime text)]) = Ok text.
Proof.
  intros Hs Hm.
  assert (Hmime : mime_is_text (JStr mime) = true)
    by (apply mime_is_text_exact; destruct Hm as [->| ->]; auto).
  induction n as [|n IH]; intros fuel Hf; rewrite walk_parts_fuel_unfold;
    cbn [py_iter bind].
  - rewrite (walk_siblings_step _ (text_part mime text) []
               (JStr mime) (JStr (provider_encode text)) JNull eq_refl).
    unfold is_text_part. rewrite Hmime.
    destruct text as [|c text]; [reflexivity|].
    rewrite provider_encode_truthy. now apply decode_base64url_encoded_text.
  - destruct fuel as [|fuel]; [lia|].
    rewrite (walk_siblings_step _ (wrapped (S n) (text_part mime text)) []
               (JStr (lit "multipart/mixed")) JNull
               (JArr [wrapped n (text_part mime text)]) eq_refl).
    cbn [is_text_part mime_is_text py_eq_str py_truthy andb orb].
    change (is_text_part (JStr (lit "multipart/mixed")) JNull) with false.
    cbv iota. cbn [fuel_call]. rewrite IH by lia. cbn [bind].
    now destruct text.
Qed.

(** A budget below the number of containers is used up on the way down. *)
Lemma walk_parts_fuel_wrapped_short (part : json) (n : nat) :
  forall fuel, (fuel < n)%nat ->
    walk_parts_fuel fuel (JArr [wrapped n part]) = Raise RecursionError.
Proof.
  induction n as [|n IH]; intros fuel Hf; [lia|].
  rewrite walk_parts_fuel_unfold. cbn [py_iter bind].
  rewrite (walk_siblings_step _ (wrapped (S n) part) []
             (JStr (lit "multipart/mixed")) JNull
             (JArr [wrapped n part]) eq_refl).
  change (is_text_part (JStr (lit "multipart/mixed")) JNull) with false.
  cbn [py_truthy]. cbv iota.
  destruct fuel as [|fuel]; [reflexivity|].
  cbn [fuel_call]. now rewrite IH by lia.
Qed.

(** X13: what the provider puts in comes out.  For a message with a From
    and a Subject header, the extractor returns the two header values and
    the text, for every text of Unicode scalar values: under any recursion
    budget when the encoded text is the inline body data, and when it is the
    data of a text/plain or text/html part below [n] multipart containers,
    under a budget that allows [n] nested calls.  Under a smaller budget
    the call raises RecursionError. *)
Theorem extract_returns_what_was_sent (sender subject mime text : pystr)
    (n fuel : nat) :
  Forall is_scalar text ->
  mime = lit "text/plain" \/ mime = lit "text/html" ->
  extract_email_fields_fuel fuel
    (mail sender subject
       [(lit "body", JObj [(lit "data", JStr (provider_encode text))])])
  = Ok (JStr sender, JStr subject, text) /\
  ((n <= fuel)%nat ->
   extract_email_fields_fuel fuel
     (mail sender subject
        [(lit "parts", JArr [wrapped n (text_part mime text)])])
   = Ok (JStr sender, JStr subject, text)) /\
  ((fuel < n)%nat ->
   extract_email_fields_fuel fuel
     (mail sender subject
        [(lit "parts", JArr [wrapped n (text_part mime text)])])
   = Raise RecursionError).
Proof.
  intros Hs Hm.
  assert (Hparts :
    extract_email_fields_fuel fuel
      (mail sender subject
         [(lit "parts", JArr [wrapped n (text_part mime text)])])
    = (body <- walk_parts_fuel fuel (JArr [wrapped n (text_part mime text)]) ;;
       Ok (JStr sender, JStr subject, body))).
  { rewrite (extract_email_fields_fuel_multipart fuel
               (mail sender subject
                  [(lit "parts", JArr [wrapped n (text_part mime text)])])
               (mail_payload sender subject
                  [(lit "parts", JArr [wrapped n (text_part mime text)])])
               JNull eq_refl eq_refl eq_refl).
    reflexivity. }
  split; [|split].
  - destruct text as [|c text]; [destruct fuel; reflexivity|].
    rewrite (extract_email_fields_fuel_inline fuel
               (mail sender subject
                  [(lit "body",
                    JObj [(lit "data", JStr (provider_encode (c :: text)))])])
               (mail_payload sender subject
                  [(lit "body",
                    JObj [(lit "data", JStr (provider_encode (c :: text)))])])
               (JStr (provider_encode (c :: text))) eq_refl eq_refl
               (provider_encode_truthy c text)).
    rewrite (decode_base64url_encoded_text _ Hs). reflexivity.
  - intros Hf. rewrite Hparts.
    now rewrite (walk_parts_fuel_wrapped mime text n Hs Hm fuel Hf).
  - intros Hf. rewrite Hparts.
    now rewrite (walk_parts_fuel_wrapped_short _ n fuel Hf).
Qed.

Lemma extract_returns_what_was_sent_witness :
  let text := [72; 105; 32; 8364; 128512] in
  extract_email_fields_fuel 3
    (mail (lit "a@b.com") (lit "Hi")
       [(lit "body", JObj [(lit "data", JStr (provider_encode text))])])
  = Ok (JStr (lit "a@b.com"), JStr (lit "Hi"), text) /\
  extract_email_fields_fuel 3
    (mail (lit "a@b.com") (lit "Hi")
       [(lit "parts", JArr [wrapped 3 (text_part (lit "text/html") text)])])
  = Ok (JStr (lit "a@b.com"), JStr (lit "Hi"), text) /\
  extract_email_fields_fuel 2
    (mail (lit "a@b.com") (lit "Hi")
       [(lit "parts", JArr [wrapped 3 (text_part (lit "text/html") text)])])
  = Raise RecursionError.
Proof.
  intros text.
  assert (Hs : Forall is_scalar text)
    by (repeat constructor; unfold is_scalar; lia).
  destruct (extract_returns_what_was_sent (lit "a@b.com") (lit "Hi")
              (lit "text/html") text 3 3 Hs (or_intror eq_refl))
    as (Hinline & Hparts & _).
  destruct (extract_returns_what_was_sent (lit "a@b.com") (lit "Hi")
              (lit "text/html") text 3 2 Hs (or_intror eq_refl))
    as (_ & _ & Hshort).
  split; [exact Hinline|].
  split; [apply Hparts; lia | apply Hshort; lia].
Defined.

Lemma walk_siblings_app (r : json -> result pystr) (l1 l2 : list json) :
  walk_siblings r l1 <> Ok [] ->
  walk_siblings r (l1 ++ l2) = walk_siblings r l1.
Proof.
  induction l1 as [|part l1 IH]; intros Hne; [now elim Hne|].
  cbn [app walk_siblings] in *.
  destruct (py_get part (lit "mimeType") (JStr [])) as [mime|]; [|reflexivity].
  cbn [bind] in *.
  destruct (py_get part (lit "body") (JObj [])) as [body|]; [|reflexivity].
  cbn [bind] in *.
  destruct (py_get_none body (lit "data")) as [data|]; [|reflexivity].
  cbn [bind] in *.
  destruct (mime_is_text mime && py_truthy data); [reflexivity|].
  destruct (py_get_none part (lit "parts")) as [nested|]; [|reflexivity].
  cbn [bind] in *. destruct (py_truthy nested); [|now apply IH].
  destruct (py_getitem part (lit "parts")) as [sub|]; [|reflexivity].
  cbn [bind] in *. destruct (r sub) as [res|]; [|reflexivity].
  cbn [bind] in *. destruct (py_truthy (JStr res)); [reflexivity|now apply IH].
Qed.

(** X14: parts added at the end of a list change neither a text that was
    found nor an error: unless the walk of a list returns the empty string,
    the walk of the list followed by any further parts gives the same
    result. *)
Theorem walk_parts_append (l1 l2 : list json) :
  walk_parts (JArr l1) <> Ok [] ->
  walk_parts (JArr (l1 ++ l2)) = walk_parts (JArr l1).
Proof.
  rewrite !walk_parts_list. apply walk_siblings_app.
Qed.

Lemma walk_parts_append_witness :
  let l1 := [multipart [leaf_part "text/html" "PGI+SGk8L2I+"]] in
  let l2 := [leaf_part "text/plain" "SGk"; JInt 0] in
  walk_parts (JArr l1) = Ok (lit "<b>Hi</b>") /\
  walk_parts (JArr (l1 ++ l2)) = walk_parts (JArr l1).
Proof.
  intros l1 l2. split; [reflexivity|].
  apply (walk_parts_append l1 l2). discriminate.
Defined.

Lemma lower_cp_letter (c d : Z) :
  97 <= d <= 122 -> d <> 105 -> d <> 107 ->
  forall rest key,
    lower_cp c ++ rest = d :: key <-> (c = d \/ c = d - 32) /\ rest = key.
Proof.
  intros Hd Hi Hk rest key. unfold lower_cp.
  destruct ((65 <=? c) && (c <=? 90)) eqn:E1;
    [|destruct ((192 <=? c) && (c <=? 222) && negb (c =? 215)) eqn:E2;
      [|destruct (c =? 304) eqn:E3; [|destruct (c =? 8490) eqn:E4]]];
    cbn [app]; (split; [intros [= H1 H2] | intros [[H1|H1] H2]]);
    try (split; [lia | assumption]); try (subst; f_equal; lia); try lia.
Qed.

Lemma str_lower_caseless (key : pystr) :
  Forall (fun d => 97 <= d <= 122 /\ d <> 105 /\ d <> 107) key ->
  forall name, str_lower name = key <-> caseless_eq name key.
Proof.
  induction 1 as [|d key (Hd & Hi & Hk) _ IH]; intros name.
  - destruct name as [|c name].
    + split; [constructor | reflexivity].
    + split; [|inversion 1]. cbn [str_lower flat_map]. unfold lower_cp.
      repeat match goal with
             | |- context [if ?b then _ else _] => destruct b
             end; discriminate.
  - destruct name as [|c name].
    + split; [discriminate | inversion 1].
    + change (str_lower (c :: name)) with (lower_cp c ++ str_lower name).
      rewrite (lower_cp_letter c d Hd Hi Hk). split.
      * intros [Hc Hn]. constructor; [exact Hc | now apply IH].
      * inversion 1; subst. split; [assumption | now apply IH].
Qed.

(** X15: header names are matched exactly, up to the case of ASCII letters:
    a header counts as subject (as from) if and only if its name has the
    seven (four) characters of the word, each in either case.  Nothing is
    trimmed, and no other character stands for a letter. *)
Theorem header_named_caseless (h : json) :
  (header_named (lit "subject") h = true <->
   exists name, py_get h (lit "name") (JStr []) = Ok (JStr name)
                /\ caseless_eq name (lit "subject")) /\
  (header_named (lit "from") h = true <->
   exists name, py_get h (lit "name") (JStr []) = Ok (JStr name)
                /\ caseless_eq name (lit "from")).
Proof.
  assert (Hgen : forall key,
             Forall (fun d => 97 <= d <= 122 /\ d <> 105 /\ d <> 107) key ->
             header_named key h = true <->
             exists name, py_get h (lit "name") (JStr []) = Ok (JStr name)
                          /\ caseless_eq name key).
  { intros key Hkey. unfold header_named.
    destruct (py_get h (lit "name") (JStr [])) as [nm|e];
      [|split; [discriminate | intros (n & Hn & _); discriminate]].
    destruct nm as [| b | z | f | n | items | fields];
      try (split; [discriminate | intros (n & Hn & _); discriminate]).
    rewrite str_eqb_eq, (str_lower_caseless key Hkey). split.
    - intros Hc. now exists n.
    - intros (n' & [= <-] & Hc). exact Hc. }
  change (lit "subject") with [115; 117; 98; 106; 101; 99; 116].
  change (lit "from") with [102; 114; 111; 109].
  split; apply Hgen; repeat (apply Forall_cons; [lia|]); apply Forall_nil.
Qed.
